(** * The AST store and the date arithmetic of the v7 JavaScript engine

    A shallow embedding of [src/ast.c] (the packed binary AST: schema
    table, writer, reader) and of the date module (calendar kernel, ISO
    formatter, string parser, constructor glue, locale handling), with the
    properties of the two that this development establishes.

    Conventions of the embedding.
    - A buffer ([struct mbuf]) is the list of its bytes, each a [Z]; an
      offset ([ast_off_t], [size_t]) is a [Z].
    - A C function that can abort on [assert], or touch memory outside an
      object, returns a [result]: [AssertFailed] for the former, [Fault]
      for the latter.  A loop whose bound is not a syntactic argument runs
      on fuel, and [OutOfFuel] is a result of its own.
    - An instant ([etime_t], a double) is [option Z]: [None] is NaN, and
      [Some t] is the integral instant of [t] milliseconds.  On integral
      instants within the ECMAScript range every double operation of the
      date module is exact, so [floor (a / b)] on doubles is [a / b] on
      [Z], while [/] and [%] on C integers are [Z.quot] and [Z.rem]. *)

From Stdlib Require Import ZArith List Lia Bool String Ascii.
Import ListNotations.

Local Open Scope Z_scope.

(** ** Results of partial C functions *)

Inductive result (A : Type) : Type :=
| Ok (x : A)
| AssertFailed
| Fault
| OutOfFuel.

Arguments Ok {A} x.
Arguments AssertFailed {A}.
Arguments Fault {A}.
Arguments OutOfFuel {A}.

Definition bind {A B : Type} (r : result A) (k : A -> result B) : result B :=
  match r with
  | Ok x => k x
  | AssertFailed => AssertFailed
  | Fault => Fault
  | OutOfFuel => OutOfFuel
  end.

Notation "x <- e ;; k" := (bind e (fun x => k))
  (at level 61, e at next level, right associativity).
Notation "' p <- e ;; k" := (bind e (fun p => k))
  (at level 61, p pattern, e at next level, right associativity).

(** [assert (c)] *)
Definition assert (c : bool) : result unit :=
  if c then Ok tt else AssertFailed.

(** ** The schema table ([ast_node_defs]) *)

Record ast_node_def : Type := AST_ENTRY {
  name : string;
  has_varint : bool;
  has_inlined : bool;
  num_skips : Z;
  num_subtrees : Z
}.

Section Table.

(** The C initialisers write the two flags as [0] and [1]. *)
Local Coercion flag_of_Z (z : Z) : bool := negb (z =? 0).

Definition ast_node_defs : list ast_node_def :=
  [
    AST_ENTRY "NOP" 0 0 0 0;
    AST_ENTRY "SCRIPT" 0 0 2 0;
    AST_ENTRY "VAR" 0 0 2 0;
    AST_ENTRY "VAR_DECL" 1 1 0 1;
    AST_ENTRY "FUNC_DECL" 1 1 0 1;
    AST_ENTRY "IF" 0 0 2 1;
    AST_ENTRY "FUNC" 0 0 3 1;
    AST_ENTRY "ASSIGN" 0 0 0 2;
    AST_ENTRY "REM_ASSIGN" 0 0 0 2;
    AST_ENTRY "MUL_ASSIGN" 0 0 0 2;
    AST_ENTRY "DIV_ASSIGN" 0 0 0 2;
    AST_ENTRY "XOR_ASSIGN" 0 0 0 2;
    AST_ENTRY "PLUS_ASSIGN" 0 0 0 2;
    AST_ENTRY "MINUS_ASSIGN" 0 0 0 2;
    AST_ENTRY "OR_ASSIGN" 0 0 0 2;
    AST_ENTRY "AND_ASSIGN" 0 0 0 2;
    AST_ENTRY "LSHIFT_ASSIGN" 0 0 0 2;
    AST_ENTRY "RSHIFT_ASSIGN" 0 0 0 2;
    AST_ENTRY "URSHIFT_ASSIGN" 0 0 0 2;
    AST_ENTRY "NUM" 1 1 0 0;
    AST_ENTRY "IDENT" 1 1 0 0;
    AST_ENTRY "STRING" 1 1 0 0;
    AST_ENTRY "REGEX" 1 1 0 0;
    AST_ENTRY "LABEL" 1 1 0 0;
    AST_ENTRY "SEQ" 0 0 1 0;
    AST_ENTRY "WHILE" 0 0 1 1;
    AST_ENTRY "DOWHILE" 0 0 2 0;
    AST_ENTRY "FOR" 0 0 2 3;
    AST_ENTRY "FOR_IN" 0 0 2 3;
    AST_ENTRY "COND" 0 0 0 3;
    AST_ENTRY "DEBUGGER" 0 0 0 0;
    AST_ENTRY "BREAK" 0 0 0 0;
    AST_ENTRY "LAB_BREAK" 0 0 0 1;
    AST_ENTRY "CONTINUE" 0 0 0 0;
    AST_ENTRY "LAB_CONTINUE" 0 0 0 1;
    AST_ENTRY "RETURN" 0 0 0 0;
    AST_ENTRY "VAL_RETURN" 0 0 0 1;
    AST_ENTRY "THROW" 0 0 0 1;
    AST_ENTRY "TRY" 0 0 3 1;
    AST_ENTRY "SWITCH" 0 0 2 1;
    AST_ENTRY "CASE" 0 0 1 1;
    AST_ENTRY "DEFAULT" 0 0 1 0;
    AST_ENTRY "WITH" 0 0 1 1;
    AST_ENTRY "LOG_OR" 0 0 0 2;
    AST_ENTRY "LOG_AND" 0 0 0 2;
    AST_ENTRY "OR" 0 0 0 2;
    AST_ENTRY "XOR" 0 0 0 2;
    AST_ENTRY "AND" 0 0 0 2;
    AST_ENTRY "EQ" 0 0 0 2;
    AST_ENTRY "EQ_EQ" 0 0 0 2;
    AST_ENTRY "NE" 0 0 0 2;
    AST_ENTRY "NE_NE" 0 0 0 2;
    AST_ENTRY "LE" 0 0 0 2;
    AST_ENTRY "LT" 0 0 0 2;
    AST_ENTRY "GE" 0 0 0 2;
    AST_ENTRY "GT" 0 0 0 2;
    AST_ENTRY "IN" 0 0 0 2;
    AST_ENTRY "INSTANCEOF" 0 0 0 2;
    AST_ENTRY "LSHIFT" 0 0 0 2;
    AST_ENTRY "RSHIFT" 0 0 0 2;
    AST_ENTRY "URSHIFT" 0 0 0 2;
    AST_ENTRY "ADD" 0 0 0 2;
    AST_ENTRY "SUB" 0 0 0 2;
    AST_ENTRY "REM" 0 0 0 2;
    AST_ENTRY "MUL" 0 0 0 2;
    AST_ENTRY "DIV" 0 0 0 2;
    AST_ENTRY "POS" 0 0 0 1;
    AST_ENTRY "NEG" 0 0 0 1;
    AST_ENTRY "NOT" 0 0 0 1;
    AST_ENTRY "LOGICAL_NOT" 0 0 0 1;
    AST_ENTRY "VOID" 0 0 0 1;
    AST_ENTRY "DELETE" 0 0 0 1;
    AST_ENTRY "TYPEOF" 0 0 0 1;
    AST_ENTRY "PREINC" 0 0 0 1;
    AST_ENTRY "PREDEC" 0 0 0 1;
    AST_ENTRY "POSTINC" 0 0 0 1;
    AST_ENTRY "POSTDEC" 0 0 0 1;
    AST_ENTRY "MEMBER" 1 1 0 1;
    AST_ENTRY "INDEX" 0 0 0 2;
    AST_ENTRY "CALL" 0 0 1 1;
    AST_ENTRY "NEW" 0 0 1 1;
    AST_ENTRY "ARRAY" 0 0 1 0;
    AST_ENTRY "OBJECT" 0 0 1 0;
    AST_ENTRY "PROP" 1 1 0 1;
    AST_ENTRY "GETTER" 0 0 0 1;
    AST_ENTRY "SETTER" 0 0 0 1;
    AST_ENTRY "THIS" 0 0 0 0;
    AST_ENTRY "TRUE" 0 0 0 0;
    AST_ENTRY "FALSE" 0 0 0 0;
    AST_ENTRY "NULL" 0 0 0 0;
    AST_ENTRY "UNDEF" 0 0 0 0;
    AST_ENTRY "USE_STRICT" 0 0 0 0
  ].

End Table.

Definition AST_MAX_TAG : Z := Eval cbv in Z.of_nat (List.length ast_node_defs).

(** [&ast_node_defs[tag]], dereferenced *)
Definition ast_def (tag : Z) : result ast_node_def :=
  if tag <? 0 then Fault
  else match nth_error ast_node_defs (Z.to_nat tag) with
       | Some d => Ok d
       | None => Fault
       end.

(** [enum ast_which_skip]: the first skip of every node is its end. *)
Definition AST_END_SKIP : Z := 0.

(** ** The byte buffer *)

Definition mbuf : Type := list Z.

Definition mbuf_len (a : mbuf) : Z := Z.of_nat (List.length a).

(** [a->buf[p]], read *)
Definition byte_at (a : mbuf) (p : Z) : result Z :=
  if p <? 0 then Fault
  else match nth_error a (Z.to_nat p) with
       | Some b => Ok b
       | None => Fault
       end.

(** [a->buf[p] = v], where [v] has already been cast to [uint8_t] *)
Definition store (a : mbuf) (p v : Z) : result mbuf :=
  if (0 <=? p) && (p <? mbuf_len a)
  then Ok (firstn (Z.to_nat p) a ++ v :: skipn (Z.to_nat (p + 1)) a)
  else Fault.

(** [n] bytes appended or inserted from a [NULL] source *)
Definition zeros (n : Z) : list Z := repeat 0 (Z.to_nat n).

(** Modelled from the spec: [mbuf_append] of the buffer module, which is
    not part of these sources.  The spec's writer appends one tag byte and
    then zero bytes for the skips; allocation never fails here. *)
Definition mbuf_append (a : mbuf) (data : list Z) : mbuf := a ++ data.

(** Modelled from the spec: [mbuf_insert] of the buffer module, which is
    not part of these sources: the bytes are inserted at offset [off], and
    what was at [off] and after moves up.  An offset past the end is
    outside the buffer. *)
Definition mbuf_insert (a : mbuf) (off : Z) (data : list Z) : result mbuf :=
  if (0 <=? off) && (off <=? mbuf_len a)
  then Ok (firstn (Z.to_nat off) a ++ data ++ skipn (Z.to_nat off) a)
  else Fault.

(** ** Varints *)

Fixpoint encode_varint_fuel (fuel : nat) (n : Z) : list Z :=
  match fuel with
  | O => [n mod 128]
  | S f =>
      if n <? 128 then [n]
      else n mod 128 + 128 :: encode_varint_fuel f (n / 128)
  end.

(** Modelled from the spec: [encode_varint] of the engine's shared
    helpers, which are not part of these sources: an unsigned LEB128-style
    integer, seven bits a byte, the low bits first, the top bit of a byte
    set when another byte follows. *)
Definition encode_varint (n : Z) : list Z :=
  encode_varint_fuel (Z.to_nat (Z.log2 n)) n.

Fixpoint decode_varint_from (l : list Z) (i : Z) : result (Z * Z) :=
  match l with
  | [] => Fault
  | b :: l' =>
      let v := (b mod 128) * 2 ^ (7 * i) in
      if b <? 128 then Ok (v, i + 1)
      else '(w, llen) <- decode_varint_from l' (i + 1) ;; Ok (v + w, llen)
  end.

(** Modelled from the spec: [decode_varint (buf + p, &llen)] of the
    engine's shared helpers, the inverse of [encode_varint]: the value and
    the number of bytes it took. *)
Definition decode_varint (a : mbuf) (p : Z) : result (Z * Z) :=
  if p <? 0 then Fault else decode_varint_from (skipn (Z.to_nat p) a) 0.

(** Modelled from the spec: [embed_string (&a->mbuf, off, s, len, 0, 1)]
    of the engine's shared helpers: a varint-prefixed raw byte payload
    inserted at [off]. *)
Definition embed_string (a : mbuf) (off : Z) (s : list Z) : result mbuf :=
  mbuf_insert a off (encode_varint (Z.of_nat (List.length s)) ++ s).

(** ** The writer *)

Definition ast_add_node (a : mbuf) (tag : Z) : result (mbuf * Z) :=
  let start := mbuf_len a in
  let t := tag mod 256 in
  _ <- assert (tag <? AST_MAX_TAG) ;;
  d <- ast_def tag ;;
  let a := mbuf_append a [t] in
  let a := mbuf_append a (zeros (2 * num_skips d)) in
  Ok (a, start + 1).

Definition ast_modify_skip (a : mbuf) (start where_ skip : Z)
  : result (mbuf * Z) :=
  let p := start + skip * 2 in
  let delta := (where_ - start) mod 65536 in
  tag <- byte_at a (start - 1) ;;
  def <- ast_def tag ;;
  _ <- assert (skip <? num_skips def) ;;
  a <- store a p (Z.shiftr delta 8) ;;
  a <- store a (p + 1) (Z.land delta 255) ;;
  Ok (a, where_).

Definition ast_set_skip (a : mbuf) (start skip : Z) : result (mbuf * Z) :=
  ast_modify_skip a start (mbuf_len a) skip.

Definition ast_insert_node (a : mbuf) (start tag : Z) : result (mbuf * Z) :=
  let t := tag mod 256 in
  _ <- assert (tag <? AST_MAX_TAG) ;;
  d <- ast_def tag ;;
  a <- mbuf_insert a start (zeros (2 * num_skips d)) ;;
  a <- mbuf_insert a start [t] ;;
  a <- (if negb (num_skips d =? 0)
        then '(a, _) <- ast_set_skip a (start + 1) AST_END_SKIP ;; Ok a
        else Ok a) ;;
  Ok (a, start + 1).

Definition ast_add_inlined_node (a : mbuf) (tag : Z) (name : list Z)
  : result mbuf :=
  d <- ast_def tag ;;
  _ <- assert (has_inlined d) ;;
  '(a, p) <- ast_add_node a tag ;;
  embed_string a p name.

Definition ast_insert_inlined_node (a : mbuf) (start tag : Z) (name : list Z)
  : result mbuf :=
  d <- ast_def tag ;;
  _ <- assert (has_inlined d) ;;
  '(a, p) <- ast_insert_node a start tag ;;
  embed_string a p name.

(** ** The reader *)

Definition ast_get_skip (a : mbuf) (pos skip : Z) : result Z :=
  _ <- assert (pos + skip * 2 <? mbuf_len a) ;;
  p0 <- byte_at a (pos + skip * 2) ;;
  p1 <- byte_at a (pos + skip * 2 + 1) ;;
  Ok (pos + Z.lor p1 (Z.shiftl p0 8)).

(** The tag, and the cursor moved past it *)
Definition ast_fetch_tag (a : mbuf) (pos : Z) : result (Z * Z) :=
  _ <- assert (pos <? mbuf_len a) ;;
  t <- byte_at a pos ;;
  Ok (t, pos + 1).

(** Offsets are [ast_off_t], whose definition is not among these sources.
    The integers of this development are exact as long as the cursor
    stays in the range of that type, as every cursor inside the buffer
    does; a malformed varint that sends the cursor past that range is
    outside what is stated of the walk. *)
Definition ast_move_to_children (a : mbuf) (pos : Z) : result Z :=
  tag <- byte_at a (pos - 1) ;;
  def <- ast_def tag ;;
  _ <- assert (pos - 1 <? mbuf_len a) ;;
  pos <- (if has_varint def
          then '(slen, llen) <- decode_varint a pos ;;
               let pos := pos + llen in
               Ok (if has_inlined def then pos + slen else pos)
          else Ok pos) ;;
  Ok (pos + num_skips def * 2).

(** [for (i = 0; i < n; i++) step (&pos);] *)
Fixpoint repeat_step (n : nat) (step : Z -> result Z) (pos : Z) : result Z :=
  match n with
  | O => Ok pos
  | S n' => pos <- step pos ;; repeat_step n' step pos
  end.

(** [while (pos < end) step (&pos);] *)
Fixpoint step_until (fuel : nat) (step : Z -> result Z) (end_ pos : Z)
  : result Z :=
  if pos <? end_ then
    match fuel with
    | O => OutOfFuel
    | S f => pos <- step pos ;; step_until f step end_ pos
    end
  else Ok pos.

Fixpoint ast_skip_tree (fuel : nat) (a : mbuf) (pos : Z) : result Z :=
  match fuel with
  | O => OutOfFuel
  | S f =>
      '(tag, pos) <- ast_fetch_tag a pos ;;
      def <- ast_def tag ;;
      let skips := pos in
      pos <- ast_move_to_children a pos ;;
      pos <- repeat_step (Z.to_nat (num_subtrees def)) (ast_skip_tree f a) pos ;;
      if negb (num_skips def =? 0) then
        end_ <- ast_get_skip a skips AST_END_SKIP ;;
        step_until f (ast_skip_tree f a) end_ pos
      else Ok pos
  end.

(** ** Trees, as the writer's callers build them

    A node is emitted in one of two ways.  With no [pre] children the tag
    is appended first ([ast_add_node], or [ast_add_inlined_node] for a tag
    with an inline payload) and the children follow.  With [pre] children,
    these are emitted first and the tag is then inserted in front of them
    ([ast_insert_node], [ast_insert_inlined_node]), which is how a parser
    wraps an operand it has already emitted; the [post] children follow.
    In both cases a node whose tag has skips is closed by
    [ast_set_skip (start, AST_END_SKIP)]. *)

#[local] Set Warnings "-register-all".

Inductive tree : Type :=
| Node (tag : Z) (data : list Z) (pre post : list tree).

Fixpoint build (t : tree) (a : mbuf) : result mbuf :=
  match t with
  | Node tag data pre post =>
      let build_all :=
        fix build_all (ks : list tree) (a : mbuf) : result mbuf :=
          match ks with
          | [] => Ok a
          | k :: ks' => a <- build k a ;; build_all ks' a
          end in
      d <- ast_def tag ;;
      let at_ := mbuf_len a in
      a <- build_all pre a ;;
      '(a, start) <-
        match pre with
        | [] =>
            if has_inlined d
            then a <- ast_add_inlined_node a tag data ;; Ok (a, at_ + 1)
            else ast_add_node a tag
        | _ :: _ =>
            if has_inlined d
            then a <- ast_insert_inlined_node a at_ tag data ;; Ok (a, at_ + 1)
            else ast_insert_node a at_ tag
        end ;;
      a <- build_all post a ;;
      if negb (num_skips d =? 0)
      then '(a, _) <- ast_set_skip a start AST_END_SKIP ;; Ok a
      else Ok a
  end.

Fixpoint build_all (ks : list tree) (a : mbuf) : result mbuf :=
  match ks with
  | [] => Ok a
  | k :: ks' => a <- build k a ;; build_all ks' a
  end.

(** The bytes of a node: the pure description of the packed layout that
    [build] is shown to produce.  The payload stands right after the tag,
    where [embed_string] puts it. *)

Definition be16 (v : Z) : list Z := [Z.shiftr v 8; Z.land v 255].

Definition payload (d : ast_node_def) (data : list Z) : list Z :=
  if has_inlined d
  then encode_varint (Z.of_nat (List.length data)) ++ data
  else [].

Definition skip_slots (d : ast_node_def) (end_delta : Z) : list Z :=
  if num_skips d =? 0 then []
  else be16 end_delta ++ zeros (2 * (num_skips d - 1)).

Fixpoint encode (t : tree) : list Z :=
  match t with
  | Node tag data pre post =>
      match ast_def tag with
      | Ok d =>
          let kids := flat_map encode pre ++ flat_map encode post in
          let pl := payload d data in
          let delta := mbuf_len pl + 2 * num_skips d + mbuf_len kids in
          tag :: pl ++ skip_slots d delta ++ kids
      | _ => []
      end
  end.

Fixpoint tree_size (t : tree) : nat :=
  match t with
  | Node _ _ pre post =>
      S (list_sum (map tree_size pre) + list_sum (map tree_size post))
  end.

(** Well-formed trees: the tag is in the table, only a tag with an inline
    payload carries one, the node has its fixed children, only a node with
    skips has more children than those, and the body of a node with skips
    fits the 16 bits of a skip. *)
Fixpoint wf_tree (t : tree) : bool :=
  match t with
  | Node tag data pre post =>
      match ast_def tag with
      | Ok d =>
          let n := Z.of_nat (List.length pre + List.length post) in
          (has_inlined d || (mbuf_len data =? 0))
          && (num_subtrees d <=? n)
          && (negb (num_skips d =? 0) || (n =? num_subtrees d))
          && ((num_skips d =? 0) || (mbuf_len (encode t) <=? 65536))
          && forallb wf_tree pre && forallb wf_tree post
      | _ => false
      end
  end.

(** * The date module *)

(** ** Instants *)

(** An instant is a whole number of milliseconds, or NaN.  The instants
    the constructor makes from fields, the setters and the parser make are
    whole, and the [double] arithmetic of the module is exact on them up
    to 2^53; the clock of [d_gettime] gives instants with a fraction of a
    millisecond, which are not instants of this development. *)
Definition etime : Type := option Z.

Definition INVALID_TIME : etime := None.

(** [isnan] *)
Definition d_istimeinvalid (t : etime) : bool :=
  match t with
  | None => true
  | Some _ => false
  end.

(** [a != b] on doubles: a comparison with NaN is unordered, so [!=] holds
    whenever one side is NaN, also when both are. *)
Definition double_ne (a b : etime) : bool :=
  match a, b with
  | Some x, Some y => negb (x =? y)
  | _, _ => true
  end.

(** [a == b] on doubles *)
Definition double_eq (a b : etime) : bool := negb (double_ne a b).

(** ** ECMA date and time helpers *)

Definition msPerDay : Z := 86400000.
Definition HoursPerDay : Z := 24.
Definition MinutesPerHour : Z := 60.
Definition SecondsPerMinute : Z := 60.
Definition msPerSecond : Z := 1000.
Definition msPerMinute : Z := 60000.
Definition msPerHour : Z := 3600000.
Definition MonthInYear : Z := 12.

Definition ecma_Day (t : Z) : Z := t / msPerDay.

Definition ecma_DaysInYear (y : Z) : Z :=
  if negb (Z.rem y 4 =? 0) then 365
  else if (Z.rem y 4 =? 0) && negb (Z.rem y 100 =? 0) then 366
  else if (Z.rem y 100 =? 0) && negb (Z.rem y 400 =? 0) then 365
  else if Z.rem y 400 =? 0 then 366
  else 365.

(** The operands of the three divisions are 64-bit integers, so [/] has
    truncated towards zero before [floor] sees the quotient. *)
Definition ecma_DayFromYear (y : Z) : Z :=
  365 * (y - 1970) + Z.quot (y - 1969) 4 - Z.quot (y - 1901) 100
  + Z.quot (y - 1601) 400.

Definition ecma_TimeFromYear (y : Z) : Z := msPerDay * ecma_DayFromYear y.

(** The [while (last > first)] loop of [ecma_YearFromTime_s] *)
Fixpoint year_search (fuel : nat) (t first last : Z) : result Z :=
  if last >? first then
    match fuel with
    | O => OutOfFuel
    | S f =>
        let middle := Z.quot (last + first) 2 in
        if ecma_TimeFromYear middle >? t then year_search f t first (middle - 1)
        else if ecma_TimeFromYear middle <=? t then
          if ecma_TimeFromYear (middle + 1) >? t then Ok middle
          else year_search f t (middle + 1) last
        else year_search f t first last
    end
  else Ok first.

(** [floor ((t / msPerDay) / 366)] divides twice in the reals and floors
    once.  The interval shrinks at every turn of the loop, so its width is
    fuel enough. *)
Definition ecma_YearFromTime_s (t : Z) : result Z :=
  let first := t / (msPerDay * 366) + 1970 in
  let last := t / (msPerDay * 365) + 1970 in
  let '(first, last) := if last <? first then (last, first) else (first, last) in
  year_search (S (Z.to_nat (last - first))) t first last.

Definition ecma_InLeapYear (t : Z) (year : Z) : bool :=
  ecma_DaysInYear year =? 366.

Definition ecma_DayWithinYear (t : Z) (year : Z) : Z :=
  ecma_Day t - ecma_DayFromYear year.

Definition sdays : list Z :=
  [0; 31; 59; 90; 120; 151; 181; 212; 243; 273; 304; 334; 365].

Definition ecma_getfirstdays (isleap : bool) : list Z :=
  if isleap then firstn 2 sdays ++ map (fun d => d + 1) (skipn 2 sdays)
  else sdays.

(** [days[i]], read *)
Definition days_at (days : list Z) (i : Z) : result Z :=
  if i <? 0 then Fault
  else match nth_error days (Z.to_nat i) with
       | Some d => Ok d
       | None => Fault
       end.

(** The [for] loop of [ecma_MonthFromTime]: [n] months left from [i] *)
Fixpoint month_scan (n : nat) (i : Z) (days : list Z) (dwy : Z) : Z :=
  match n with
  | O => -1
  | S n' =>
      if (dwy >=? nth (Z.to_nat i) days 0)
         && (dwy <? nth (Z.to_nat (i + 1)) days 0)
      then i
      else month_scan n' (i + 1) days dwy
  end.

Definition ecma_MonthFromTime (t : Z) (year : Z) : Z :=
  let dwy := ecma_DayWithinYear t year in
  let ily := ecma_InLeapYear t year in
  month_scan 12 0 (ecma_getfirstdays ily) dwy.

Definition ecma_DateFromTime (t : Z) (year : Z) : result Z :=
  let mft := ecma_MonthFromTime t year in
  let dwy := ecma_DayWithinYear t year in
  let ily := ecma_InLeapYear t year in
  if mft >? 11 then Ok (-1)
  else d <- days_at (ecma_getfirstdays ily) mft ;; Ok (dwy - d + 1).

Definition ecma_WeekDay (t : Z) : Z := Z.rem (ecma_Day t + 4) 7.

Definition ecma_HourFromTime (t : Z) : Z := Z.rem (t / msPerHour) HoursPerDay.

Definition ecma_MinFromTime (t : Z) : Z :=
  Z.rem (t / msPerMinute) MinutesPerHour.

Definition ecma_SecFromTime (t : Z) : Z :=
  Z.rem (t / msPerSecond) SecondsPerMinute.

Definition ecma_msFromTime (t : Z) : Z := Z.rem t msPerSecond.

Definition ecma_MakeTime (hour min sec ms : Z) : Z :=
  ((hour * MinutesPerHour + min) * SecondsPerMinute + sec) * msPerSecond + ms.

Definition ecma_MakeDay (year month date : Z) : result Z :=
  let year := year + Z.quot month 12 in
  let month := Z.rem month 12 in
  let yday := Z.quot (ecma_TimeFromYear year) msPerDay in
  let days := ecma_getfirstdays (ecma_DaysInYear year =? 366) in
  mday <- days_at days month ;;
  Ok (yday + mday + date - 1).

Definition ecma_MakeDate (day time : Z) : Z := day * msPerDay + time.

(** ** The host: the C library's time zone, locale and date parser *)

Record timeparts : Type := mk_timeparts {
  year : Z;
  month : Z;
  day : Z;
  hour : Z;
  min : Z;
  sec : Z;
  msec : Z;
  dayofweek : Z
}.

Record host : Type := {
  (** [timezone], seconds west of UTC *)
  timezone : Z;
  (** [localtime_r (&time, &tm); tm.tm_isdst > 0] *)
  tm_isdst : Z -> bool;
  (** the LC_TIME locale that the name [""] selects *)
  env_locale : string;
  (** the names [setlocale] accepts *)
  locale_known : string -> bool;
  (** [strftime] under a given LC_TIME locale *)
  strftime : string -> string -> Z -> string;
  (** strategies 2 to 4 of [d_parsedatestr], which go through the host's
      [getdate] and further [sscanf] formats; they get the string and the
      fields strategy 1 has left, and return the result, the fields and
      the time zone *)
  later_strategies : list ascii -> timeparts -> bool * timeparts * Z
}.

Definition ecma_DaylightSavingTA (h : host) (t : Z) : Z :=
  if tm_isdst h (Z.quot t 1000) then msPerHour else 0.

Definition ecma_LocalTZA (h : host) : Z := - timezone h * 1000.

Definition ecma_LocalTime (h : host) (t : Z) : Z :=
  t + ecma_LocalTZA h + ecma_DaylightSavingTA h t.

Definition ecma_UTC (h : host) (t : Z) : Z :=
  t - ecma_LocalTZA h - ecma_DaylightSavingTA h (t - ecma_LocalTZA h).

Definition d_gettimezone (h : host) : Z := Z.quot (timezone h) 60.

(** ** Broken-down time *)

Definition d_mktime_impl (tp : timeparts) : result Z :=
  d <- ecma_MakeDay (year tp) (month tp) (day tp) ;;
  Ok (ecma_MakeDate d (ecma_MakeTime (hour tp) (min tp) (sec tp) (msec tp))).

Definition d_lmktime (h : host) (tp : timeparts) : result Z :=
  t <- d_mktime_impl tp ;; Ok (ecma_UTC h t).

Definition d_gmktime (tp : timeparts) : result Z := d_mktime_impl tp.

Definition d_gmtime (t : Z) : result timeparts :=
  y <- ecma_YearFromTime_s t ;;
  let m := ecma_MonthFromTime t y in
  d <- ecma_DateFromTime t y ;;
  Ok {| year := y; month := m; day := d;
        hour := ecma_HourFromTime t; min := ecma_MinFromTime t;
        sec := ecma_SecFromTime t; msec := ecma_msFromTime t;
        dayofweek := ecma_WeekDay t |}.

Definition d_localtime (h : host) (t : Z) : result timeparts :=
  d_gmtime (ecma_LocalTime h t).

(** ** [printf] and [sscanf] of integers

    A C string is the list of its characters. *)

Definition digit_char (d : Z) : ascii := ascii_of_nat (48 + Z.to_nat d).

Fixpoint dec_digits (fuel : nat) (n : Z) (acc : list ascii) : list ascii :=
  match fuel with
  | O => acc
  | S f =>
      let acc := digit_char (n mod 10) :: acc in
      if n <? 10 then acc else dec_digits f (n / 10) acc
  end.

(** The decimal digits of [n >= 0] *)
Definition decimal (n : Z) : list ascii :=
  dec_digits (S (Z.to_nat (Z.log2 n))) n [].

Definition zero_pad (w : nat) (ds : list ascii) : list ascii :=
  repeat "0"%char (w - List.length ds) ++ ds.

(** [%0wd]: the sign of a negative number takes one column of the width. *)
Definition printf_0d (w : nat) (n : Z) : list ascii :=
  if n <? 0 then "-"%char :: zero_pad (w - 1) (decimal (- n))
  else zero_pad w (decimal n).

Definition isspace (c : ascii) : bool :=
  let n := nat_of_ascii c in
  (n =? 32)%nat || ((9 <=? n)%nat && (n <=? 13)%nat).

Definition isdigit (c : ascii) : bool :=
  let n := nat_of_ascii c in
  (48 <=? n)%nat && (n <=? 57)%nat.

Fixpoint skip_space (s : list ascii) : list ascii :=
  match s with
  | c :: s' => if isspace c then skip_space s' else s
  | [] => []
  end.

(** A field width is [None] when the directive gives none. *)
Definition width_left (w : option nat) : bool :=
  match w with
  | Some O => false
  | _ => true
  end.

Definition width_pred (w : option nat) : option nat := option_map pred w.

Fixpoint take_digits (w : option nat) (s : list ascii)
  : list ascii * list ascii :=
  match s with
  | c :: s' =>
      if width_left w && isdigit c
      then let '(ds, rest) := take_digits (width_pred w) s' in (c :: ds, rest)
      else ([], s)
  | [] => ([], [])
  end.

Definition digits_value (ds : list ascii) : Z :=
  fold_left (fun v c => 10 * v + (Z.of_nat (nat_of_ascii c) - 48)) ds 0.

(** [%d] and [%wd]: white space, an optional sign, digits, all within the
    width. *)
Definition scan_int (w : option nat) (s : list ascii)
  : option (Z * list ascii) :=
  let s := skip_space s in
  if width_left w then
    let '(neg, w, s) :=
      match s with
      | c :: s' =>
          if Ascii.eqb c "-" then (true, width_pred w, s')
          else if Ascii.eqb c "+" then (false, width_pred w, s')
          else (false, w, s)
      | [] => (false, w, s)
      end in
    let '(ds, rest) := take_digits w s in
    match ds with
    | [] => None
    | _ :: _ => Some (if neg then - digits_value ds else digits_value ds, rest)
    end
  else None.

Inductive directive : Type :=
| Dspace
| Dlit (c : ascii)
| Dint (width : option nat).

(** [sscanf (s, fmt, ...)] for formats of integers: the values assigned,
    in order, up to the first directive that fails.  The count [sscanf]
    returns is their number (or EOF, which the callers below take like
    zero). *)
Fixpoint sscanf (fmt : list directive) (s : list ascii) : list Z :=
  match fmt with
  | [] => []
  | Dspace :: fmt' => sscanf fmt' (skip_space s)
  | Dlit c :: fmt' =>
      match s with
      | c' :: s' => if Ascii.eqb c c' then sscanf fmt' s' else []
      | [] => []
      end
  | Dint w :: fmt' =>
      match scan_int w s with
      | Some (v, s') => v :: sscanf fmt' s'
      | None => []
      end
  end.

(** ** From and to strings *)

Definition abs (n : Z) : Z := Z.abs n.

(** The fields after the year, for ["-%02d-%02dT%02d:%02d:%02d.%03dZ"] *)
Definition iso_tail (tp : timeparts) : list ascii :=
  "-"%char :: printf_0d 2 (month tp + 1) ++
  "-"%char :: printf_0d 2 (day tp) ++
  "T"%char :: printf_0d 2 (hour tp) ++
  ":"%char :: printf_0d 2 (min tp) ++
  ":"%char :: printf_0d 2 (sec tp) ++
  "."%char :: printf_0d 3 (msec tp) ++ ["Z"%char].

(** The characters left in [buf] and the length returned.  [snprintf]
    writes at most [buf_size - use_ext - 1] characters and returns the
    length of the whole text. *)
Definition d_timetoISOstr (t : Z) (buf_size : Z) : result (list ascii * Z) :=
  tp <- d_gmtime t ;;
  let use_ext := (abs (year tp) >? 9999) || (year tp <? 0) in
  let sign := if year tp >? 0 then "+"%char else "-"%char in
  let ext := if use_ext then 1 else 0 in
  let text := printf_0d (if use_ext then 6 else 4) (year tp) ++ iso_tail tp in
  let written := firstn (Z.to_nat (buf_size - ext - 1)) text in
  Ok ((if use_ext then [sign] else []) ++ written,
      Z.of_nat (List.length text) + ext).

(** [Date_toISOString] on a valid date object: [buf] has 30 bytes *)
Definition Date_toISOString (t : Z) : result (list ascii) :=
  '(buf, len) <- d_timetoISOstr t 30 ;;
  if len <=? Z.of_nat (List.length buf) then Ok (firstn (Z.to_nat len) buf)
  else Fault.

Definition NO_TZ : Z := 0x7FFFFFFF.

(** [" %d-%02d-%02dT%02d:%02d:%02d.%03dZ"] *)
Definition frmISOString : list directive :=
  [Dspace; Dint None; Dlit "-"; Dint (Some 2%nat); Dlit "-";
   Dint (Some 2%nat); Dlit "T"; Dint (Some 2%nat); Dlit ":";
   Dint (Some 2%nat); Dlit ":"; Dint (Some 2%nat); Dlit ".";
   Dint (Some 3%nat); Dlit "Z"].

Definition tp_zero : timeparts :=
  {| year := 0; month := 0; day := 0; hour := 0; min := 0; sec := 0;
     msec := 0; dayofweek := 0 |}.

(** [*tp_arr[i] = v], for the seven fields in the order of [tp_arr] and
    of the arguments of the ISO [sscanf] *)
Definition set_part (tp : timeparts) (i : nat) (v : Z) : timeparts :=
  match i with
  | 0%nat => mk_timeparts v (month tp) (day tp) (hour tp) (min tp) (sec tp) (msec tp) (dayofweek tp)
  | 1%nat => mk_timeparts (year tp) v (day tp) (hour tp) (min tp) (sec tp) (msec tp) (dayofweek tp)
  | 2%nat => mk_timeparts (year tp) (month tp) v (hour tp) (min tp) (sec tp) (msec tp) (dayofweek tp)
  | 3%nat => mk_timeparts (year tp) (month tp) (day tp) v (min tp) (sec tp) (msec tp) (dayofweek tp)
  | 4%nat => mk_timeparts (year tp) (month tp) (day tp) (hour tp) v (sec tp) (msec tp) (dayofweek tp)
  | 5%nat => mk_timeparts (year tp) (month tp) (day tp) (hour tp) (min tp) v (msec tp) (dayofweek tp)
  | 6%nat => mk_timeparts (year tp) (month tp) (day tp) (hour tp) (min tp) (sec tp) v (dayofweek tp)
  | _ => tp
  end.

Fixpoint assign_parts (i : nat) (vs : list Z) (tp : timeparts) : timeparts :=
  match vs with
  | [] => tp
  | v :: vs' => assign_parts (S i) vs' (set_part tp i v)
  end.

(** The result, the fields and the time zone *)
Definition d_parsedatestr (h : host) (str : list ascii)
  : bool * timeparts * Z :=
  let vs := sscanf frmISOString str in
  let tp := assign_parts 0 vs tp_zero in
  if (List.length vs =? 7)%nat then (true, tp, 0)
  else later_strategies h str tp.

(** The instant left in [*time] and the value returned *)
Definition d_timeFromString (h : host) (str : list ascii) (buf_size : Z)
  : result (etime * bool) :=
  let time := INVALID_TIME in
  if buf_size >? 100 then Ok (time, false)
  else
    time <-
      (let '(ok, tp, tz) := d_parsedatestr h str in
       if ok then
         let tp := set_part tp 1 (month tp - 1) in
         let valid := (day tp >=? 1) && (day tp <=? 31) in
         let valid := valid && ((month tp >=? 0) && (month tp <=? 11)) in
         let valid := valid && ((hour tp >=? 0) && (hour tp <=? 23)) in
         let valid := valid && ((min tp >=? 0) && (min tp <=? 59)) in
         let valid := valid && ((sec tp >=? 0) && (sec tp <=? 59)) in
         let tz := if negb (tz =? NO_TZ) && (tz >? 12) then Z.quot tz 100
                   else tz in
         let valid := valid && ((abs tz <=? 12) || (tz =? NO_TZ)) in
         if valid then
           time <- d_gmktime tp ;;
           let tz := if tz =? NO_TZ then - d_gettimezone h * msPerMinute
                     else tz * msPerHour in
           Ok (Some (time - tz))
         else Ok time
       else Ok time) ;;
    Ok (time, double_ne time INVALID_TIME).

(** ** The constructor with two or more arguments *)

Definition tpyear : Z := 0.
Definition tpmonth : Z := 1.
Definition tpdate : Z := 2.

(** [a.args[i]], read and written; the array has seven elements *)
Definition arg_at (a : list etime) (i : Z) : etime :=
  nth (Z.to_nat i) a INVALID_TIME.

Definition arg_store (a : list etime) (i : Z) (v : etime)
  : result (list etime) :=
  if (0 <=? i) && (i <? 7)
  then Ok (firstn (Z.to_nat i) a ++ v :: skipn (Z.to_nat (i + 1)) a)
  else Fault.

(** The loop over [tp_arr]: a field is written unless
    [d_istimeinvalid] holds of its argument, which is the [None] case. *)
Fixpoint change_parts (i : nat) (args : list etime) (tp : timeparts)
  : timeparts :=
  match args with
  | [] => tp
  | v :: args' =>
      change_parts (S i) args'
        (match v with
         | Some x => set_part tp i x
         | None => tp
         end)
  end.

(** [d_changepartoftime (current, a, breaktimefunc, maketimefunc)];
    [breaktimefunc] is [None] for a null pointer. *)
Definition d_changepartoftime (current : Z) (a : list etime)
    (breaktimefunc : option (Z -> result timeparts))
    (maketimefunc : timeparts -> result Z) : result Z :=
  tp <- match breaktimefunc with
        | Some f => f current
        | None => Ok tp_zero
        end ;;
  maketimefunc (change_parts 0 a tp).

(** The loop over the arguments.  [vals] holds what [d_argtoint] leaves in
    [*ret] for each argument, and [d_argtoint] returns
    [*ret != INVALID_TIME].  The result is the array and whether the loop
    ran to its end. *)
Fixpoint ctor_args (vals : list etime) (i : Z) (a : list etime)
  : result (list etime * bool) :=
  match vals with
  | [] => Ok (a, true)
  | v :: vals' =>
      a <- arg_store a i v ;;
      if negb (double_ne v INVALID_TIME) then Ok (a, false)
      else ctor_args vals' (i + 1) a
  end.

(** The instant [Date_ctor] stores when it is called as a constructor
    with the two or more arguments [vals] *)
Definition Date_ctor_parts (h : host) (vals : list etime) : result etime :=
  let a := repeat (Some 0) 7 in
  '(a, complete) <- ctor_args vals 0 a ;;
  if complete then
    a <- (if double_eq (arg_at a tpdate) (Some 0)
          then arg_store a tpdate (Some 1) else Ok a) ;;
    a <- (match arg_at a tpyear with
          | Some y => if (y >=? 0) && (y <=? 99)
                      then arg_store a tpyear (Some (y + 1900)) else Ok a
          | None => Ok a
          end) ;;
    t <- d_changepartoftime 0 a None d_gmktime ;;
    Ok (Some (ecma_UTC h t))
  else Ok (Some 0).

(** ** Locale-sensitive formatting *)







(** What every entry of the table satisfies *)
Definition def_ok (d : ast_node_def) : bool :=
  Bool.eqb (has_varint d) (has_inlined d)
  && (negb (has_inlined d) || (num_skips d =? 0))
  && (0 <=? num_skips d) && (num_skips d <=? 3)
  && (0 <=? num_subtrees d) && (num_subtrees d <=? 3).

(** What the walk does on one well-formed tree, wherever it stands *)
Definition walks (k : tree) : Prop :=
  wf_tree k = true ->
  forall (x y : mbuf) (fuel : nat),
    (tree_size k <= fuel)%nat ->
    ast_skip_tree fuel (x ++ encode k ++ y) (mbuf_len x)
    = Ok (mbuf_len x + mbuf_len (encode k)).

(** ** What the specification says, for comparison with the code *)

(** [DayFromYear] in the words of the specification: [floor] is the
    mathematical floor of the quotient. *)
Definition DayFromYear_spec (y : Z) : Z :=
  365 * (y - 1970) + (y - 1969) / 4 - (y - 1901) / 100 + (y - 1601) / 400.

(** The constructor with two or more valid arguments in the words of the
    specification: [(year, month, [day = 1], [hour], [min], [sec], [ms])],
    a year from 0 to 99 lifted by 1900, and the UTC conversion of
    [MakeDate (MakeDay (...), MakeTime (...))]. *)
Definition Date_ctor_spec (h : host) (vals : list Z) : result etime :=
  let y := nth 0 vals 0 in
  let y := if (0 <=? y) && (y <=? 99) then 1900 + y else y in
  d <- ecma_MakeDay y (nth 1 vals 0) (nth 2 vals 1) ;;
  Ok (Some (ecma_UTC h
              (ecma_MakeDate d
                 (ecma_MakeTime (nth 3 vals 0) (nth 4 vals 0)
                    (nth 5 vals 0) (nth 6 vals 0))))).


(** A host in the UTC zone whose environment selects [en_US.UTF-8] *)
Definition utc_host : host :=
  {| timezone := 0;
     tm_isdst := fun _ => false;
     env_locale := "en_US.UTF-8";
     locale_known := fun s => String.eqb s "C" || String.eqb s "en_US.UTF-8";
     strftime := fun _ _ _ => ""%string;
     later_strategies := fun _ tp => (false, tp, NO_TZ) |}.

(** Lists of digit characters *)
Definition all_digits (ds : list ascii) : Prop :=
  Forall (fun c => isdigit c = true) ds.

(** What may follow a number scanned without a width *)
Definition stops_digits (rest : list ascii) : Prop :=
  match rest with
  | [] => True
  | c :: _ => isdigit c = false
  end.

(** [ast_move_to_children] in the order of the declared layout of a node,
    for comparison with the code: the skip slots first, then the varint
    and the inline payload. *)
Definition move_to_children_layout (a : mbuf) (pos : Z) : result Z :=
  tag <- byte_at a (pos - 1) ;;
  def <- ast_def tag ;;
  _ <- assert (pos - 1 <? mbuf_len a) ;;
  let pos := pos + num_skips def * 2 in
  if has_varint def
  then '(slen, llen) <- decode_varint a pos ;;
       let pos := pos + llen in
       Ok (if has_inlined def then pos + slen else pos)
  else Ok pos.

(** * Further functions of the two files *)

(** ** Inline data and the dump of a tree *)

(** [ast_get_inlined_data]: the offset of the data (the pointer returned)
    and its length [*n] *)
Definition ast_get_inlined_data (a : mbuf) (pos : Z) : result (Z * Z) :=
  _ <- assert (pos <? mbuf_len a) ;;
  '(n, llen) <- decode_varint a pos ;;
  Ok (pos + llen, n).

(** The [n] bytes of the buffer from offset [p] *)
Definition bytes_at (a : mbuf) (p n : Z) : list Z :=
  firstn (Z.to_nat n) (skipn (Z.to_nat p) a).

(** What [ast_dump_tree] prints, a line at a time: a node with its name
    and inline text, the comment [...] before the trailing children, and
    the comment [s ->] where skip [s] points. *)
Inductive dump_line : Type :=
| Lnode (depth : Z) (name : string) (text : option (list Z))
| Ldots (depth : Z)
| Lskip (depth : Z) (s : Z).

(** [%.*s] with precision [n] from offset [p]: bytes are read and printed
    up to a NUL or up to [n] of them, whichever comes first; a byte read
    past the end of the buffer is a fault. *)
Fixpoint read_str (n : nat) (a : mbuf) (p : Z) : result (list Z) :=
  match n with
  | O => Ok []
  | S n' =>
      b <- byte_at a p ;;
      if b =? 0 then Ok []
      else r <- read_str n' a (p + 1) ;; Ok (b :: r)
  end.

(** [fprintf (fp, " %.*s\n", (int) slen, buf + p)]: the length is cast to
    [int], of 32 bits, and a negative precision is taken as if it were
    left out, so that the string is read to its NUL. *)
Definition print_str (a : mbuf) (p slen : Z) : result (list Z) :=
  let prec := (slen + 2147483648) mod 4294967296 - 2147483648 in
  if prec <? 0 then read_str (S (List.length a)) a p
  else read_str (Z.to_nat prec) a p.

(** [for (s = num_skips - 1; s > 0; s--)] of [ast_dump_tree], from
    [s = n] *)
Fixpoint dump_mark (n : nat) (a : mbuf) (skips pos depth : Z)
  : result (list dump_line) :=
  match n with
  | O => Ok []
  | S n' =>
      let s := Z.of_nat n in
      t <- ast_get_skip a skips s ;;
      if pos =? t then Ok [Lskip depth s]
      else dump_mark n' a skips pos depth
  end.

Fixpoint repeat_dump (n : nat) (step : Z -> result (list dump_line * Z))
    (pos : Z) : result (list dump_line * Z) :=
  match n with
  | O => Ok ([], pos)
  | S n' =>
      '(o1, pos) <- step pos ;;
      '(o2, pos) <- repeat_dump n' step pos ;;
      Ok (o1 ++ o2, pos)
  end.

Fixpoint dump_until (fuel : nat) (mark : Z -> result (list dump_line))
    (step : Z -> result (list dump_line * Z)) (end_ pos : Z)
  : result (list dump_line * Z) :=
  if pos <? end_ then
    match fuel with
    | O => OutOfFuel
    | S f =>
        m <- mark pos ;;
        '(o1, pos) <- step pos ;;
        '(o2, pos) <- dump_until f mark step end_ pos ;;
        Ok (m ++ o1 ++ o2, pos)
    end
  else Ok ([], pos).

(** The lines printed and the cursor left *)
Fixpoint ast_dump_tree (fuel : nat) (a : mbuf) (pos depth : Z)
  : result (list dump_line * Z) :=
  match fuel with
  | O => OutOfFuel
  | S f =>
      '(tag, pos) <- ast_fetch_tag a pos ;;
      def <- ast_def tag ;;
      let skips := pos in
      text <- (if has_inlined def
               then '(slen, llen) <- decode_varint a pos ;;
                    t <- print_str a (pos + llen) slen ;;
                    Ok (Some t)
               else Ok None) ;;
      pos <- ast_move_to_children a pos ;;
      '(o1, pos) <- repeat_dump (Z.to_nat (num_subtrees def))
                      (fun p => ast_dump_tree f a p (depth + 1)) pos ;;
      '(o2, pos) <-
        (if negb (num_skips def =? 0) then
           end_ <- ast_get_skip a skips AST_END_SKIP ;;
           '(o, pos) <- dump_until f
                          (fun p => dump_mark (Z.to_nat (num_skips def - 1))
                                      a skips p (depth + 1))
                          (fun p => ast_dump_tree f a p (depth + 1))
                          end_ pos ;;
           Ok (Ldots (depth + 1) :: o, pos)
         else Ok ([], pos)) ;;
      Ok (Lnode depth (name def) text :: o1 ++ o2, pos)
  end.

(** ** Names of days and months *)

Definition wday_name : list (list ascii) :=
  map list_ascii_of_string ["Sun"; "Mon"; "Tue"; "Wed"; "Thu"; "Fri"; "Sat"]%string.

Definition mon_name : list (list ascii) :=
  map list_ascii_of_string
    ["Jan"; "Feb"; "Mar"; "Apr"; "May"; "Jun";
     "Jul"; "Aug"; "Sep"; "Oct"; "Nov"; "Dec"]%string.

(** [strncmp (s1, s2, n) == 0] on strings without a NUL of their own *)
Fixpoint strncmp_eq (n : nat) (s1 s2 : list ascii) : bool :=
  match n with
  | O => true
  | S n' =>
      match s1, s2 with
      | [], [] => true
      | c1 :: r1, c2 :: r2 => Ascii.eqb c1 c2 && strncmp_eq n' r1 r2
      | _, _ => false
      end
  end.

(** The loop of [d_getnumbyname], [n] names left from index [i] *)
Fixpoint getnum_loop (n : nat) (arr : list (list ascii)) (i : Z)
    (str : list ascii) : result Z :=
  match n with
  | O => Ok (-1)
  | S n' =>
      match nth_error arr (Z.to_nat i) with
      | None => Fault
      | Some nm =>
          if strncmp_eq 3 nm str then Ok (i + 1)
          else getnum_loop n' arr (i + 1) str
      end
  end.

Definition d_getnumbyname (arr : list (list ascii)) (arr_size : Z)
    (str : list ascii) : result Z :=
  getnum_loop (Z.to_nat arr_size) arr 0 str.

(** ** Getters and setters *)

Definition tphours : Z := 3.
Definition tpminutes : Z := 4.
Definition tpseconds : Z := 5.
Definition tpmsec : Z := 6.
Definition tpmax : Z := 7.

(** The field of [tp_arr[i]]; index 7 is the day of the week. *)
Definition get_part (tp : timeparts) (i : nat) : Z :=
  match i with
  | 0%nat => year tp
  | 1%nat => month tp
  | 2%nat => day tp
  | 3%nat => hour tp
  | 4%nat => min tp
  | 5%nat => sec tp
  | 6%nat => msec tp
  | _ => dayofweek tp
  end.

(** [DEF_GET_TP_FUNC] with [d_gmtime]: NaN for an invalid date, else the
    field of the broken-down instant *)
Definition Date_getUTC (i : nat) (this : etime) : result etime :=
  match this with
  | None => Ok None
  | Some t => tp <- d_gmtime t ;; Ok (Some (get_part tp i))
  end.

(** The loop of [d_time_number_from_tp] over the arguments: [vals] holds
    what [d_argtoint] leaves in [new_part] for each, and [d_argtoint]
    returns [new_part != INVALID_TIME].  The result is the array and the
    last [new_part]. *)
Fixpoint tp_args (vals : list etime) (i start_pos : Z) (a : list etime)
    (new_part : etime) : result (list etime * etime) :=
  match vals with
  | [] => Ok (a, new_part)
  | v :: vals' =>
      if i + start_pos <? tpmax then
        if negb (double_ne v INVALID_TIME) then Ok (a, v)
        else a <- arg_store a (i + start_pos) v ;;
             tp_args vals' (i + 1) start_pos a v
      else Ok (a, new_part)
  end.

(** [this] is the instant of [this_obj]. *)
Definition d_time_number_from_tp (this : etime) (vals : list etime)
    (start_pos : Z) (breaktimefunc : option (Z -> result timeparts))
    (maketimefunc : timeparts -> result Z) : result etime :=
  match this with
  | Some current_time =>
      if (1 <=? Z.of_nat (List.length vals)) then
        '(a, new_part) <- tp_args vals 0 start_pos (repeat INVALID_TIME 7)
                            INVALID_TIME ;;
        if negb (d_istimeinvalid new_part) then
          t <- d_changepartoftime current_time a breaktimefunc maketimefunc ;;
          Ok (Some t)
        else Ok INVALID_TIME
      else Ok INVALID_TIME
  | None => Ok INVALID_TIME
  end.

(** [Date_setUTC...]: the instant [d_setTimePart] stores and returns *)
Definition Date_setUTC (start_pos : Z) (this : etime) (vals : list etime)
  : result etime :=
  d_time_number_from_tp this vals start_pos (Some d_gmtime) d_gmktime.

(** [Date_set...], in local time *)
Definition Date_setLocal (h : host) (start_pos : Z) (this : etime)
    (vals : list etime) : result etime :=
  d_time_number_from_tp this vals start_pos (Some (d_localtime h))
    (d_lmktime h).

(** The number of days of month [m] in a year that is leap or not, by the
    table of [ecma_getfirstdays] *)
Definition days_in_month (leap : bool) (m : Z) : Z :=
  nth (Z.to_nat (m + 1)) (ecma_getfirstdays leap) 0
  - nth (Z.to_nat m) (ecma_getfirstdays leap) 0.

(** Fields that name an instant of the calendar from 1970 to 275760: each
    in its range, and a day that the month has *)
Definition tp_in_range (tp : timeparts) : bool :=
  (1970 <=? year tp) && (year tp <=? 275760)
  && (0 <=? month tp) && (month tp <=? 11)
  && (1 <=? day tp)
  && (day tp <=? days_in_month (ecma_DaysInYear (year tp) =? 366) (month tp))
  && (0 <=? hour tp) && (hour tp <=? 23)
  && (0 <=? min tp) && (min tp <=? 59)
  && (0 <=? sec tp) && (sec tp <=? 59)
  && (0 <=? msec tp) && (msec tp <=? 999).

(** The fields with the day of the week of the instant [t] *)
Definition with_dayofweek (tp : timeparts) (t : Z) : timeparts :=
  mk_timeparts (year tp) (month tp) (day tp) (hour tp) (min tp) (sec tp)
    (msec tp) (ecma_WeekDay t).

(** A host one hour east of Greenwich, with the daylight saving time of
    2015: from 29 March to 25 October, 01:00 UTC *)
Definition cet_host : host :=
  {| timezone := -3600;
     tm_isdst := fun secs => (1427590800 <=? secs) && (secs <? 1445734800);
     env_locale := "de_DE.UTF-8";
     locale_known := fun s => String.eqb s "C" || String.eqb s "de_DE.UTF-8";
     strftime := fun _ _ _ => ""%string;
     later_strategies := fun _ tp => (false, tp, NO_TZ) |}.

(** * Properties of the AST store *)

(** ** Lists of bytes *)

Lemma mbuf_len_app (x y : mbuf) : mbuf_len (x ++ y) = mbuf_len x + mbuf_len y.
Proof. unfold mbuf_len. rewrite length_app. lia. Qed.

Lemma mbuf_len_cons (b : Z) (x : mbuf) : mbuf_len (b :: x) = 1 + mbuf_len x.
Proof. unfold mbuf_len. simpl List.length. lia. Qed.

Lemma mbuf_len_nil : mbuf_len [] = 0.
Proof. reflexivity. Qed.

Lemma mbuf_len_nonneg (x : mbuf) : 0 <= mbuf_len x.
Proof. unfold mbuf_len. lia. Qed.

Lemma mbuf_len_zeros (n : Z) : 0 <= n -> mbuf_len (zeros n) = n.
Proof. intros H. unfold mbuf_len, zeros. rewrite repeat_length. lia. Qed.

Lemma to_nat_mbuf_len (x : mbuf) : Z.to_nat (mbuf_len x) = List.length x.
Proof. unfold mbuf_len. lia. Qed.

Create Rewrite HintDb mlen.

#[local] Hint Rewrite mbuf_len_app mbuf_len_cons mbuf_len_nil : mlen.

Ltac mlen := autorewrite with mlen in *.

(** One step of a monadic computation, without touching arithmetic *)
Ltac rstep := cbn [bind assert app fst snd negb].
Ltac rstep_in H := cbn [bind assert app fst snd negb] in H.

Lemma firstn_len_app (x y : mbuf) : firstn (Z.to_nat (mbuf_len x)) (x ++ y) = x.
Proof.
  rewrite to_nat_mbuf_len, firstn_app, Nat.sub_diag, firstn_all. simpl.
  apply app_nil_r.
Qed.

Lemma skipn_len_app (x y : mbuf) : skipn (Z.to_nat (mbuf_len x)) (x ++ y) = y.
Proof.
  rewrite to_nat_mbuf_len, skipn_app, Nat.sub_diag, skipn_all. reflexivity.
Qed.

Lemma byte_at_app (x : mbuf) (b : Z) (y : mbuf) :
  byte_at (x ++ b :: y) (mbuf_len x) = Ok b.
Proof.
  unfold byte_at. pose proof (mbuf_len_nonneg x) as H.
  destruct (Z.ltb_spec (mbuf_len x) 0); [lia |].
  rewrite to_nat_mbuf_len, nth_error_app2, Nat.sub_diag by lia. reflexivity.
Qed.

Lemma byte_at_app_at (x : mbuf) (b : Z) (y : mbuf) (p : Z) :
  p = mbuf_len x -> byte_at (x ++ b :: y) p = Ok b.
Proof. intros ->. apply byte_at_app. Qed.

Lemma store_app (x : mbuf) (b v : Z) (y : mbuf) :
  store (x ++ b :: y) (mbuf_len x) v = Ok (x ++ v :: y).
Proof.
  unfold store. pose proof (mbuf_len_nonneg x) as H.
  pose proof (mbuf_len_nonneg y) as Hy. mlen.
  destruct (Z.leb_spec 0 (mbuf_len x)); [| lia].
  destruct (Z.ltb_spec (mbuf_len x) (mbuf_len x + (1 + mbuf_len y))); [| lia].
  simpl. rewrite firstn_len_app. do 2 f_equal.
  replace (Z.to_nat (mbuf_len x + 1)) with (List.length x + 1)%nat
    by (unfold mbuf_len; lia).
  rewrite skipn_app, skipn_all2 by lia.
  replace (List.length x + 1 - List.length x)%nat with 1%nat by lia.
  reflexivity.
Qed.

Lemma store_app_at (x : mbuf) (b v : Z) (y : mbuf) (p : Z) :
  p = mbuf_len x -> store (x ++ b :: y) p v = Ok (x ++ v :: y).
Proof. intros ->. apply store_app. Qed.

Lemma mbuf_insert_app (x y data : mbuf) :
  mbuf_insert (x ++ y) (mbuf_len x) data = Ok (x ++ data ++ y).
Proof.
  unfold mbuf_insert. pose proof (mbuf_len_nonneg x). pose proof (mbuf_len_nonneg y).
  mlen.
  destruct (Z.leb_spec 0 (mbuf_len x)); [| lia].
  destruct (Z.leb_spec (mbuf_len x) (mbuf_len x + mbuf_len y)); [| lia].
  simpl. now rewrite firstn_len_app, skipn_len_app.
Qed.

Lemma split_at (a : mbuf) (p : Z) :
  0 <= p <= mbuf_len a ->
  a = firstn (Z.to_nat p) a ++ skipn (Z.to_nat p) a
  /\ mbuf_len (firstn (Z.to_nat p) a) = p.
Proof.
  intros H. split; [symmetry; apply firstn_skipn |].
  unfold mbuf_len in *. rewrite length_firstn. lia.
Qed.

(** ** The table *)

Lemma ast_def_in (tag : Z) (d : ast_node_def) :
  ast_def tag = Ok d -> In d ast_node_defs /\ 0 <= tag < AST_MAX_TAG.
Proof.
  unfold ast_def. destruct (Z.ltb_spec tag 0); [discriminate |].
  destruct (nth_error ast_node_defs (Z.to_nat tag)) eqn:E; [| discriminate].
  intros [= ->]. split; [eapply nth_error_In; eassumption |].
  assert (Hlt : (Z.to_nat tag < List.length ast_node_defs)%nat)
    by (apply nth_error_Some; congruence).
  unfold AST_MAX_TAG. simpl List.length in Hlt. lia.
Qed.

Lemma table_ok : forallb def_ok ast_node_defs = true.
Proof. vm_compute. reflexivity. Qed.

Lemma ast_def_ok (tag : Z) (d : ast_node_def) :
  ast_def tag = Ok d -> def_ok d = true.
Proof.
  intros H. apply ast_def_in in H as [H _].
  pose proof table_ok as T. rewrite forallb_forall in T. now apply T.
Qed.

(** The facts of [def_ok], unpacked *)
Lemma ast_def_facts (tag : Z) (d : ast_node_def) :
  ast_def tag = Ok d ->
  has_varint d = has_inlined d
  /\ (has_inlined d = true -> num_skips d = 0)
  /\ 0 <= num_skips d <= 3
  /\ 0 <= num_subtrees d <= 3
  /\ 0 <= tag < AST_MAX_TAG.
Proof.
  intros H. pose proof (ast_def_ok _ _ H) as K. apply ast_def_in in H as [_ R].
  unfold def_ok in K. repeat rewrite andb_true_iff in K.
  destruct K as [[[[[K1 K2] K3] K4] K5] K6].
  apply Bool.eqb_prop in K1.
  repeat split; try lia; try assumption.
  intros I. rewrite I in K2. simpl in K2. lia.
Qed.

(** C9.  In the schema table no tag has both a varint and skips, and a tag
    with an inline string has a varint: for every tag of the table,
    [has_varint] implies [num_skips = 0] and [has_inlined] implies
    [has_varint]. *)
Theorem schema_varint_excludes_skips (tag : Z) (d : ast_node_def) :
  ast_def tag = Ok d ->
  (has_varint d = true -> num_skips d = 0)
  /\ (has_inlined d = true -> has_varint d = true).
Proof.
  intros H. destruct (ast_def_facts _ _ H) as (E & S & _).
  split; intros I.
  - apply S. congruence.
  - congruence.
Qed.

Lemma schema_varint_excludes_skips_witness :
  ast_def 3 = Ok (AST_ENTRY "VAR_DECL" true true 0 1)
  /\ (true = true -> 0 = 0) /\ (true = true -> true = true).
Proof.
  split; [reflexivity |].
  exact (schema_varint_excludes_skips 3 (AST_ENTRY "VAR_DECL" true true 0 1)
           eq_refl).
Defined.

(** Since no tag has both, [ast_move_to_children], which decodes the
    varint at the byte after the tag and adds the width of the skips
    afterwards, moves as the declared layout says, on every buffer. *)
Lemma move_to_children_as_layout (a : mbuf) (pos : Z) :
  ast_move_to_children a pos = move_to_children_layout a pos.
Proof.
  unfold ast_move_to_children, move_to_children_layout.
  destruct (byte_at a (pos - 1)) as [tag | | |]; try reflexivity. rstep.
  destruct (ast_def tag) as [d | | |] eqn:D; try reflexivity. rstep.
  destruct (assert _); try reflexivity. rstep.
  destruct (ast_def_facts tag d D) as (E & V & _).
  destruct (has_varint d).
  - rewrite (V (eq_sym E)), Z.add_0_r.
    destruct (decode_varint a pos) as [[slen llen] | | |]; try reflexivity.
    rstep. f_equal. lia.
  - reflexivity.
Qed.

(** ** Skips *)

Lemma be16_join (v : Z) :
  Z.lor (Z.land v 255) (Z.shiftl (Z.shiftr v 8) 8) = v.
Proof.
  apply Z.bits_inj'. intros n Hn.
  rewrite Z.lor_spec, Z.land_spec, Z.shiftl_spec by lia.
  change 255 with (Z.ones 8). rewrite Z.testbit_ones_nonneg by lia.
  destruct (Z.ltb_spec n 8).
  - rewrite (Z.testbit_neg_r _ (n - 8)) by lia.
    now rewrite andb_true_r, orb_false_r.
  - rewrite Z.shiftr_spec by lia. rewrite andb_false_r. simpl.
    f_equal. lia.
Qed.

Lemma byte_at_range (a : mbuf) (p b : Z) :
  byte_at a p = Ok b -> 0 <= p < mbuf_len a.
Proof.
  unfold byte_at. destruct (Z.ltb_spec p 0); [discriminate |].
  destruct (nth_error a (Z.to_nat p)) eqn:E; [| discriminate].
  intros _. assert ((Z.to_nat p < List.length a)%nat)
    by (apply nth_error_Some; congruence).
  unfold mbuf_len. lia.
Qed.

Lemma byte_at_split (a : mbuf) (p : Z) :
  0 <= p < mbuf_len a ->
  exists x b y, a = x ++ b :: y /\ mbuf_len x = p.
Proof.
  intros H. unfold mbuf_len in H.
  destruct (nth_error a (Z.to_nat p)) eqn:E.
  - apply nth_error_split in E as (x & y & -> & L).
    exists x, z, y. split; [reflexivity |]. unfold mbuf_len. lia.
  - apply nth_error_None in E. lia.
Qed.

Lemma store_inv (a : mbuf) (p v : Z) (a' : mbuf) :
  store a p v = Ok a' ->
  exists x b y, a = x ++ b :: y /\ a' = x ++ v :: y /\ mbuf_len x = p.
Proof.
  intros H. assert (R : 0 <= p < mbuf_len a).
  { unfold store in H. destruct (Z.leb_spec 0 p), (Z.ltb_spec p (mbuf_len a));
      simpl in H; try discriminate. lia. }
  destruct (byte_at_split a p R) as (x & b & y & -> & L).
  exists x, b, y. subst p. rewrite store_app in H. now inversion H.
Qed.

Lemma store_fault (a : mbuf) (p v : Z) :
  ~ 0 <= p < mbuf_len a -> store a p v = Fault.
Proof.
  intros H. unfold store.
  destruct (Z.leb_spec 0 p), (Z.ltb_spec p (mbuf_len a)); simpl; try reflexivity.
  lia.
Qed.

(** Two adjacent bytes of a buffer *)
Lemma two_bytes_split (a : mbuf) (p : Z) :
  0 <= p -> p + 1 < mbuf_len a ->
  exists x b0 b1 y, a = x ++ b0 :: b1 :: y /\ mbuf_len x = p.
Proof.
  intros H0 H1. destruct (byte_at_split a p) as (x & b0 & y & -> & L); [lia |].
  mlen. destruct y as [| b1 y]; [mlen; lia |].
  now exists x, b0, b1, y.
Qed.

Lemma store_two (x : mbuf) (b0 b1 v0 v1 : Z) (y : mbuf) (p : Z) :
  p = mbuf_len x ->
  (a <- store (x ++ b0 :: b1 :: y) p v0 ;; store a (p + 1) v1)
  = Ok (x ++ v0 :: v1 :: y).
Proof.
  intros ->. rewrite store_app. simpl.
  change (x ++ v0 :: b1 :: y) with (x ++ [v0] ++ b1 :: y).
  rewrite app_assoc. rewrite store_app_at by (mlen; lia).
  now rewrite <- app_assoc.
Qed.

Lemma get_skip_two (x : mbuf) (v0 v1 : Z) (y : mbuf) (pos skip : Z) :
  pos + skip * 2 = mbuf_len x ->
  ast_get_skip (x ++ v0 :: v1 :: y) pos skip
  = Ok (pos + Z.lor v1 (Z.shiftl v0 8)).
Proof.
  intros E. unfold ast_get_skip. rewrite E.
  pose proof (mbuf_len_nonneg y). mlen.
  destruct (Z.ltb_spec (mbuf_len x) (mbuf_len x + (1 + (1 + mbuf_len y))));
    [| lia].
  simpl. rewrite byte_at_app. simpl.
  change (x ++ v0 :: v1 :: y) with (x ++ [v0] ++ v1 :: y).
  rewrite app_assoc, byte_at_app_at by (mlen; lia). reflexivity.
Qed.

(** [ast_modify_skip] on a node whose slot is in range patches the two
    bytes of the slot with the 16 low bits of [where_ - start]. *)
Lemma modify_skip_patch (x : mbuf) (b0 b1 : Z) (y : mbuf)
    (start where_ skip tag : Z) (d : ast_node_def) :
  byte_at (x ++ b0 :: b1 :: y) (start - 1) = Ok tag ->
  ast_def tag = Ok d ->
  skip < num_skips d ->
  start + skip * 2 = mbuf_len x ->
  ast_modify_skip (x ++ b0 :: b1 :: y) start where_ skip
  = Ok (x ++ be16 ((where_ - start) mod 65536) ++ y, where_).
Proof.
  intros T D S P. unfold ast_modify_skip. rewrite T. simpl. rewrite D. simpl.
  destruct (Z.ltb_spec skip (num_skips d)); [| lia]. simpl.
  pose proof (store_two x b0 b1 (Z.shiftr ((where_ - start) mod 65536) 8)
                (Z.land ((where_ - start) mod 65536) 255) y _ P) as K.
  unfold bind in K |- *.
  destruct (store (x ++ b0 :: b1 :: y) (start + skip * 2) _); try discriminate.
  rewrite K. reflexivity.
Qed.

(** C2, as the code has it.  For a node with tag [tag] at [start - 1],
    [ast_set_skip (start, which)] fails its assertion exactly when [which]
    is not below the tag's [num_skips]; the width of the delta is not
    checked.  A call with a slot of the node that lies in the buffer
    returns the buffer length, whatever the delta is, and patches the
    slot with the 16 low bits of the buffer length minus [start], the
    high byte first.  A call that returns has its slot index in range and
    has patched the slot so, and [ast_get_skip] then reads [start] plus
    the delta modulo 65536. *)
Theorem set_skip_truncates_delta (a : mbuf) (start which tag : Z)
    (d : ast_node_def) :
  byte_at a (start - 1) = Ok tag ->
  ast_def tag = Ok d ->
  (ast_set_skip a start which = AssertFailed <-> num_skips d <= which)
  /\ (0 <= which < num_skips d ->
      start + which * 2 + 1 < mbuf_len a ->
      exists x b0 b1 y,
        a = x ++ b0 :: b1 :: y
        /\ mbuf_len x = start + which * 2
        /\ ast_set_skip a start which
           = Ok (x ++ Z.shiftr ((mbuf_len a - start) mod 65536) 8
                   :: Z.land ((mbuf_len a - start) mod 65536) 255 :: y,
                 mbuf_len a))
  /\ (forall a' r, ast_set_skip a start which = Ok (a', r) ->
        which < num_skips d
        /\ r = mbuf_len a
        /\ (exists x b0 b1 y,
              a = x ++ b0 :: b1 :: y
              /\ mbuf_len x = start + which * 2
              /\ a' = x ++ Z.shiftr ((mbuf_len a - start) mod 65536) 8
                        :: Z.land ((mbuf_len a - start) mod 65536) 255 :: y)
        /\ ast_get_skip a' start which
           = Ok (start + (mbuf_len a - start) mod 65536)).
Proof.
  intros T D. split; [| split].
  - unfold ast_set_skip, ast_modify_skip. rewrite T. simpl.
    rewrite D. simpl. destruct (Z.ltb_spec which (num_skips d)); simpl.
    + split; [| lia]. unfold store.
      destruct ((0 <=? start + which * 2) && (start + which * 2 <? mbuf_len a));
        cbn [bind]; [| discriminate].
      destruct ((0 <=? start + which * 2 + 1) && _); cbn [bind];
        discriminate.
    + split; [intros _; assumption | reflexivity].
  - intros W R. pose proof (byte_at_range _ _ _ T) as S.
    destruct (two_bytes_split a (start + which * 2)) as (x & b0 & b1 & y & E & L);
      try lia.
    exists x, b0, b1, y. split; [exact E |]. split; [exact L |].
    unfold ast_set_skip.
    rewrite E at 1.
    rewrite (modify_skip_patch x b0 b1 y start _ which tag d) by (subst a; assumption || lia).
    reflexivity.
  - intros a' r H.
    assert (W : which < num_skips d).
    { unfold ast_set_skip, ast_modify_skip in H. rewrite T in H. simpl in H.
      rewrite D in H. simpl in H.
      destruct (Z.ltb_spec which (num_skips d)); [assumption | discriminate]. }
    assert (R : 0 <= start + which * 2 /\ start + which * 2 + 1 < mbuf_len a).
    { unfold ast_set_skip, ast_modify_skip in H. rewrite T in H. simpl in H.
      rewrite D in H. simpl in H.
      destruct (Z.ltb_spec which (num_skips d)); [| lia]. simpl in H.
      destruct (store a (start + which * 2) _) as [a1 | | |] eqn:S1;
        try discriminate. simpl in H.
      destruct (store a1 (start + which * 2 + 1) _) as [a2 | | |] eqn:S2;
        try discriminate.
      apply store_inv in S1 as (x1 & c1 & y1 & -> & -> & L1).
      apply store_inv in S2 as (x2 & c2 & y2 & E2 & _ & L2).
      apply (f_equal mbuf_len) in E2. mlen.
      pose proof (mbuf_len_nonneg x1). pose proof (mbuf_len_nonneg y2). lia. }
    destruct (two_bytes_split a (start + which * 2)) as (x & b0 & b1 & y & E & L);
      try lia.
    unfold ast_set_skip in H. subst a.
    rewrite (modify_skip_patch x b0 b1 y start _ which tag d T D W) in H
      by lia.
    inversion H; subst a' r; clear H.
    repeat split; try assumption.
    + exists x, b0, b1, y. repeat split; try lia.
    + unfold be16. simpl app. rewrite get_skip_two by lia.
      now rewrite be16_join.
Qed.

Lemma set_skip_truncates_delta_witness :
  ast_set_skip [24; 0; 0; 35] 1 1 = AssertFailed
  /\ ast_set_skip [24; 0; 0; 35] 1 0 = Ok ([24; 0; 3; 35], 4)
  /\ ast_get_skip [24; 0; 3; 35] 1 0 = Ok 4.
Proof.
  destruct (set_skip_truncates_delta [24; 0; 0; 35] 1 1 24
              (AST_ENTRY "SEQ" false false 1 0) eq_refl eq_refl) as [F _].
  destruct (set_skip_truncates_delta [24; 0; 0; 35] 1 0 24
              (AST_ENTRY "SEQ" false false 1 0) eq_refl eq_refl)
    as (_ & P & G).
  split; [| split].
  - apply F. simpl. lia.
  - destruct P as (x & b0 & b1 & y & E & L & K);
      [simpl; lia | unfold mbuf_len; simpl; lia |].
    rewrite K. f_equal. f_equal.
    destruct x as [| x0 [| x1 x]]; cbn in L; try lia.
    inversion E; subst. reflexivity.
  - destruct (G [24; 0; 3; 35] 4 eq_refl) as (_ & _ & _ & K). exact K.
Defined.

Lemma zeros_two (n : Z) : 0 <= n -> zeros (n + 2) = 0 :: 0 :: zeros n.
Proof.
  intros H. unfold zeros.
  replace (Z.to_nat (n + 2)) with (S (S (Z.to_nat n))) by lia. reflexivity.
Qed.

(** C2, refuted as stated: a SEQ node whose body is 65538 bytes long is
    closed without any assertion failing, and its skip reads 2. *)
Lemma set_skip_accepts_wide_delta :
  65536 <= mbuf_len (24 :: zeros 65538) - 1
  /\ ast_set_skip (24 :: zeros 65538) 1 AST_END_SKIP
     = Ok (24 :: 0 :: 2 :: zeros 65536, 65539).
Proof.
  assert (L : mbuf_len (24 :: zeros 65538) = 65539)
    by (rewrite mbuf_len_cons, mbuf_len_zeros; lia).
  split; [lia |].
  unfold ast_set_skip. rewrite L.
  change 65538 with (65536 + 2). rewrite zeros_two by lia.
  change (24 :: 0 :: 0 :: zeros 65536) with ([24] ++ 0 :: 0 :: zeros 65536).
  rewrite (modify_skip_patch [24] 0 0 (zeros 65536) 1 65539 AST_END_SKIP 24
             (AST_ENTRY "SEQ" false false 1 0)); reflexivity.
Qed.

(** ** The writer *)

Lemma tag_byte (tag : Z) (d : ast_node_def) :
  ast_def tag = Ok d -> tag mod 256 = tag /\ (tag <? AST_MAX_TAG) = true.
Proof.
  intros H. destruct (ast_def_facts _ _ H) as (_ & _ & _ & _ & R).
  unfold AST_MAX_TAG in *. split; [apply Z.mod_small; lia |].
  apply Z.ltb_lt. lia.
Qed.

Lemma skip_slots_zero (d : ast_node_def) :
  0 <= num_skips d -> skip_slots d 0 = zeros (2 * num_skips d).
Proof.
  intros H. unfold skip_slots. destruct (Z.eqb_spec (num_skips d) 0) as [-> | N].
  - reflexivity.
  - replace (2 * num_skips d) with (2 * (num_skips d - 1) + 2) by lia.
    rewrite zeros_two by lia. reflexivity.
Qed.

Lemma skip_slots_cons (d : ast_node_def) (v : Z) :
  num_skips d <> 0 ->
  skip_slots d v = be16 v ++ zeros (2 * (num_skips d - 1)).
Proof.
  intros N. unfold skip_slots.
  destruct (Z.eqb_spec (num_skips d) 0); [contradiction | reflexivity].
Qed.

Lemma mbuf_len_skip_slots (d : ast_node_def) (v : Z) :
  0 <= num_skips d -> mbuf_len (skip_slots d v) = 2 * num_skips d.
Proof.
  intros H. unfold skip_slots. destruct (Z.eqb_spec (num_skips d) 0) as [E | N].
  - rewrite E. reflexivity.
  - unfold be16. mlen. rewrite mbuf_len_zeros by lia. lia.
Qed.

Lemma add_node_app (a : mbuf) (tag : Z) (d : ast_node_def) :
  ast_def tag = Ok d ->
  ast_add_node a tag = Ok (a ++ tag :: skip_slots d 0, mbuf_len a + 1).
Proof.
  intros D. destruct (tag_byte _ _ D) as [M L].
  destruct (ast_def_facts _ _ D) as (_ & _ & K & _).
  unfold ast_add_node, mbuf_append. rewrite L, D, M. rstep.
  rewrite skip_slots_zero by lia. now rewrite <- app_assoc.
Qed.

(** Closing a node: the END slot of the node at [x] gets the length of
    what follows the tag. *)
Lemma set_skip_end (x : mbuf) (tag : Z) (d : ast_node_def) (v : Z)
    (rest : mbuf) :
  ast_def tag = Ok d ->
  num_skips d <> 0 ->
  ast_set_skip (x ++ tag :: skip_slots d v ++ rest) (mbuf_len x + 1)
    AST_END_SKIP
  = Ok (x ++ tag :: skip_slots d ((2 * num_skips d + mbuf_len rest) mod 65536)
          ++ rest,
        mbuf_len x + 1 + 2 * num_skips d + mbuf_len rest).
Proof.
  intros D N. destruct (ast_def_facts _ _ D) as (_ & _ & K & _).
  rewrite !skip_slots_cons by assumption. unfold ast_set_skip.
  set (z := zeros (2 * (num_skips d - 1))).
  assert (Lz : mbuf_len z = 2 * num_skips d - 2)
    by (unfold z; rewrite mbuf_len_zeros; lia).
  unfold be16 at 1. cbn [app].
  change (x ++ tag :: ?h :: ?l :: z ++ rest)
    with (x ++ [tag] ++ h :: l :: (z ++ rest)).
  rewrite (app_assoc x [tag]).
  rewrite (modify_skip_patch (x ++ [tag]) _ _ (z ++ rest) _ _ AST_END_SKIP tag d).
  - mlen. f_equal. f_equal.
    + rewrite <- !app_assoc. cbn [app]. do 3 f_equal.
      apply (f_equal be16). f_equal. unfold be16. mlen. lia.
    + unfold be16. mlen. lia.
  - rewrite <- app_assoc. apply byte_at_app_at. lia.
  - assumption.
  - unfold AST_END_SKIP. lia.
  - unfold AST_END_SKIP. mlen. lia.
Qed.

Lemma insert_node_app (x y : mbuf) (tag : Z) (d : ast_node_def) :
  ast_def tag = Ok d ->
  ast_insert_node (x ++ y) (mbuf_len x) tag
  = Ok (x ++ tag
          :: skip_slots d ((2 * num_skips d + mbuf_len y) mod 65536) ++ y,
        mbuf_len x + 1).
Proof.
  intros D. destruct (tag_byte _ _ D) as [M L].
  destruct (ast_def_facts _ _ D) as (_ & _ & K & _).
  unfold ast_insert_node. rewrite L, D, M. rstep.
  rewrite mbuf_insert_app. rstep. rewrite mbuf_insert_app. rstep.
  rewrite <- skip_slots_zero by lia.
  destruct (Z.eqb_spec (num_skips d) 0) as [E | N]; rstep.
  - unfold skip_slots. rewrite E. reflexivity.
  - rewrite set_skip_end by assumption. reflexivity.
Qed.

(** C5, as the code has it.  [ast_insert_node (at_, tag)] puts the tag
    byte and the skip slots of the tag at [at_], in front of what stood
    there, and returns [at_ + 1].  For a tag with skips the END slot gets
    the distance to the end of the buffer (its 16 low bits) and the other
    slots are zero; when that distance fits 16 bits, the END skip of the
    new node reads the buffer length, so the node takes everything from
    [at_] to the end of the buffer as its body. *)
Theorem insert_node_spans_to_end (a : mbuf) (at_ tag : Z) (d : ast_node_def) :
  ast_def tag = Ok d ->
  0 <= at_ <= mbuf_len a ->
  let delta := 2 * num_skips d + (mbuf_len a - at_) in
  let a' := firstn (Z.to_nat at_) a
            ++ tag :: skip_slots d (delta mod 65536)
            ++ skipn (Z.to_nat at_) a in
  ast_insert_node a at_ tag = Ok (a', at_ + 1)
  /\ (num_skips d <> 0 -> delta < 65536 ->
      ast_get_skip a' (at_ + 1) AST_END_SKIP = Ok (mbuf_len a')).
Proof.
  intros D R. cbv zeta. destruct (split_at a at_ R) as [E L].
  destruct (ast_def_facts _ _ D) as (_ & _ & K & _).
  revert E L.
  generalize (firstn (Z.to_nat at_) a) as x, (skipn (Z.to_nat at_) a) as y.
  intros x y -> L. subst at_. pose proof (mbuf_len_nonneg y) as Hy.
  replace (mbuf_len (x ++ y) - mbuf_len x) with (mbuf_len y) by (mlen; lia).
  split.
  - now apply insert_node_app.
  - intros N W. rewrite skip_slots_cons by assumption.
    unfold be16. cbn [app].
    change (x ++ tag :: ?h :: ?l :: ?r) with (x ++ [tag] ++ h :: l :: r).
    rewrite app_assoc, get_skip_two by (unfold AST_END_SKIP; mlen; lia).
    rewrite be16_join, Z.mod_small by lia.
    f_equal. mlen. rewrite mbuf_len_zeros by lia. lia.
Qed.

Lemma insert_node_spans_to_end_witness :
  ast_insert_node [35] 0 24 = Ok ([24; 0; 3; 35], 1)
  /\ ast_get_skip [24; 0; 3; 35] 1 AST_END_SKIP = Ok 4.
Proof.
  destruct (insert_node_spans_to_end [35] 0 24
              (AST_ENTRY "SEQ" false false 1 0) eq_refl) as [I G].
  - unfold mbuf_len. simpl. lia.
  - split; [exact I |]. apply G; unfold mbuf_len; simpl; lia.
Defined.

(** C5, refuted as stated: a SEQ node inserted at offset 0 of a buffer
    that holds a RETURN node gets an END skip that reads 4, the end of the
    buffer, and not 3, the offset just past its own skip slot; its body
    is the RETURN node. *)
Lemma insert_node_body_not_empty :
  ast_insert_node [35] 0 24 = Ok ([24; 0; 3; 35], 1)
  /\ ast_get_skip [24; 0; 3; 35] 1 AST_END_SKIP = Ok 4
  /\ ast_get_skip [24; 0; 3; 35] 1 AST_END_SKIP <> Ok (1 + 2 * 1).
Proof. repeat split. discriminate. Qed.

(** ** Varints *)

Lemma decode_encode_fuel (f : nat) :
  forall (n i : Z) (y : mbuf),
    0 <= n < 2 ^ (Z.of_nat f + 1) -> 0 <= i ->
    decode_varint_from (encode_varint_fuel f n ++ y) i
    = Ok (n * 2 ^ (7 * i), i + mbuf_len (encode_varint_fuel f n)).
Proof.
  induction f as [| f IH]; intros n i y Hn Hi.
  - change (2 ^ (Z.of_nat 0 + 1)) with 2 in Hn.
    cbn [encode_varint_fuel app decode_varint_from].
    rewrite !Z.mod_small by lia.
    destruct (Z.ltb_spec n 128); [| lia]. reflexivity.
  - cbn [encode_varint_fuel]. destruct (Z.ltb_spec n 128) as [S | B].
    + cbn [app decode_varint_from]. rewrite Z.mod_small by lia.
      destruct (Z.ltb_spec n 128); [| lia]. reflexivity.
    + cbn [app decode_varint_from].
      pose proof (Z.mod_pos_bound n 128 ltac:(lia)) as M.
      destruct (Z.ltb_spec (n mod 128 + 128) 128); [lia |].
      assert (P : 2 ^ (Z.of_nat (S f) + 1) = 2 * 2 ^ (Z.of_nat f + 1)).
      { rewrite <- Z.pow_succ_r by lia. f_equal. lia. }
      assert (Q : 0 < 2 ^ (Z.of_nat f + 1)) by (apply Z.pow_pos_nonneg; lia).
      rewrite IH; try lia.
      * rstep. f_equal. f_equal.
        -- replace ((n mod 128 + 128) mod 128) with (n mod 128).
           2:{ replace (n mod 128 + 128) with (n mod 128 + 1 * 128) by lia.
               rewrite Z.mod_add, Z.mod_mod by lia. reflexivity. }
           replace (7 * (i + 1)) with (7 * i + 7) by lia.
           rewrite Z.pow_add_r by lia. change (2 ^ 7) with 128.
           pose proof (Z.div_mod n 128 ltac:(lia)) as E.
           rewrite E at 3. ring.
        -- mlen. lia.
      * split; [apply Z.div_pos; lia |].
        apply Z.div_lt_upper_bound; lia.
Qed.

Lemma log2_fuel (n : Z) :
  0 <= n -> 0 <= n < 2 ^ (Z.of_nat (Z.to_nat (Z.log2 n)) + 1).
Proof.
  intros H. split; [assumption |].
  pose proof (Z.log2_nonneg n).
  rewrite Z2Nat.id by assumption.
  destruct (Z.eq_dec n 0) as [-> | N]; [reflexivity |].
  apply Z.log2_spec. lia.
Qed.

Lemma decode_encode_varint (x : mbuf) (n : Z) (y : mbuf) :
  0 <= n ->
  decode_varint (x ++ encode_varint n ++ y) (mbuf_len x)
  = Ok (n, mbuf_len (encode_varint n)).
Proof.
  intros H. unfold decode_varint. pose proof (mbuf_len_nonneg x).
  destruct (Z.ltb_spec (mbuf_len x) 0); [lia |].
  rewrite skipn_len_app. unfold encode_varint.
  rewrite decode_encode_fuel by (try apply log2_fuel; lia).
  f_equal. f_equal. change (2 ^ (7 * 0)) with 1. lia.
Qed.

Lemma embed_string_app (x y s : mbuf) :
  embed_string (x ++ y) (mbuf_len x) s
  = Ok (x ++ (encode_varint (mbuf_len s) ++ s) ++ y).
Proof. unfold embed_string. apply mbuf_insert_app. Qed.

Lemma payload_inlined (d : ast_node_def) (data : mbuf) :
  has_inlined d = true -> payload d data = encode_varint (mbuf_len data) ++ data.
Proof. intros H. unfold payload. now rewrite H. Qed.

Lemma payload_plain (d : ast_node_def) (data : mbuf) :
  has_inlined d = false -> payload d data = [].
Proof. intros H. unfold payload. now rewrite H. Qed.

Lemma skip_slots_none (d : ast_node_def) (v : Z) :
  num_skips d = 0 -> skip_slots d v = [].
Proof. intros H. unfold skip_slots. now rewrite H. Qed.

Lemma add_inlined_node_app (a : mbuf) (tag : Z) (d : ast_node_def)
    (data : mbuf) :
  ast_def tag = Ok d -> has_inlined d = true ->
  ast_add_inlined_node a tag data = Ok (a ++ tag :: payload d data).
Proof.
  intros D I. destruct (ast_def_facts _ _ D) as (_ & S & _).
  unfold ast_add_inlined_node. rewrite D. rstep. rewrite I. rstep.
  rewrite (add_node_app a tag d D). rstep.
  rewrite skip_slots_none by auto.
  replace (mbuf_len a + 1) with (mbuf_len (a ++ [tag])) by (mlen; lia).
  rewrite <- (app_nil_r (a ++ [tag])) at 1.
  rewrite embed_string_app, payload_inlined by assumption.
  rewrite app_nil_r, <- app_assoc. reflexivity.
Qed.

Lemma insert_inlined_node_app (x y : mbuf) (tag : Z) (d : ast_node_def)
    (data : mbuf) :
  ast_def tag = Ok d -> has_inlined d = true ->
  ast_insert_inlined_node (x ++ y) (mbuf_len x) tag data
  = Ok (x ++ tag :: payload d data ++ y).
Proof.
  intros D I. destruct (ast_def_facts _ _ D) as (_ & S & _).
  unfold ast_insert_inlined_node. rewrite D. rstep. rewrite I. rstep.
  rewrite (insert_node_app x y tag d D). rstep.
  rewrite skip_slots_none by auto. cbn [app].
  replace (mbuf_len x + 1) with (mbuf_len (x ++ [tag])) by (mlen; lia).
  change (x ++ tag :: y) with (x ++ [tag] ++ y). rewrite app_assoc.
  rewrite embed_string_app, payload_inlined by assumption.
  rewrite <- !app_assoc. reflexivity.
Qed.

(** ** Building a tree *)

Lemma tree_ind_forall (P : tree -> Prop) :
  (forall tag data pre post,
      Forall P pre -> Forall P post -> P (Node tag data pre post)) ->
  forall t, P t.
Proof.
  intros H. fix IH 1. intros [tag data pre post]. apply H.
  - induction pre as [| k ks IHks]; constructor; [apply IH | exact IHks].
  - induction post as [| k ks IHks]; constructor; [apply IH | exact IHks].
Qed.

Lemma build_eq (tag : Z) (data : mbuf) (pre post : list tree) (a : mbuf) :
  build (Node tag data pre post) a
  = (d <- ast_def tag ;;
     let at_ := mbuf_len a in
     a <- build_all pre a ;;
     '(a, start) <-
       match pre with
       | [] =>
           if has_inlined d
           then a <- ast_add_inlined_node a tag data ;; Ok (a, at_ + 1)
           else ast_add_node a tag
       | _ :: _ =>
           if has_inlined d
           then a <- ast_insert_inlined_node a at_ tag data ;; Ok (a, at_ + 1)
           else ast_insert_node a at_ tag
       end ;;
     a <- build_all post a ;;
     if negb (num_skips d =? 0)
     then '(a, _) <- ast_set_skip a start AST_END_SKIP ;; Ok a
     else Ok a).
Proof. reflexivity. Qed.

Lemma encode_eq (tag : Z) (data : mbuf) (pre post : list tree)
    (d : ast_node_def) :
  ast_def tag = Ok d ->
  encode (Node tag data pre post)
  = tag :: payload d data
      ++ skip_slots d (mbuf_len (payload d data) + 2 * num_skips d
                       + mbuf_len (flat_map encode pre ++ flat_map encode post))
      ++ flat_map encode pre ++ flat_map encode post.
Proof. intros D. cbn [encode]. rewrite D. reflexivity. Qed.

Lemma wf_tree_inv (tag : Z) (data : mbuf) (pre post : list tree) :
  wf_tree (Node tag data pre post) = true ->
  exists d,
    ast_def tag = Ok d
    /\ (has_inlined d = false -> data = [])
    /\ num_subtrees d <= Z.of_nat (List.length pre + List.length post)
    /\ (num_skips d = 0 ->
        Z.of_nat (List.length pre + List.length post) = num_subtrees d)
    /\ (num_skips d <> 0 ->
        mbuf_len (encode (Node tag data pre post)) <= 65536)
    /\ Forall (fun k => wf_tree k = true) pre
    /\ Forall (fun k => wf_tree k = true) post.
Proof.
  cbn [wf_tree]. destruct (ast_def tag) as [d | | |] eqn:D; try discriminate.
  rewrite !andb_true_iff, !orb_true_iff, !forallb_forall, <- !Forall_forall.
  intros [[[[[W1 W2] W3] W4] W5] W6]. exists d. repeat split; try assumption.
  - intros I. rewrite I in W1. destruct W1 as [W1 | W1]; [discriminate |].
    apply Z.eqb_eq in W1. destruct data; [reflexivity |].
    rewrite mbuf_len_cons in W1. pose proof (mbuf_len_nonneg data). lia.
  - now apply Z.leb_le.
  - intros E. destruct W3 as [W3 | W3]; [| now apply Z.eqb_eq].
    rewrite E in W3. discriminate.
  - intros N. destruct W4 as [W4 | W4]; [apply Z.eqb_eq in W4; lia |].
    apply Z.leb_le in W4. cbn [encode] in W4 |- *. rewrite D in W4 |- *.
    exact W4.
Qed.

Lemma build_all_encode (ks : list tree) :
  Forall (fun k => wf_tree k = true ->
                   forall a, build k a = Ok (a ++ encode k)) ks ->
  Forall (fun k => wf_tree k = true) ks ->
  forall a, build_all ks a = Ok (a ++ flat_map encode ks).
Proof.
  induction 1 as [| k ks Hk _ IH]; intros W a; cbn [build_all flat_map].
  - now rewrite app_nil_r.
  - inversion W as [| ? ? Wk Wks]; subst.
    rewrite Hk by assumption. rstep. rewrite IH by assumption.
    now rewrite <- app_assoc.
Qed.

(** Closing a node whose body is [rest] *)
Lemma close_node (x : mbuf) (tag : Z) (d : ast_node_def) (v : Z)
    (rest : mbuf) :
  ast_def tag = Ok d ->
  (num_skips d <> 0 -> 2 * num_skips d + mbuf_len rest < 65536) ->
  (if negb (num_skips d =? 0)
   then '(a, _) <- ast_set_skip (x ++ tag :: skip_slots d v ++ rest)
                     (mbuf_len x + 1) AST_END_SKIP ;; Ok a
   else Ok (x ++ tag :: skip_slots d v ++ rest))
  = Ok (x ++ tag :: skip_slots d (2 * num_skips d + mbuf_len rest) ++ rest).
Proof.
  intros D B. destruct (ast_def_facts _ _ D) as (_ & _ & K & _).
  pose proof (mbuf_len_nonneg rest).
  destruct (Z.eqb_spec (num_skips d) 0) as [E | N]; rstep.
  - now rewrite !skip_slots_none by assumption.
  - rewrite set_skip_end by assumption. rstep.
    rewrite Z.mod_small by (specialize (B N); lia). reflexivity.
Qed.

Lemma build_encode (t : tree) :
  wf_tree t = true -> forall a, build t a = Ok (a ++ encode t).
Proof.
  induction t as [tag data pre post IHpre IHpost] using tree_ind_forall.
  intros W a. pose proof W as W0.
  apply wf_tree_inv in W as (d & D & Wd & Wn & Wz & Ws & Wpre & Wpost).
  destruct (ast_def_facts _ _ D) as (_ & S & K & _).
  rewrite (encode_eq _ _ _ _ d D) in Ws |- *.
  rewrite build_eq, D. rstep. cbv zeta.
  rewrite (build_all_encode pre IHpre Wpre). rstep.
  set (P := flat_map encode pre) in *. set (Q := flat_map encode post) in *.
  pose proof (mbuf_len_nonneg P). pose proof (mbuf_len_nonneg Q).
  pose proof (mbuf_len_nonneg (payload d data)).
  destruct (has_inlined d) eqn:I.
  - (* a tag with an inline payload has no skips *)
    specialize (S eq_refl). rewrite !skip_slots_none by assumption.
    rewrite S. cbn [Z.eqb negb app].
    destruct pre as [| k pre'].
    + subst P. cbn [flat_map app]. rewrite app_nil_r.
      rewrite (add_inlined_node_app a tag d data D I). rstep.
      rewrite (build_all_encode post IHpost Wpost).
      rewrite <- app_assoc. reflexivity.
    + rewrite (insert_inlined_node_app a P tag d data D I). rstep.
      rewrite (build_all_encode post IHpost Wpost).
      rewrite <- !app_assoc. cbn [app]. rewrite <- !app_assoc. reflexivity.
  - rewrite (payload_plain d data I) in *. cbn [app]. mlen.
    assert (B : num_skips d <> 0 -> 2 * num_skips d + mbuf_len (P ++ Q) < 65536).
    { intros N. specialize (Ws N). mlen.
      rewrite mbuf_len_skip_slots in Ws by lia. lia. }
    replace (0 + 2 * num_skips d + (mbuf_len P + mbuf_len Q))
      with (2 * num_skips d + mbuf_len (P ++ Q)) by (mlen; lia).
    destruct pre as [| k pre'].
    + subst P. cbn [flat_map app] in *. rewrite app_nil_r.
      rewrite (add_node_app a tag d D). rstep.
      rewrite (build_all_encode post IHpost Wpost). fold Q. rstep.
      rewrite <- ?app_assoc. cbn [app]. rewrite <- ?app_assoc.
      apply close_node; assumption.
    + rewrite (insert_node_app a P tag d D). rstep.
      rewrite (build_all_encode post IHpost Wpost). fold Q. rstep.
      rewrite <- ?app_assoc. cbn [app]. rewrite <- ?app_assoc.
      apply close_node; assumption.
Qed.

(** ** Walking a tree *)

Lemma fetch_tag_app (x : mbuf) (tag : Z) (r : mbuf) :
  ast_fetch_tag (x ++ tag :: r) (mbuf_len x) = Ok (tag, mbuf_len x + 1).
Proof.
  unfold ast_fetch_tag. pose proof (mbuf_len_nonneg r). mlen.
  destruct (Z.ltb_spec (mbuf_len x) (mbuf_len x + (1 + mbuf_len r))); [| lia].
  rstep. now rewrite byte_at_app.
Qed.

Lemma move_to_children_app (x : mbuf) (tag : Z) (d : ast_node_def)
    (data : mbuf) (v : Z) (rest : mbuf) :
  ast_def tag = Ok d ->
  ast_move_to_children (x ++ tag :: payload d data ++ skip_slots d v ++ rest)
    (mbuf_len x + 1)
  = Ok (mbuf_len x + 1 + mbuf_len (payload d data)
        + mbuf_len (skip_slots d v)).
Proof.
  intros D. destruct (ast_def_facts _ _ D) as (V & S & K & _).
  unfold ast_move_to_children.
  rewrite byte_at_app_at by lia. rstep. rewrite D. rstep.
  pose proof (mbuf_len_nonneg (payload d data ++ skip_slots d v ++ rest)).
  rewrite mbuf_len_app, mbuf_len_cons.
  destruct (Z.ltb_spec (mbuf_len x + 1 - 1)
              (mbuf_len x
               + (1 + mbuf_len (payload d data ++ skip_slots d v ++ rest))));
    [| lia].
  rstep. rewrite V, mbuf_len_skip_slots by lia.
  destruct (has_inlined d) eqn:I.
  - rewrite (payload_inlined d data I).
    change (x ++ tag :: ?r) with (x ++ [tag] ++ r).
    rewrite app_assoc, <- (app_assoc (encode_varint _)).
    replace (mbuf_len x + 1) with (mbuf_len (x ++ [tag])) by (mlen; lia).
    rewrite decode_encode_varint by apply mbuf_len_nonneg.
    rstep. f_equal. mlen. lia.
  - rewrite (payload_plain d data I). rstep. f_equal. mlen. lia.
Qed.

Lemma tree_size_pos (t : tree) : (1 <= tree_size t)%nat.
Proof. destruct t. simpl. lia. Qed.

Lemma tree_size_in (k : tree) (ks : list tree) :
  In k ks -> (tree_size k <= list_sum (map tree_size ks))%nat.
Proof.
  induction ks as [| k' ks IH]; simpl; [contradiction |].
  intros [-> | H]; [lia | specialize (IH H); lia].
Qed.

Lemma tree_size_count (ks : list tree) :
  (List.length ks <= list_sum (map tree_size ks))%nat.
Proof.
  induction ks as [| k ks IH]; simpl; [lia |].
  pose proof (tree_size_pos k). lia.
Qed.

Lemma encode_nonempty (t : tree) : wf_tree t = true -> 1 <= mbuf_len (encode t).
Proof.
  destruct t as [tag data pre post]. intros W.
  apply wf_tree_inv in W as (d & D & _). rewrite (encode_eq _ _ _ _ d D).
  rewrite mbuf_len_cons. pose proof (mbuf_len_nonneg
    (payload d data ++ skip_slots d
       (mbuf_len (payload d data) + 2 * num_skips d
        + mbuf_len (flat_map encode pre ++ flat_map encode post))
     ++ flat_map encode pre ++ flat_map encode post)). lia.
Qed.

Lemma walk_fixed (f : nat) (ks : list tree) :
  Forall walks ks ->
  Forall (fun k => wf_tree k = true) ks ->
  (forall k, In k ks -> (tree_size k <= f)%nat) ->
  forall x y,
    repeat_step (List.length ks)
      (ast_skip_tree f (x ++ flat_map encode ks ++ y)) (mbuf_len x)
    = Ok (mbuf_len x + mbuf_len (flat_map encode ks)).
Proof.
  induction 1 as [| k ks Hk _ IH]; intros W F x y;
    cbn [List.length repeat_step flat_map].
  - f_equal. mlen. lia.
  - inversion W as [| ? ? Wk Wks]; subst.
    rewrite <- (app_assoc (encode k)).
    rewrite (Hk Wk x (flat_map encode ks ++ y) f) by (apply F; now left).
    rstep. rewrite app_assoc, <- mbuf_len_app.
    rewrite IH by (try assumption; intros; apply F; now right).
    f_equal. mlen. lia.
Qed.

Lemma walk_trailing (f : nat) (ks : list tree) :
  Forall walks ks ->
  Forall (fun k => wf_tree k = true) ks ->
  (forall k, In k ks -> (tree_size k <= f)%nat) ->
  forall (n : nat) x y,
    (List.length ks <= n)%nat ->
    step_until n (ast_skip_tree f (x ++ flat_map encode ks ++ y))
      (mbuf_len x + mbuf_len (flat_map encode ks)) (mbuf_len x)
    = Ok (mbuf_len x + mbuf_len (flat_map encode ks)).
Proof.
  induction 1 as [| k ks Hk _ IH]; intros W F n x y L;
    cbn [List.length flat_map] in *.
  - mlen. replace (mbuf_len x + 0) with (mbuf_len x) by lia.
    destruct n; cbn [step_until]; now rewrite Z.ltb_irrefl.
  - inversion W as [| ? ? Wk Wks]; subst.
    pose proof (encode_nonempty k Wk) as E.
    pose proof (mbuf_len_nonneg (flat_map encode ks)) as E'.
    destruct n as [| n]; [lia |]. cbn [step_until].
    destruct (Z.ltb_spec (mbuf_len x)
                (mbuf_len x + mbuf_len (encode k ++ flat_map encode ks)));
      [| mlen; lia].
    rewrite <- (app_assoc (encode k)).
    rewrite (Hk Wk x (flat_map encode ks ++ y) f) by (apply F; now left).
    rstep.
    replace (x ++ encode k ++ flat_map encode ks ++ y)
      with ((x ++ encode k) ++ flat_map encode ks ++ y)
      by (now rewrite <- app_assoc).
    replace (mbuf_len x + mbuf_len (encode k ++ flat_map encode ks))
      with (mbuf_len (x ++ encode k) + mbuf_len (flat_map encode ks))
      by (mlen; lia).
    replace (mbuf_len x + mbuf_len (encode k)) with (mbuf_len (x ++ encode k))
      by (mlen; lia).
    apply IH; try assumption; [intros; apply F; now right | lia].
Qed.

Lemma get_skip_end (x : mbuf) (tag : Z) (d : ast_node_def) (v : Z)
    (rest : mbuf) :
  ast_def tag = Ok d -> num_skips d <> 0 ->
  ast_get_skip (x ++ tag :: skip_slots d v ++ rest) (mbuf_len x + 1)
    AST_END_SKIP
  = Ok (mbuf_len x + 1 + v).
Proof.
  intros D N. rewrite skip_slots_cons by assumption. unfold be16.
  rewrite <- app_assoc. cbn [app].
  change (x ++ tag :: ?h :: ?l :: ?r) with (x ++ [tag] ++ h :: l :: r).
  rewrite app_assoc, get_skip_two by (unfold AST_END_SKIP; mlen; lia).
  now rewrite be16_join.
Qed.

Lemma skip_tree_encode (t : tree) : walks t.
Proof.
  induction t as [tag data pre post IHpre IHpost] using tree_ind_forall.
  intros W x y fuel F.
  apply wf_tree_inv in W as (d & D & Wd & Wn & Wz & _ & Wpre & Wpost).
  destruct (ast_def_facts _ _ D) as (_ & S & K & KS & _).
  destruct fuel as [| f]; [pose proof (tree_size_pos (Node tag data pre post)); lia |].
  cbn [tree_size] in F.
  rewrite (encode_eq _ _ _ _ d D).
  set (pl := payload d data).
  set (P := flat_map encode pre). set (Q := flat_map encode post).
  set (delta := mbuf_len pl + 2 * num_skips d + mbuf_len (P ++ Q)).
  (* the children: the fixed ones, then the trailing ones *)
  set (n := Z.to_nat (num_subtrees d)).
  set (K1 := firstn n (pre ++ post)). set (K2 := skipn n (pre ++ post)).
  assert (EK : pre ++ post = K1 ++ K2) by (symmetry; apply firstn_skipn).
  assert (L1 : List.length K1 = n).
  { unfold K1. rewrite length_firstn, length_app. lia. }
  assert (IHK : Forall walks (K1 ++ K2))
    by (rewrite <- EK; apply Forall_app; now split).
  assert (WK : Forall (fun k => wf_tree k = true) (K1 ++ K2))
    by (rewrite <- EK; apply Forall_app; now split).
  apply Forall_app in IHK as [IH1 IH2]. apply Forall_app in WK as [W1 W2].
  assert (SZ : forall k, In k (K1 ++ K2) -> (tree_size k <= f)%nat).
  { intros k Hk. rewrite <- EK in Hk. apply in_app_or in Hk as [Hk | Hk];
      apply tree_size_in in Hk; lia. }
  assert (C2 : (List.length K2 <= f)%nat).
  { pose proof (tree_size_count pre). pose proof (tree_size_count post).
    assert (List.length (K1 ++ K2) = List.length (pre ++ post)) by now rewrite EK.
    rewrite !length_app in *. lia. }
  assert (EPQ : P ++ Q = flat_map encode K1 ++ flat_map encode K2).
  { unfold P, Q. now rewrite <- !flat_map_app, EK. }
  rewrite EPQ. unfold delta. rewrite EPQ. clear delta.
  set (F1 := flat_map encode K1) in *. set (F2 := flat_map encode K2) in *.
  cbn [ast_skip_tree]. rewrite <- app_comm_cons, fetch_tag_app. rstep.
  rewrite D. rstep. rewrite <- !app_assoc.
  rewrite (move_to_children_app x tag d data _ _ D). fold pl. rstep.
  rewrite mbuf_len_skip_slots by lia.
  (* the fixed children *)
  set (sl := skip_slots d _).
  assert (Lsl : mbuf_len sl = 2 * num_skips d)
    by (apply mbuf_len_skip_slots; lia).
  replace (x ++ tag :: pl ++ sl ++ F1 ++ F2 ++ y)
    with ((x ++ tag :: pl ++ sl) ++ F1 ++ F2 ++ y)
    by (rewrite <- app_assoc; cbn [app]; now rewrite <- !app_assoc).
  replace (mbuf_len x + 1 + mbuf_len pl + 2 * num_skips d)
    with (mbuf_len (x ++ tag :: pl ++ sl)) by (mlen; lia).
  fold n. rewrite <- L1.
  rewrite (walk_fixed f K1 IH1 W1) by (intros; apply SZ, in_or_app; now left).
  rstep. fold F1.
  destruct (Z.eqb_spec (num_skips d) 0) as [Z0 | N]; rstep.
  - (* no skips: no trailing children *)
    specialize (Wz Z0).
    assert (K2 = []) as E2.
    { apply length_zero_iff_nil.
      assert (List.length (K1 ++ K2) = List.length (pre ++ post)) by now rewrite EK.
      rewrite !length_app in *. lia. }
    unfold F2. rewrite E2. cbn [flat_map]. f_equal. mlen. lia.
  - (* skips: no payload, and the END skip bounds the trailing children *)
    assert (I : has_inlined d = false).
    { destruct (has_inlined d); [specialize (S eq_refl); lia | reflexivity]. }
    assert (Epl : pl = []) by (apply payload_plain; assumption).
    rewrite Epl in *. cbn [app]. mlen.
    replace ((x ++ tag :: sl) ++ F1 ++ F2 ++ y)
      with (x ++ tag :: sl ++ F1 ++ F2 ++ y)
      by (rewrite <- app_assoc; cbn [app]; reflexivity).
    unfold sl at 1. rewrite (get_skip_end x tag d _ _ D N). rstep.
    replace (x ++ tag :: sl ++ F1 ++ F2 ++ y)
      with ((x ++ tag :: sl ++ F1) ++ F2 ++ y)
      by (rewrite <- app_assoc; cbn [app]; now rewrite <- !app_assoc).
    match goal with
    | |- step_until _ _ ?e ?p = _ =>
        replace e with (mbuf_len (x ++ tag :: sl ++ F1) + mbuf_len F2)
          by (rewrite Epl; mlen; lia);
        replace p with (mbuf_len (x ++ tag :: sl ++ F1)) by (mlen; lia)
    end.
    unfold F2. rewrite (walk_trailing f K2 IH2 W2)
      by (try assumption; intros; apply SZ, in_or_app; now right).
    f_equal. mlen. lia.
Qed.

(** C1.  A well-formed tree is built by the writer, from any state of the
    buffer, and the bytes it appends are walked by [ast_skip_tree] from
    the tag byte to the first byte after the node, wherever these bytes
    stand in a buffer and whatever follows them, given fuel for the
    nodes of the tree.  In particular, for a root built from offset 0 the
    cursor ends on the buffer length. *)
Theorem skip_tree_lands_after_node (t : tree) (a : mbuf) :
  wf_tree t = true ->
  exists node : mbuf,
    build t a = Ok (a ++ node)
    /\ (forall (x y : mbuf) (fuel : nat),
           (tree_size t <= fuel)%nat ->
           ast_skip_tree fuel (x ++ node ++ y) (mbuf_len x)
           = Ok (mbuf_len x + mbuf_len node))
    /\ (forall a', build t [] = Ok a' ->
                   ast_skip_tree (tree_size t) a' 0 = Ok (mbuf_len a')).
Proof.
  intros W. exists (encode t). split; [now apply build_encode |].
  split; [intros x y fuel F; now apply skip_tree_encode |].
  intros a' B. rewrite (build_encode t W []) in B. inversion B; subst a'.
  pose proof (skip_tree_encode t W [] [] (tree_size t) (le_n _)) as H.
  rewrite app_nil_r in H. exact H.
Qed.

Lemma skip_tree_lands_after_node_witness :
  let ident_x := Node 20 [120] [] [] in
  let t := Node 1 [] []
             [Node 5 [] [] [ident_x; Node 35 [] [] []];
              Node 79 [] [ident_x] [Node 62 [] [ident_x] [Node 19 [49] [] []]]] in
  wf_tree t = true
  /\ exists a', build t [] = Ok a'
                /\ ast_skip_tree (tree_size t) a' 0 = Ok (mbuf_len a').
Proof.
  cbv zeta. split; [reflexivity |].
  destruct (skip_tree_lands_after_node
              (Node 1 [] []
                 [Node 5 [] [] [Node 20 [120] [] []; Node 35 [] [] []];
                  Node 79 [] [Node 20 [120] [] []]
                    [Node 62 [] [Node 20 [120] [] []] [Node 19 [49] [] []]]])
              [] eq_refl) as (node & B & _ & R).
  exists node. split; [exact B | apply R; exact B].
Defined.

(** The bytes of [if (x) return;] followed by [x (x - 1)] in a script *)
Example build_script_bytes :
  build (Node 1 [] []
           [Node 5 [] [] [Node 20 [120] [] []; Node 35 [] [] []];
            Node 79 [] [Node 20 [120] [] []]
              [Node 62 [] [Node 20 [120] [] []] [Node 19 [49] [] []]]]) []
  = Ok [1; 0; 26; 0; 0;
        5; 0; 8; 0; 0; 20; 1; 120; 35;
        79; 0; 12; 20; 1; 120; 62; 20; 1; 120; 19; 1; 49].
Proof. reflexivity. Qed.

(** * Properties of the date module *)

(** ** Days from years *)

(** C3, at a year the code gets wrong.  1968 is a leap year, 731 days
    before 1970: the specification's formula gives -731, and the code,
    whose [(y - 1969) / 4] is the integer quotient [-1 / 4 = 0], gives
    -730. *)
Theorem DayFromYear_1968 :
  ecma_DayFromYear 1968 = -730 /\ DayFromYear_spec 1968 = -731.
Proof. split; reflexivity. Qed.

(** From 1969 on the three quotients are of numbers that are not
    negative, and the code computes the specification's formula. *)
Lemma DayFromYear_from_1969 (y : Z) :
  1969 <= y -> ecma_DayFromYear y = DayFromYear_spec y.
Proof.
  intros H. unfold ecma_DayFromYear, DayFromYear_spec.
  rewrite !Z.quot_div_nonneg by lia. reflexivity.
Qed.

(** ** Strings longer than 100 bytes *)

(** C10.  [d_timeFromString] on a string of more than 100 bytes leaves
    the instant invalid and returns failure, whatever the string holds
    and whatever the host's parsers would make of it. *)
Theorem timeFromString_rejects_long (h : host) (str : list ascii)
    (buf_size : Z) :
  buf_size > 100 ->
  d_timeFromString h str buf_size = Ok (INVALID_TIME, false).
Proof.
  intros H. unfold d_timeFromString.
  destruct (Z.gtb_spec buf_size 100); [reflexivity | lia].
Qed.

Lemma timeFromString_rejects_long_witness :
  let str := repeat " "%char 80
             ++ list_ascii_of_string "2015-03-05T10:20:30.400Z" in
  Z.of_nat (List.length str) = 104
  /\ d_parsedatestr utc_host str
     = (true, mk_timeparts 2015 3 5 10 20 30 400 0, 0)
  /\ d_timeFromString utc_host str 104 = Ok (INVALID_TIME, false).
Proof.
  cbv zeta. split; [reflexivity |]. split; [reflexivity |].
  apply (timeFromString_rejects_long utc_host). lia.
Defined.

(** Within the limit the same date is parsed. *)
Example timeFromString_iso :
  d_timeFromString utc_host (list_ascii_of_string "2015-03-05T10:20:30.400Z") 24
  = Ok (Some 1425550830400, true).
Proof. reflexivity. Qed.

(** ** The constructor *)

(** C6, at arguments the code gets wrong.  [new Date (2000, 0, 0)]: the
    day is supplied and is 0, the code takes it for missing and puts 1,
    and stores the first of January 2000, where the fields of the
    arguments make the last of December 1999. *)
Theorem Date_ctor_day_zero (h : host) :
  Date_ctor_parts h [Some 2000; Some 0; Some 0]
  = Ok (Some (ecma_UTC h 946684800000))
  /\ Date_ctor_spec h [2000; 0; 0] = Ok (Some (ecma_UTC h 946598400000))
  /\ ecma_UTC h 946684800000 <> ecma_UTC h 946598400000.
Proof.
  split; [reflexivity |]. split; [reflexivity |].
  unfold ecma_UTC, ecma_DaylightSavingTA, msPerHour.
  destruct (tm_isdst h _), (tm_isdst h _); lia.
Qed.

(** Array reads and writes at constant indices, evaluated in place *)
Ltac eval_args :=
  repeat match goal with
         | |- context [ctor_args ?v ?i ?a] =>
             let r := eval vm_compute in (ctor_args v i a) in
             change (ctor_args v i a) with r
         | |- context [arg_at ?a ?i] =>
             let r := eval vm_compute in (arg_at a i) in
             change (arg_at a i) with r
         | |- context [arg_store ?a ?i (Some ?v)] =>
             let w := fresh "w" in
             let E := fresh "E" in
             remember v as w eqn:E;
             let r := eval vm_compute in (arg_store a i (Some w)) in
             change (arg_store a i (Some w)) with r;
             subst w
         end.

(** With a day that is not 0 the code does what the specification says,
    for two to seven arguments that an [int] holds (the fields are cast
    to [int]). *)
Lemma Date_ctor_as_specified (h : host) (vals : list Z) :
  Forall (fun v => - 2147483648 <= v <= 2147483647) vals ->
  (2 <= List.length vals <= 7)%nat ->
  nth 2 vals 1 <> 0 ->
  Date_ctor_parts h (map Some vals) = Date_ctor_spec h vals.
Proof.
  intros _ L D.
  destruct vals as [| a [| b [| c [| d [| e [| f [| g [| ? ?]]]]]]]];
    cbn [List.length] in L; try lia;
    cbn [nth] in D;
    unfold Date_ctor_parts, Date_ctor_spec; cbn [map nth repeat];
    repeat (progress (eval_args; rstep)); unfold double_eq, double_ne;
    try match goal with
        | |- context [?x =? 0] => destruct (Z.eqb_spec x 0); [contradiction |]
        end;
    cbn [negb Z.eqb]; repeat (progress (eval_args; rstep));
    rewrite Z.geb_leb;
    (destruct ((0 <=? a) && (a <=? 99)); repeat (progress (eval_args; rstep));
     unfold d_changepartoftime; rstep;
     cbn [change_parts set_part tp_zero year month day hour min sec msec
            dayofweek];
     unfold d_gmktime, d_mktime_impl;
     cbn [year month day hour min sec msec dayofweek];
     rewrite ?(Z.add_comm a 1900);
     destruct (ecma_MakeDay _ _ _); reflexivity).
Qed.

(** ** The locale *)


(** ** The ISO format, before year 0 and before 1970 *)

(** C7, at an instant the code gets wrong.  For an instant that the code
    places in year -2 the formatter writes two sign characters and five
    digits: the ['-'] it stores itself, and the one [%06d] prints for a
    negative number, which takes a column of the six. *)
Theorem timetoISOstr_negative_year :
  d_timetoISOstr (-62198755200000) 30
  = Ok (list_ascii_of_string "--00002-12-31T00:00:00.000Z", 27).
Proof. reflexivity. Qed.

(** C4, at an instant the code gets wrong.  One millisecond before 1970
    the hour, minute, second and millisecond come out as -1 each, the
    formatter writes them so, and the parser, which reads all seven
    fields, rejects the hour: the instant that comes back is invalid,
    on every host. *)
Theorem iso_roundtrip_fails_before_1970 (h : host) :
  Date_toISOString (-1)
  = Ok (list_ascii_of_string "1969-12-31T-1:-1:-1.-01Z")
  /\ d_timeFromString h (list_ascii_of_string "1969-12-31T-1:-1:-1.-01Z") 24
     = Ok (INVALID_TIME, true).
Proof. split; reflexivity. Qed.

(** ** The calendar from 1970 on *)

Lemma DayFromYear_step (y : Z) :
  1969 <= y -> ecma_DayFromYear (y + 1) - ecma_DayFromYear y = ecma_DaysInYear y.
Proof.
  intros H. rewrite !DayFromYear_from_1969 by lia.
  unfold DayFromYear_spec, ecma_DaysInYear.
  rewrite !Z.rem_mod_nonneg by lia.
  destruct (Z.eqb_spec (y mod 4) 0), (Z.eqb_spec (y mod 100) 0),
    (Z.eqb_spec (y mod 400) 0); cbn [negb andb];
    Z.div_mod_to_equations; lia.
Qed.

Lemma DaysInYear_cases (y : Z) : ecma_DaysInYear y = 365 \/ ecma_DaysInYear y = 366.
Proof.
  unfold ecma_DaysInYear.
  destruct (Z.rem y 4 =? 0), (Z.rem y 100 =? 0), (Z.rem y 400 =? 0);
    cbn [negb andb]; auto.
Qed.

Lemma DayFromYear_mono (a b : Z) :
  1969 <= a -> a < b -> ecma_DayFromYear a < ecma_DayFromYear b.
Proof.
  intros H L. rewrite !DayFromYear_from_1969 by lia.
  unfold DayFromYear_spec. Z.div_mod_to_equations. lia.
Qed.

Lemma DayFromYear_bounds (y : Z) :
  1970 <= y ->
  365 * (y - 1970) <= ecma_DayFromYear y <= 366 * (y - 1970).
Proof.
  intros H. rewrite DayFromYear_from_1969 by lia.
  unfold DayFromYear_spec. Z.div_mod_to_equations. lia.
Qed.

Lemma TimeFromYear_mono (a b : Z) :
  1969 <= a -> a < b -> ecma_TimeFromYear a < ecma_TimeFromYear b.
Proof.
  intros H L. pose proof (DayFromYear_mono a b H L).
  unfold ecma_TimeFromYear, msPerDay. lia.
Qed.

(** The loop of [ecma_YearFromTime_s] ends, on every instant and every
    interval, within the fuel of the interval's width. *)
Lemma year_search_total (fuel : nat) :
  forall t first last,
    (Z.to_nat (last - first) < fuel)%nat ->
    exists y, year_search fuel t first last = Ok y.
Proof.
  induction fuel as [| f IH]; intros t first last F; [lia |].
  cbn [year_search]. destruct (Z.gtb_spec last first) as [G | G];
    [| eexists; reflexivity].
  set (middle := Z.quot (last + first) 2).
  assert (M : first <= middle <= last).
  { unfold middle. destruct (Z.le_gt_cases 0 (last + first)).
    - rewrite Z.quot_div_nonneg by lia. Z.div_mod_to_equations. lia.
    - pose proof (Z.quot_opp_l (last + first) 2 ltac:(lia)) as Q.
      assert (E : Z.quot (last + first) 2 = - ((- (last + first)) / 2)).
      { rewrite <- Z.quot_div_nonneg by lia. rewrite Z.quot_opp_l by lia. lia. }
      rewrite E. Z.div_mod_to_equations. lia. }
  destruct (Z.gtb_spec (ecma_TimeFromYear middle) t).
  - apply IH. lia.
  - destruct (Z.leb_spec (ecma_TimeFromYear middle) t); [| lia].
    destruct (Z.gtb_spec (ecma_TimeFromYear (middle + 1)) t);
      [eexists; reflexivity |].
    apply IH. lia.
Qed.

Lemma YearFromTime_total (t : Z) : exists y, ecma_YearFromTime_s t = Ok y.
Proof.
  unfold ecma_YearFromTime_s.
  destruct (_ <? _); apply year_search_total; lia.
Qed.

(** From 1970 on the loop keeps the year of [t] between [first] and
    [last], and returns it. *)
Lemma year_search_correct (fuel : nat) :
  forall t first last,
    1970 <= first ->
    ecma_TimeFromYear first <= t < ecma_TimeFromYear (last + 1) ->
    (Z.to_nat (last - first) < fuel)%nat ->
    exists y,
      year_search fuel t first last = Ok y
      /\ first <= y <= last
      /\ ecma_TimeFromYear y <= t < ecma_TimeFromYear (y + 1).
Proof.
  induction fuel as [| f IH]; intros t first last H I F; [lia |].
  assert (FL : first <= last).
  { destruct (Z.le_gt_cases first last); [assumption |].
    assert (ecma_TimeFromYear (last + 1) <= ecma_TimeFromYear first).
    { destruct (Z.eq_dec (last + 1) first) as [-> | N]; [lia |].
      pose proof (DayFromYear_bounds first H).
      destruct (Z.le_gt_cases 1969 (last + 1)).
      - pose proof (TimeFromYear_mono (last + 1) first). lia.
      - exfalso. clear IH.
        assert (ecma_TimeFromYear (last + 1) <= 0).
        { unfold ecma_TimeFromYear, ecma_DayFromYear, msPerDay.
          assert (Z.quot (last + 1 - 1969) 4 <= 0)
            by (apply Z.quot_le_upper_bound; lia).
          assert (- Z.quot (last + 1 - 1901) 100 <= (1968 - last) / 100 + 1).
          { destruct (Z.le_gt_cases 0 (last + 1 - 1901)).
            - rewrite Z.quot_div_nonneg by lia. Z.div_mod_to_equations. lia.
            - replace (last + 1 - 1901) with (- (1900 - last)) by lia.
              rewrite Z.quot_opp_l, Z.quot_div_nonneg by lia.
              Z.div_mod_to_equations. lia. }
          assert (Z.quot (last + 1 - 1601) 400 <= 0 \/
                  Z.quot (last + 1 - 1601) 400 = 0).
          { destruct (Z.le_gt_cases 0 (last + 1 - 1601)).
            - right. rewrite Z.quot_div_nonneg by lia.
              Z.div_mod_to_equations. lia.
            - left. apply Z.quot_le_upper_bound; lia. }
          Z.div_mod_to_equations. lia. }
        unfold ecma_TimeFromYear, msPerDay in *. lia. }
    lia. }
  cbn [year_search]. destruct (Z.gtb_spec last first) as [G | G].
  2:{ exists first. replace last with first in * by lia. repeat split; lia. }
  rewrite Z.quot_div_nonneg by lia.
  set (middle := (last + first) / 2).
  assert (M : first <= middle < last)
    by (unfold middle; Z.div_mod_to_equations; lia).
  destruct (Z.gtb_spec (ecma_TimeFromYear middle) t).
  - destruct (IH t first (middle - 1)) as (y & E & R & S); try lia.
    + replace (middle - 1 + 1) with middle by lia. lia.
    + exists y. repeat split; try assumption; lia.
  - destruct (Z.leb_spec (ecma_TimeFromYear middle) t); [| lia].
    destruct (Z.gtb_spec (ecma_TimeFromYear (middle + 1)) t).
    + exists middle. repeat split; lia.
    + destruct (IH t (middle + 1) last) as (y & E & R & S); try lia.
      exists y. repeat split; try assumption; lia.
Qed.

Lemma YearFromTime_correct (t : Z) :
  0 <= t ->
  exists y,
    ecma_YearFromTime_s t = Ok y
    /\ 1970 <= y <= t / (msPerDay * 365) + 1970
    /\ ecma_TimeFromYear y <= t < ecma_TimeFromYear (y + 1).
Proof.
  intros H. unfold ecma_YearFromTime_s.
  set (first := t / (msPerDay * 366) + 1970).
  set (last := t / (msPerDay * 365) + 1970).
  assert (B : 1970 <= first <= last).
  { unfold first, last, msPerDay. Z.div_mod_to_equations. lia. }
  destruct (Z.ltb_spec last first); [lia |].
  destruct (year_search_correct (S (Z.to_nat (last - first))) t first last)
    as (y & E & R & S); try lia.
  - pose proof (DayFromYear_bounds first ltac:(lia)).
    pose proof (DayFromYear_bounds (last + 1) ltac:(lia)).
    unfold ecma_TimeFromYear. unfold first, last, msPerDay in *.
    Z.div_mod_to_equations. lia.
  - exists y. repeat split; try assumption; lia.
Qed.

(** The day within the year of [t] *)
Lemma DayWithinYear_range (t y : Z) :
  1970 <= y ->
  ecma_TimeFromYear y <= t < ecma_TimeFromYear (y + 1) ->
  0 <= ecma_DayWithinYear t y < ecma_DaysInYear y.
Proof.
  intros H [L U]. pose proof (DayFromYear_step y ltac:(lia)) as S.
  unfold ecma_DayWithinYear, ecma_Day, ecma_TimeFromYear, msPerDay in *.
  Z.div_mod_to_equations. lia.
Qed.

(** The month of a day within the year: its first day is not after the
    day, the first day of the next month is, and it has at most 31 days. *)
Lemma month_scan_correct (leap : bool) (dwy : Z) :
  0 <= dwy < (if leap then 366 else 365) ->
  let days := ecma_getfirstdays leap in
  let m := month_scan 12 0 days dwy in
  0 <= m <= 11
  /\ exists first, days_at days m = Ok first
                   /\ 0 <= dwy - first < 31.
Proof.
  intros R. cbv zeta.
  destruct leap; unfold ecma_getfirstdays, sdays;
    cbn [firstn skipn map app]; unfold month_scan;
    repeat match goal with
           | |- context [Z.to_nat ?n] =>
               let r := eval vm_compute in (Z.to_nat n) in
               change (Z.to_nat n) with r
           | |- context [?a + ?b] =>
               let r := eval vm_compute in (a + b) in
               change (a + b) with r
           end;
    cbn [nth];
    repeat match goal with
           | |- context [dwy >=? ?c] =>
               destruct (Z.geb_spec dwy c); [| lia]
           | |- context [dwy <? ?c] =>
               destruct (Z.ltb_spec dwy c);
               [cbn [andb]; split; [lia |];
                eexists; split; [reflexivity | lia] |]
           end; try lia.
Qed.

(** The time of day of an instant from 1970 on *)
Lemma time_fields (t : Z) :
  0 <= t ->
  0 <= ecma_HourFromTime t <= 23
  /\ 0 <= ecma_MinFromTime t <= 59
  /\ 0 <= ecma_SecFromTime t <= 59
  /\ 0 <= ecma_msFromTime t <= 999
  /\ ecma_MakeDate (ecma_Day t)
       (ecma_MakeTime (ecma_HourFromTime t) (ecma_MinFromTime t)
          (ecma_SecFromTime t) (ecma_msFromTime t)) = t.
Proof.
  intros H.
  unfold ecma_HourFromTime, ecma_MinFromTime, ecma_SecFromTime,
    ecma_msFromTime, ecma_MakeDate, ecma_MakeTime, ecma_Day, msPerDay,
    msPerHour, msPerMinute, msPerSecond, HoursPerDay, MinutesPerHour,
    SecondsPerMinute.
  assert (0 <= t / 3600000) by (apply Z.div_pos; lia).
  assert (0 <= t / 60000) by (apply Z.div_pos; lia).
  assert (0 <= t / 1000) by (apply Z.div_pos; lia).
  rewrite !Z.rem_mod_nonneg by lia.
  Z.div_mod_to_equations. lia.
Qed.

(** [d_gmtime] and [d_gmktime] from 1970 on: the fields are in their
    ranges, and the instant is made again from them. *)
Lemma gmtime_gmktime (t : Z) :
  0 <= t ->
  exists tp,
    d_gmtime t = Ok tp
    /\ 1970 <= year tp <= t / (msPerDay * 365) + 1970
    /\ 0 <= month tp <= 11
    /\ 1 <= day tp <= 31
    /\ 0 <= hour tp <= 23
    /\ 0 <= min tp <= 59
    /\ 0 <= sec tp <= 59
    /\ 0 <= msec tp <= 999
    /\ d_gmktime tp = Ok t.
Proof.
  intros H.
  destruct (YearFromTime_correct t H) as (y & EY & RY & IY).
  pose proof (DayWithinYear_range t y ltac:(lia) IY) as RD.
  assert (RL : 0 <= ecma_DayWithinYear t y
               < (if ecma_InLeapYear t y then 366 else 365)).
  { unfold ecma_InLeapYear.
    destruct (DaysInYear_cases y) as [E | E]; rewrite E in *; cbn; lia. }
  destruct (month_scan_correct _ _ RL) as (RM & first & EF & RF).
  destruct (time_fields t H) as (Rh & Rm & Rs & Rms & ET).
  unfold d_gmtime. rewrite EY. rstep.
  unfold ecma_DateFromTime, ecma_MonthFromTime.
  set (m := month_scan 12 0 _ _) in *.
  destruct (Z.gtb_spec m 11); [lia |]. rewrite EF. rstep.
  eexists. split; [reflexivity |].
  cbn [year month day hour min sec msec].
  repeat (split; [lia |]).
  unfold d_gmktime, d_mktime_impl, ecma_MakeDay.
  cbn [year month day hour min sec msec].
  rewrite Z.quot_small, Z.rem_small, Z.add_0_r by lia.
  unfold ecma_InLeapYear in EF. rewrite EF. rstep.
  unfold ecma_TimeFromYear. rewrite Z.mul_comm, Z.quot_mul by (unfold msPerDay; lia).
  f_equal. etransitivity; [| exact ET]. f_equal.
  unfold ecma_DayWithinYear. lia.
Qed.

(** ** Printing and scanning integers *)

Lemma digit_char_code (d : Z) :
  0 <= d <= 9 -> nat_of_ascii (digit_char d) = (48 + Z.to_nat d)%nat.
Proof. intros H. unfold digit_char. apply nat_ascii_embedding. lia. Qed.

Lemma digit_char_isdigit (d : Z) : 0 <= d <= 9 -> isdigit (digit_char d) = true.
Proof.
  intros H. unfold isdigit. rewrite digit_char_code by assumption.
  apply andb_true_iff. split; apply Nat.leb_le; lia.
Qed.

Lemma isdigit_not_space (c : ascii) : isdigit c = true -> isspace c = false.
Proof.
  unfold isdigit, isspace. intros H. apply andb_true_iff in H as [L U].
  apply Nat.leb_le in L. apply orb_false_iff. split.
  - apply Nat.eqb_neq. lia.
  - apply andb_false_iff. right. apply Nat.leb_gt. lia.
Qed.

Lemma isdigit_not_sign (c : ascii) :
  isdigit c = true -> Ascii.eqb c "-" = false /\ Ascii.eqb c "+" = false.
Proof.
  intros H. split.
  - destruct (Ascii.eqb_spec c "-"); [subst; discriminate | reflexivity].
  - destruct (Ascii.eqb_spec c "+"); [subst; discriminate | reflexivity].
Qed.

Lemma digits_value_snoc (ds : list ascii) (c : ascii) :
  digits_value (ds ++ [c])
  = 10 * digits_value ds + (Z.of_nat (nat_of_ascii c) - 48).
Proof. unfold digits_value. rewrite fold_left_app. reflexivity. Qed.

Lemma dec_digits_acc (f : nat) :
  forall n acc, dec_digits f n acc = dec_digits f n [] ++ acc.
Proof.
  induction f as [| f IH]; intros n acc; cbn [dec_digits]; [reflexivity |].
  destruct (n <? 10); [reflexivity |].
  rewrite (IH _ (_ :: acc)), (IH _ [_]), <- app_assoc. reflexivity.
Qed.

Lemma dec_digits_S (f : nat) (n : Z) (acc : list ascii) :
  dec_digits (S f) n acc
  = if n <? 10 then digit_char (n mod 10) :: acc
    else dec_digits f (n / 10) (digit_char (n mod 10) :: acc).
Proof. reflexivity. Qed.

Lemma dec_digits_spec (f : nat) :
  forall n,
    0 <= n < 2 ^ (Z.of_nat f + 1) ->
    let ds := dec_digits (S f) n [] in
    all_digits ds
    /\ digits_value ds = n
    /\ (1 <= List.length ds)%nat
    /\ (forall k : nat, (1 <= k)%nat -> n < 10 ^ Z.of_nat k ->
                        (List.length ds <= k)%nat).
Proof.
  induction f as [| f IH]; intros n R; cbv zeta; rewrite dec_digits_S.
  - change (2 ^ (Z.of_nat 0 + 1)) with 2 in R.
    destruct (Z.ltb_spec n 10); [| lia].
    rewrite Z.mod_small by lia. repeat split.
    + constructor; [apply digit_char_isdigit; lia | constructor].
    + unfold digits_value. cbn [fold_left].
      rewrite digit_char_code by lia. lia.
    + cbn. lia.
    + intros k K _. cbn. lia.
  - pose proof (Z.mod_pos_bound n 10 ltac:(lia)) as M.
    destruct (Z.ltb_spec n 10).
    + rewrite Z.mod_small by lia. repeat split.
      * constructor; [apply digit_char_isdigit; lia | constructor].
      * unfold digits_value. cbn [fold_left].
        rewrite digit_char_code by lia. lia.
      * cbn. lia.
      * intros k K _. cbn. lia.
    + rewrite dec_digits_acc.
      assert (P : 2 ^ (Z.of_nat (S f) + 1) = 2 * 2 ^ (Z.of_nat f + 1)).
      { rewrite <- Z.pow_succ_r by lia. f_equal. lia. }
      assert (Q : 0 < 2 ^ (Z.of_nat f + 1)) by (apply Z.pow_pos_nonneg; lia).
      destruct (IH (n / 10)) as (D & V & L & B).
      { split; [apply Z.div_pos; lia |]. apply Z.div_lt_upper_bound; lia. }
      cbv zeta in D, V, L, B. repeat split.
      * apply Forall_app. split; [exact D |].
        constructor; [apply digit_char_isdigit; lia | constructor].
      * rewrite digits_value_snoc, V, digit_char_code by lia.
        pose proof (Z.div_mod n 10 ltac:(lia)). lia.
      * rewrite length_app. cbn. lia.
      * intros k K N. rewrite length_app. cbn [List.length].
        destruct k as [| [| k]];
          [lia | change (10 ^ Z.of_nat 1) with 10 in N; lia |].
        assert (List.length (dec_digits (S f) (n / 10) []) <= S k)%nat.
        { apply B; [lia |]. apply Z.div_lt_upper_bound; [lia |].
          rewrite <- Z.pow_succ_r by lia.
          replace (Z.succ (Z.of_nat (S k))) with (Z.of_nat (S (S k))) by lia.
          exact N. }
        lia.
Qed.

Lemma decimal_spec (n : Z) :
  0 <= n ->
  all_digits (decimal n)
  /\ digits_value (decimal n) = n
  /\ (1 <= List.length (decimal n))%nat
  /\ (forall k : nat, (1 <= k)%nat -> n < 10 ^ Z.of_nat k ->
                      (List.length (decimal n) <= k)%nat).
Proof.
  intros H. unfold decimal. apply dec_digits_spec. now apply log2_fuel.
Qed.

Lemma digits_value_zeros (j : nat) (ds : list ascii) :
  digits_value (repeat "0"%char j ++ ds) = digits_value ds.
Proof.
  unfold digits_value. rewrite fold_left_app. f_equal.
  induction j as [| j IH]; [reflexivity |]. cbn [repeat fold_left].
  exact IH.
Qed.

(** [%0wd] of a number of at most [w] digits: [w] digits, whose value is
    the number *)
Lemma printf_0d_spec (w : nat) (n : Z) :
  (1 <= w)%nat -> 0 <= n < 10 ^ Z.of_nat w ->
  all_digits (printf_0d w n)
  /\ digits_value (printf_0d w n) = n
  /\ List.length (printf_0d w n) = w.
Proof.
  intros W R. destruct (decimal_spec n ltac:(lia)) as (D & V & L & B).
  specialize (B w W ltac:(lia)).
  unfold printf_0d. destruct (Z.ltb_spec n 0); [lia |]. unfold zero_pad.
  repeat split.
  - apply Forall_app. split; [| exact D].
    apply Forall_forall. intros c I. apply repeat_spec in I. now subst c.
  - now rewrite digits_value_zeros.
  - rewrite length_app, repeat_length. lia.
Qed.

Lemma skip_space_nonspace (c : ascii) (s : list ascii) :
  isspace c = false -> skip_space (c :: s) = c :: s.
Proof. intros H. cbn [skip_space]. now rewrite H. Qed.

Lemma take_digits_width (ds rest : list ascii) :
  all_digits ds ->
  take_digits (Some (List.length ds)) (ds ++ rest) = (ds, rest).
Proof.
  induction 1 as [| c ds C _ IH]; cbn [List.length app].
  - destruct rest; reflexivity.
  - cbn [take_digits width_left width_pred option_map pred andb].
    now rewrite C, IH.
Qed.

Lemma take_digits_free (ds rest : list ascii) :
  all_digits ds -> stops_digits rest ->
  take_digits None (ds ++ rest) = (ds, rest).
Proof.
  intros D S. induction D as [| c ds C _ IH]; cbn [app].
  - destruct rest as [| c rest]; [reflexivity |]. cbn in S |- *.
    now rewrite S.
  - cbn [take_digits width_left width_pred option_map andb].
    cbn [width_pred option_map] in IH. now rewrite C, IH.
Qed.

Lemma scan_int_taken (w : option nat) (ds rest : list ascii) :
  all_digits ds -> ds <> [] -> width_left w = true ->
  take_digits w (ds ++ rest) = (ds, rest) ->
  scan_int w (ds ++ rest) = Some (digits_value ds, rest).
Proof.
  intros D N W T. destruct ds as [| c ds]; [contradiction |].
  inversion D as [| ? ? C _]; subst.
  destruct (isdigit_not_sign c C) as [M P].
  unfold scan_int. cbn [app] in *.
  rewrite skip_space_nonspace by now apply isdigit_not_space.
  rewrite W, M, P, T. reflexivity.
Qed.

Lemma scan_int_width (w : nat) (ds rest : list ascii) :
  all_digits ds -> List.length ds = w -> (1 <= w)%nat ->
  scan_int (Some w) (ds ++ rest) = Some (digits_value ds, rest).
Proof.
  intros D L W. apply scan_int_taken; try assumption.
  - destruct ds; [cbn in L; lia | discriminate].
  - destruct w; [lia | reflexivity].
  - rewrite <- L. now apply take_digits_width.
Qed.

Lemma scan_int_free (ds rest : list ascii) :
  all_digits ds -> ds <> [] -> stops_digits rest ->
  scan_int None (ds ++ rest) = Some (digits_value ds, rest).
Proof.
  intros D N S. apply scan_int_taken; try assumption; [reflexivity |].
  now apply take_digits_free.
Qed.

Lemma scan_int_plus (ds rest : list ascii) :
  all_digits ds -> ds <> [] -> stops_digits rest ->
  scan_int None ("+"%char :: ds ++ rest) = Some (digits_value ds, rest).
Proof.
  intros D N S. unfold scan_int.
  rewrite skip_space_nonspace by reflexivity.
  cbn [width_left width_pred option_map].
  change (Ascii.eqb "+" "-") with false. change (Ascii.eqb "+" "+") with true.
  cbv iota. rewrite take_digits_free by assumption.
  destruct ds; [contradiction | reflexivity].
Qed.

(** The ISO format read back: a year, with a plus sign or without, and
    six fields of two, two, two, two, two and three digits *)
Lemma sscanf_iso (plus : bool) (Y M D H Mi S Ms : list ascii) :
  all_digits Y -> Y <> [] ->
  all_digits M -> List.length M = 2%nat ->
  all_digits D -> List.length D = 2%nat ->
  all_digits H -> List.length H = 2%nat ->
  all_digits Mi -> List.length Mi = 2%nat ->
  all_digits S -> List.length S = 2%nat ->
  all_digits Ms -> List.length Ms = 3%nat ->
  sscanf frmISOString
    ((if plus then ["+"%char] else [])
     ++ Y ++ "-"%char :: M ++ "-"%char :: D ++ "T"%char :: H
     ++ ":"%char :: Mi ++ ":"%char :: S ++ "."%char :: Ms ++ ["Z"%char])
  = map digits_value [Y; M; D; H; Mi; S; Ms].
Proof.
  intros DY NY DM LM DD LD DH LH DMi LMi DS LS DMs LMs.
  unfold frmISOString. cbn [sscanf map].
  assert (E : scan_int None
                (skip_space
                   ((if plus then ["+"%char] else [])
                    ++ Y ++ "-"%char :: M ++ "-"%char :: D ++ "T"%char :: H
                    ++ ":"%char :: Mi ++ ":"%char :: S ++ "."%char :: Ms
                    ++ ["Z"%char]))
              = Some (digits_value Y,
                      "-"%char :: M ++ "-"%char :: D ++ "T"%char :: H
                      ++ ":"%char :: Mi ++ ":"%char :: S ++ "."%char :: Ms
                      ++ ["Z"%char])).
  { destruct plus; cbn [app].
    - rewrite skip_space_nonspace by reflexivity.
      apply scan_int_plus; try assumption. reflexivity.
    - destruct Y as [| c Y]; [contradiction |].
      inversion DY as [| ? ? C _]; subst. cbn [app].
      rewrite skip_space_nonspace by now apply isdigit_not_space.
      apply (scan_int_free (c :: Y)); try assumption. reflexivity. }
  rewrite E. cbv iota beta.
  change (Ascii.eqb "-" "-") with true. cbv iota.
  rewrite (scan_int_width 2 M) by (assumption || lia). cbv iota beta.
  change (Ascii.eqb "-" "-") with true. cbv iota.
  rewrite (scan_int_width 2 D) by (assumption || lia). cbv iota beta.
  change (Ascii.eqb "T" "T") with true. cbv iota.
  rewrite (scan_int_width 2 H) by (assumption || lia). cbv iota beta.
  change (Ascii.eqb ":" ":") with true. cbv iota.
  rewrite (scan_int_width 2 Mi) by (assumption || lia). cbv iota beta.
  change (Ascii.eqb ":" ":") with true. cbv iota.
  rewrite (scan_int_width 2 S) by (assumption || lia). cbv iota beta.
  change (Ascii.eqb "." ".") with true. cbv iota.
  rewrite (scan_int_width 3 Ms) by (assumption || lia). cbv iota beta.
  change (Ascii.eqb "Z" "Z") with true. cbv iota.
  reflexivity.
Qed.

(** ** The ISO format from 1970 on *)

Lemma iso_tail_length (tp : timeparts) :
  0 <= month tp <= 11 -> 1 <= day tp <= 31 -> 0 <= hour tp <= 23 ->
  0 <= min tp <= 59 -> 0 <= sec tp <= 59 -> 0 <= msec tp <= 999 ->
  List.length (iso_tail tp) = 20%nat.
Proof.
  intros Rm Rd Rh Rmi Rs Rms. unfold iso_tail.
  destruct (printf_0d_spec 2 (month tp + 1)) as (_ & _ & L1); [lia | simpl; lia |].
  destruct (printf_0d_spec 2 (day tp)) as (_ & _ & L2); [lia | simpl; lia |].
  destruct (printf_0d_spec 2 (hour tp)) as (_ & _ & L3); [lia | simpl; lia |].
  destruct (printf_0d_spec 2 (min tp)) as (_ & _ & L4); [lia | simpl; lia |].
  destruct (printf_0d_spec 2 (sec tp)) as (_ & _ & L5); [lia | simpl; lia |].
  destruct (printf_0d_spec 3 (msec tp)) as (_ & _ & L6); [lia | simpl; lia |].
  repeat (rewrite length_app || cbn [List.length]). lia.
Qed.

(** The year field of the ISO format for an instant from 1970 to the end
    of the ECMAScript range: four digits up to year 9999, and a plus sign
    and six digits after. *)
Lemma iso_year_field (t : Z) :
  0 <= t <= 8640000000000000 ->
  exists tp Y,
    d_gmtime t = Ok tp
    /\ Date_toISOString t
       = Ok ((if year tp <=? 9999 then [] else ["+"%char]) ++ Y ++ iso_tail tp)
    /\ all_digits Y
    /\ digits_value Y = year tp
    /\ List.length Y = if year tp <=? 9999 then 4%nat else 6%nat.
Proof.
  intros R. destruct (gmtime_gmktime t ltac:(lia))
    as (tp & G & Ry & Rm & Rd & Rh & Rmi & Rs & Rms & _).
  assert (Y6 : year tp < 10 ^ 6).
  { unfold msPerDay in Ry. change (10 ^ 6) with 1000000.
    assert (t / (86400000 * 365) <= 273973)
      by (apply Z.div_le_upper_bound; lia).
    lia. }
  pose proof (iso_tail_length tp Rm Rd Rh Rmi Rs Rms) as LT.
  exists tp. unfold Date_toISOString, d_timetoISOstr. rewrite G. rstep.
  unfold abs. rewrite Z.abs_eq by lia.
  destruct (Z.ltb_spec (year tp) 0); [lia |]. rewrite orb_false_r.
  destruct (Z.gtb_spec (year tp) 0); [| lia].
  destruct (Z.leb_spec (year tp) 9999) as [S | B].
  - destruct (Z.gtb_spec (year tp) 9999); [lia |].
    destruct (printf_0d_spec 4 (year tp)) as (D & V & L);
      [lia | change (10 ^ Z.of_nat 4) with 10000; lia |].
    exists (printf_0d 4 (year tp)).
    assert (LL : List.length (printf_0d 4 (year tp) ++ iso_tail tp) = 24%nat)
      by (rewrite length_app, L, LT; reflexivity).
    cbn [app]. rewrite firstn_all2 by (rewrite LL; simpl; lia).
    rewrite LL. change (Z.of_nat 24 + 0 <=? Z.of_nat 24) with true.
    cbv iota. rewrite firstn_all2 by (rewrite LL; simpl; lia).
    repeat split; assumption.
  - destruct (Z.gtb_spec (year tp) 9999); [| lia].
    destruct (printf_0d_spec 6 (year tp)) as (D & V & L);
      [lia | split; [lia | exact Y6] |].
    exists (printf_0d 6 (year tp)).
    assert (LL : List.length (printf_0d 6 (year tp) ++ iso_tail tp) = 26%nat)
      by (rewrite length_app, L, LT; reflexivity).
    rewrite firstn_all2 by (rewrite LL; simpl; lia).
    cbn [app List.length]. rewrite LL.
    change (Z.of_nat 26 + 1 <=? Z.of_nat 27) with true. cbv iota.
    change (Z.to_nat (Z.of_nat 26 + 1)) with 27%nat.
    rewrite firstn_all2 by (cbn [List.length]; rewrite LL; lia).
    repeat split; assumption.
Qed.

(** X28.  The round trip through the ISO format, for the instants of
    whole milliseconds from 1970 to the end of the ECMAScript range: the
    string [Date_toISOString] makes of [t] is parsed back to [t], on every
    host. *)
Theorem iso_roundtrip_nonneg (h : host) (t : Z) :
  0 <= t <= 8640000000000000 ->
  exists s,
    Date_toISOString t = Ok s
    /\ d_timeFromString h s (Z.of_nat (List.length s)) = Ok (Some t, true).
Proof.
  intros R. destruct (gmtime_gmktime t ltac:(lia))
    as (tp & G & Ry & Rm & Rd & Rh & Rmi & Rs & Rms & K).
  destruct (iso_year_field t R) as (tp' & Y & G' & E & DY & VY & LY).
  rewrite G in G'. inversion G'; subst tp'; clear G'.
  pose proof (iso_tail_length tp Rm Rd Rh Rmi Rs Rms) as LT.
  eexists. split; [exact E |].
  destruct (printf_0d_spec 2 (month tp + 1)) as (D1 & V1 & L1); [lia | simpl; lia |].
  destruct (printf_0d_spec 2 (day tp)) as (D2 & V2 & L2); [lia | simpl; lia |].
  destruct (printf_0d_spec 2 (hour tp)) as (D3 & V3 & L3); [lia | simpl; lia |].
  destruct (printf_0d_spec 2 (min tp)) as (D4 & V4 & L4); [lia | simpl; lia |].
  destruct (printf_0d_spec 2 (sec tp)) as (D5 & V5 & L5); [lia | simpl; lia |].
  destruct (printf_0d_spec 3 (msec tp)) as (D6 & V6 & L6); [lia | simpl; lia |].
  assert (NY : Y <> []).
  { intros ->. destruct (year tp <=? 9999); discriminate. }
  unfold d_timeFromString.
  assert (LS : Z.of_nat
                 (List.length
                    ((if year tp <=? 9999 then [] else ["+"%char])
                     ++ Y ++ iso_tail tp)) <= 100).
  { rewrite !length_app, LY, LT. destruct (year tp <=? 9999); simpl; lia. }
  destruct (Z.gtb_spec (Z.of_nat (List.length
              ((if year tp <=? 9999 then [] else ["+"%char])
               ++ Y ++ iso_tail tp))) 100); [lia |].
  unfold d_parsedatestr, iso_tail.
  replace (if year tp <=? 9999 then [] else ["+"%char])
    with (if negb (year tp <=? 9999) then ["+"%char] else [])
    by (destruct (year tp <=? 9999); reflexivity).
  rewrite sscanf_iso by assumption.
  cbn [map List.length Nat.eqb assign_parts set_part tp_zero
         year month day hour min sec msec dayofweek].
  rewrite VY, V1, V2, V3, V4, V5, V6.
  replace (month tp + 1 - 1) with (month tp) by lia.
  repeat match goal with
         | |- context [?a >=? ?b] =>
             destruct (Z.geb_spec a b); [| lia]
         | |- context [?a <=? ?b] =>
             destruct (Z.leb_spec a b); [| lia]
         end.
  change (negb (0 =? NO_TZ) && (0 >? 12)) with false. cbv iota.
  change (abs 0 <=? 12) with true. change (0 =? NO_TZ) with false.
  cbn [andb orb].
  assert (K' : d_gmktime
                 {| year := year tp; month := month tp; day := day tp;
                    hour := hour tp; min := min tp; sec := sec tp;
                    msec := msec tp; dayofweek := 0 |} = Ok t).
  { rewrite <- K. destruct tp. reflexivity. }
  rewrite K'. rstep. cbn [double_ne INVALID_TIME].
  do 3 f_equal. unfold msPerHour. lia.
Qed.

(** ** The scenarios of the specification *)

(** [IF (cond = IDENT "x", iftrue = [RETURN], iffalse = [])], with the
    end of the true branch marked: the walk reaches the end of the
    buffer, and the two skips are equal. *)
Example if_scenario :
  exists a start,
    ('(a, start) <- ast_add_node [] 5 ;;
     a <- ast_add_inlined_node a 20 [120] ;;
     '(a, _) <- ast_add_node a 35 ;;
     '(a, _) <- ast_set_skip a start 1 ;;
     '(a, _) <- ast_set_skip a start AST_END_SKIP ;;
     Ok (a, start)) = Ok (a, start)
    /\ a = [5; 0; 8; 0; 8; 20; 1; 120; 35]
    /\ ast_skip_tree 2 a 0 = Ok (mbuf_len a)
    /\ ast_get_skip a start 1 = ast_get_skip a start AST_END_SKIP.
Proof. eexists. eexists. repeat split. Qed.

Example MakeDay_leap_day : ecma_MakeDay 2016 1 29 = Ok 16860.
Proof. reflexivity. Qed.

Example YearFromTime_epoch : ecma_YearFromTime_s 0 = Ok 1970.
Proof. reflexivity. Qed.

Example WeekDay_epoch : ecma_WeekDay 0 = 4.
Proof. reflexivity. Qed.

Example toISOString_epoch :
  Date_toISOString 0 = Ok (list_ascii_of_string "1970-01-01T00:00:00.000Z").
Proof. reflexivity. Qed.

Example parse_iso_fields :
  d_parsedatestr utc_host (list_ascii_of_string "2015-03-05T10:20:30.400Z")
  = (true, mk_timeparts 2015 3 5 10 20 30 400 0, 0).
Proof. reflexivity. Qed.

Example Date_ctor_two_digit_year :
  Date_ctor_parts utc_host [Some 99; Some 0; Some 1] = Ok (Some 915148800000).
Proof. reflexivity. Qed.

Example toISOString_year_10000 :
  Date_toISOString 253402300800000
  = Ok (list_ascii_of_string "+010000-01-01T00:00:00.000Z").
Proof. reflexivity. Qed.

(** * Further properties of the AST store *)

(** ** Patching and reading skips *)

Lemma byte_at_outside (x : mbuf) (b0 b1 v0 v1 : Z) (y : mbuf) (p : Z) :
  p <> mbuf_len x -> p <> mbuf_len x + 1 ->
  byte_at (x ++ v0 :: v1 :: y) p = byte_at (x ++ b0 :: b1 :: y) p.
Proof.
  intros N0 N1. unfold byte_at. destruct (Z.ltb_spec p 0); [reflexivity |].
  unfold mbuf_len in *.
  destruct (Nat.lt_ge_cases (Z.to_nat p) (List.length x)) as [L | G].
  - now rewrite !nth_error_app1 by assumption.
  - rewrite !nth_error_app2 by assumption.
    remember (Z.to_nat p - List.length x)%nat as k eqn:K.
    destruct k as [| [| k]]; [lia | lia | reflexivity].
Qed.

Lemma modify_skip_shape (a : mbuf) (start where_ which tag : Z)
    (d : ast_node_def) :
  byte_at a (start - 1) = Ok tag ->
  ast_def tag = Ok d ->
  0 <= which < num_skips d ->
  start + which * 2 + 1 < mbuf_len a ->
  exists x b0 b1 y,
    a = x ++ b0 :: b1 :: y
    /\ mbuf_len x = start + which * 2
    /\ ast_modify_skip a start where_ which
       = Ok (x ++ be16 ((where_ - start) mod 65536) ++ y, where_).
Proof.
  intros T D W R. pose proof (byte_at_range _ _ _ T) as S.
  destruct (two_bytes_split a (start + which * 2)) as (x & b0 & b1 & y & E & L);
    try lia.
  exists x, b0, b1, y. repeat split; try assumption. subst a.
  apply (modify_skip_patch x b0 b1 y start where_ which tag d); try assumption;
    lia.
Qed.

(** X1.  A skip patched by [ast_modify_skip] with a target at a distance
    that fits 16 bits is read back by [ast_get_skip] as that target; the
    buffer keeps its length. *)
Theorem modify_skip_get_skip (a : mbuf) (start where_ which tag : Z)
    (d : ast_node_def) :
  byte_at a (start - 1) = Ok tag ->
  ast_def tag = Ok d ->
  0 <= which < num_skips d ->
  start + which * 2 + 1 < mbuf_len a ->
  0 <= where_ - start < 65536 ->
  exists a',
    ast_modify_skip a start where_ which = Ok (a', where_)
    /\ mbuf_len a' = mbuf_len a
    /\ ast_get_skip a' start which = Ok where_.
Proof.
  intros T D W R B.
  destruct (modify_skip_shape a start where_ which tag d T D W R)
    as (x & b0 & b1 & y & -> & L & M).
  eexists. split; [exact M |]. unfold be16. cbn [app]. split.
  - mlen. lia.
  - rewrite get_skip_two by lia. rewrite be16_join, Z.mod_small by lia.
    f_equal. lia.
Qed.

Lemma modify_skip_get_skip_witness :
  ast_modify_skip [5; 0; 0; 0; 0; 20; 1; 120; 35] 1 9 1
  = Ok ([5; 0; 0; 0; 8; 20; 1; 120; 35], 9)
  /\ ast_get_skip [5; 0; 0; 0; 8; 20; 1; 120; 35] 1 1 = Ok 9.
Proof.
  destruct (modify_skip_get_skip [5; 0; 0; 0; 0; 20; 1; 120; 35] 1 9 1 5
              (AST_ENTRY "IF" false false 2 1) eq_refl eq_refl)
    as (a' & M & _ & G); try (unfold mbuf_len; simpl; lia).
  assert (E : a' = [5; 0; 0; 0; 8; 20; 1; 120; 35])
    by (vm_compute in M; congruence).
  rewrite E in *. split; [reflexivity | exact G].
Defined.

(** X2.  [ast_modify_skip] changes the two bytes of its slot and nothing
    else: every other byte of the buffer, and so every other skip of the
    node, reads as before. *)
Theorem modify_skip_frame (a : mbuf) (start where_ which tag : Z)
    (d : ast_node_def) (a' : mbuf) (r : Z) :
  byte_at a (start - 1) = Ok tag ->
  ast_def tag = Ok d ->
  0 <= which < num_skips d ->
  ast_modify_skip a start where_ which = Ok (a', r) ->
  (forall p, p <> start + which * 2 -> p <> start + which * 2 + 1 ->
             byte_at a' p = byte_at a p)
  /\ (forall other, 0 <= other -> other <> which ->
                    ast_get_skip a' start other = ast_get_skip a start other).
Proof.
  intros T D W M.
  assert (R : start + which * 2 + 1 < mbuf_len a).
  { unfold ast_modify_skip in M. rewrite T in M. rstep_in M. rewrite D in M.
    rstep_in M. destruct (Z.ltb_spec which (num_skips d)); [| lia]. rstep_in M.
    destruct (store a (start + which * 2) _) as [a1 | | |] eqn:S1;
      try discriminate. rstep_in M.
    destruct (store a1 (start + which * 2 + 1) _) as [a2 | | |] eqn:S2;
      try discriminate.
    apply store_inv in S1 as (x1 & c1 & y1 & -> & -> & L1).
    apply store_inv in S2 as (x2 & c2 & y2 & E2 & _ & L2).
    apply (f_equal mbuf_len) in E2. mlen.
    pose proof (mbuf_len_nonneg x1). pose proof (mbuf_len_nonneg y2). lia. }
  destruct (modify_skip_shape a start where_ which tag d T D W R)
    as (x & b0 & b1 & y & -> & L & M').
  rewrite M' in M. inversion M; subst a' r; clear M.
  unfold be16. cbn [app].
  assert (F : forall p, p <> start + which * 2 -> p <> start + which * 2 + 1 ->
                        byte_at (x ++ Z.shiftr ((where_ - start) mod 65536) 8
                                   :: Z.land ((where_ - start) mod 65536) 255
                                   :: y) p
                        = byte_at (x ++ b0 :: b1 :: y) p).
  { intros p N0 N1. apply byte_at_outside; lia. }
  split; [exact F |].
  intros other O N. unfold ast_get_skip. mlen.
  rewrite !F by lia. reflexivity.
Qed.

Lemma modify_skip_frame_witness :
  ast_get_skip [5; 0; 0; 0; 8; 20; 1; 120; 35] 1 0
  = ast_get_skip [5; 0; 0; 0; 0; 20; 1; 120; 35] 1 0.
Proof.
  refine (proj2 (modify_skip_frame [5; 0; 0; 0; 0; 20; 1; 120; 35] 1 9 1 5
                   (AST_ENTRY "IF" false false 2 1)
                   [5; 0; 0; 0; 8; 20; 1; 120; 35] 9 eq_refl eq_refl _ eq_refl)
            0 _ _); simpl; lia.
Defined.

(** ** Fresh nodes and inline data *)

Lemma zeros_split (k s : Z) :
  0 <= s < k ->
  zeros (2 * k) = zeros (2 * s) ++ 0 :: 0 :: zeros (2 * (k - s - 1)).
Proof.
  intros H. replace (2 * k) with (2 * s + (2 * (k - s - 1) + 2)) by lia.
  unfold zeros at 1. rewrite Z2Nat.inj_add, repeat_app by lia.
  fold (zeros (2 * s)). fold (zeros (2 * (k - s - 1) + 2)).
  now rewrite zeros_two by lia.
Qed.

(** X3.  [ast_add_node] with a tag of the table keeps the bytes already in
    the buffer, appends the tag and two zero bytes for each skip, and
    returns the offset after the tag; the tag is read back by
    [ast_fetch_tag], and every skip of the fresh node reads as the offset
    after the tag. *)
Theorem add_node_fresh (a : mbuf) (tag : Z) (d : ast_node_def) :
  ast_def tag = Ok d ->
  exists a',
    ast_add_node a tag = Ok (a', mbuf_len a + 1)
    /\ firstn (Z.to_nat (mbuf_len a)) a' = a
    /\ mbuf_len a' = mbuf_len a + 1 + 2 * num_skips d
    /\ ast_fetch_tag a' (mbuf_len a) = Ok (tag, mbuf_len a + 1)
    /\ (forall s, 0 <= s < num_skips d ->
                  ast_get_skip a' (mbuf_len a + 1) s = Ok (mbuf_len a + 1)).
Proof.
  intros D. destruct (ast_def_facts _ _ D) as (_ & _ & K & _).
  exists (a ++ tag :: skip_slots d 0). repeat split.
  - now apply add_node_app.
  - apply firstn_len_app.
  - mlen. rewrite mbuf_len_skip_slots by lia. lia.
  - apply fetch_tag_app.
  - intros s S. rewrite skip_slots_zero, (zeros_split _ s S) by lia.
    change (a ++ tag :: ?z ++ ?r) with (a ++ (tag :: z) ++ r).
    rewrite app_assoc, get_skip_two.
    + f_equal. change (Z.lor 0 (Z.shiftl 0 8)) with 0. lia.
    + mlen. rewrite mbuf_len_zeros by lia. lia.
Qed.

Lemma add_node_fresh_witness :
  ast_add_node [0] 5 = Ok ([0; 5; 0; 0; 0; 0], 2)
  /\ ast_get_skip [0; 5; 0; 0; 0; 0] 2 1 = Ok 2.
Proof.
  destruct (add_node_fresh [0] 5 (AST_ENTRY "IF" false false 2 1) eq_refl)
    as (a' & A & _ & _ & _ & G).
  assert (E : a' = [0; 5; 0; 0; 0; 0]) by (vm_compute in A; congruence).
  rewrite E in *. split; [reflexivity |]. apply (G 1). simpl. lia.
Defined.

Lemma encode_varint_fuel_nonempty (f : nat) (n : Z) :
  1 <= mbuf_len (encode_varint_fuel f n).
Proof.
  destruct f; cbn [encode_varint_fuel]; [| destruct (n <? 128)]; mlen;
    try lia.
  pose proof (mbuf_len_nonneg (encode_varint_fuel f (n / 128))). lia.
Qed.

Lemma get_inlined_data_app (x : mbuf) (data y : mbuf) :
  ast_get_inlined_data (x ++ (encode_varint (mbuf_len data) ++ data) ++ y)
    (mbuf_len x)
  = Ok (mbuf_len x + mbuf_len (encode_varint (mbuf_len data)), mbuf_len data)
  /\ bytes_at (x ++ (encode_varint (mbuf_len data) ++ data) ++ y)
       (mbuf_len x + mbuf_len (encode_varint (mbuf_len data))) (mbuf_len data)
     = data
  /\ skipn (Z.to_nat (mbuf_len x + mbuf_len (encode_varint (mbuf_len data))
                      + mbuf_len data))
       (x ++ (encode_varint (mbuf_len data) ++ data) ++ y) = y.
Proof.
  set (v := encode_varint (mbuf_len data)).
  pose proof (encode_varint_fuel_nonempty (Z.to_nat (Z.log2 (mbuf_len data))) (mbuf_len data)) as V. fold (encode_varint (mbuf_len data)) in V.
  pose proof (mbuf_len_nonneg x). pose proof (mbuf_len_nonneg data).
  pose proof (mbuf_len_nonneg y).
  repeat split.
  - unfold ast_get_inlined_data. mlen.
    destruct (Z.ltb_spec (mbuf_len x)
                (mbuf_len x + (mbuf_len v + mbuf_len data + mbuf_len y)));
      [| fold v in V; lia].
    rstep. rewrite <- app_assoc. unfold v.
    rewrite decode_encode_varint by lia. reflexivity.
  - unfold bytes_at.
    replace (x ++ (v ++ data) ++ y) with ((x ++ v) ++ data ++ y)
      by (now rewrite <- !app_assoc).
    replace (mbuf_len x + mbuf_len v) with (mbuf_len (x ++ v)) by (mlen; lia).
    rewrite skipn_len_app. apply firstn_len_app.
  - replace (x ++ (v ++ data) ++ y) with ((x ++ v ++ data) ++ y)
      by (now rewrite <- !app_assoc).
    replace (mbuf_len x + mbuf_len v + mbuf_len data)
      with (mbuf_len (x ++ v ++ data)) by (mlen; lia).
    apply skipn_len_app.
Qed.

(** X4.  What [ast_add_inlined_node] writes, [ast_get_inlined_data] reads
    back: for a tag with an inline payload, the node is appended, its tag
    is fetched, and the data found after the tag has the length and the
    bytes given to the writer. *)
Theorem add_inlined_node_get_data (a : mbuf) (tag : Z) (d : ast_node_def)
    (data : mbuf) :
  ast_def tag = Ok d -> has_inlined d = true ->
  exists a' p,
    ast_add_inlined_node a tag data = Ok a'
    /\ firstn (Z.to_nat (mbuf_len a)) a' = a
    /\ ast_fetch_tag a' (mbuf_len a) = Ok (tag, mbuf_len a + 1)
    /\ ast_get_inlined_data a' (mbuf_len a + 1) = Ok (p, mbuf_len data)
    /\ bytes_at a' p (mbuf_len data) = data.
Proof.
  intros D I.
  exists (a ++ tag :: payload d data),
    (mbuf_len a + 1 + mbuf_len (encode_varint (mbuf_len data))).
  rewrite (payload_inlined d data I).
  destruct (get_inlined_data_app (a ++ [tag]) data []) as (G & B & _).
  rewrite app_nil_r, <- app_assoc in G, B. cbn [app] in G, B.
  rewrite mbuf_len_app, mbuf_len_cons, mbuf_len_nil in G, B.
  replace (mbuf_len a + (1 + 0)) with (mbuf_len a + 1) in G, B by lia.
  repeat split.
  - rewrite <- (payload_inlined d data I). now apply add_inlined_node_app.
  - apply firstn_len_app.
  - apply fetch_tag_app.
  - exact G.
  - exact B.
Qed.

Lemma add_inlined_node_get_data_witness :
  ast_add_inlined_node [35] 20 [120; 121] = Ok [35; 20; 2; 120; 121]
  /\ ast_get_inlined_data [35; 20; 2; 120; 121] 2 = Ok (3, 2)
  /\ bytes_at [35; 20; 2; 120; 121] 3 2 = [120; 121].
Proof.
  destruct (add_inlined_node_get_data [35] 20
              (AST_ENTRY "IDENT" true true 0 0) [120; 121] eq_refl eq_refl)
    as (a' & p & A & _ & _ & G & B).
  assert (E : a' = [35; 20; 2; 120; 121]) by (vm_compute in A; congruence).
  rewrite E in *.
  assert (P : p = 3) by (vm_compute in G; congruence).
  rewrite P in *. repeat split; assumption.
Defined.

(** X5.  [ast_insert_inlined_node] at an offset inside the buffer puts
    the tag and the data in front of what stood at that offset: the bytes
    before the offset are kept, the data is read back by
    [ast_get_inlined_data], and the bytes that stood at the offset follow
    the data. *)
Theorem insert_inlined_node_wraps (a : mbuf) (at_ tag : Z)
    (d : ast_node_def) (data : mbuf) :
  ast_def tag = Ok d -> has_inlined d = true ->
  0 <= at_ <= mbuf_len a ->
  exists a' p,
    ast_insert_inlined_node a at_ tag data = Ok a'
    /\ firstn (Z.to_nat at_) a' = firstn (Z.to_nat at_) a
    /\ ast_fetch_tag a' at_ = Ok (tag, at_ + 1)
    /\ ast_get_inlined_data a' (at_ + 1) = Ok (p, mbuf_len data)
    /\ bytes_at a' p (mbuf_len data) = data
    /\ skipn (Z.to_nat (p + mbuf_len data)) a' = skipn (Z.to_nat at_) a.
Proof.
  intros D I R. destruct (split_at a at_ R) as [E L]. revert E L.
  generalize (firstn (Z.to_nat at_) a) as x, (skipn (Z.to_nat at_) a) as y.
  intros x y -> L. subst at_.
  exists (x ++ tag :: payload d data ++ y),
    (mbuf_len x + 1 + mbuf_len (encode_varint (mbuf_len data))).
  rewrite (payload_inlined d data I).
  destruct (get_inlined_data_app (x ++ [tag]) data y) as (G & B & S).
  rewrite <- (app_assoc x [tag]) in G, B, S. cbn [app] in G, B, S.
  rewrite mbuf_len_app, mbuf_len_cons, mbuf_len_nil in G, B, S.
  replace (mbuf_len x + (1 + 0)) with (mbuf_len x + 1) in G, B, S by lia.
  repeat split.
  - rewrite <- (payload_inlined d data I).
    now apply insert_inlined_node_app.
  - now rewrite !firstn_len_app.
  - apply fetch_tag_app.
  - exact G.
  - exact B.
  - exact S.
Qed.

Lemma insert_inlined_node_wraps_witness :
  ast_insert_inlined_node [0; 20; 1; 120] 1 77 [121]
  = Ok [0; 77; 1; 121; 20; 1; 120]
  /\ ast_get_inlined_data [0; 77; 1; 121; 20; 1; 120] 2 = Ok (3, 1).
Proof.
  destruct (insert_inlined_node_wraps [0; 20; 1; 120] 1 77
              (AST_ENTRY "MEMBER" true true 0 1) [121] eq_refl eq_refl)
    as (a' & p & A & _ & _ & G & _); [unfold mbuf_len; simpl; lia |].
  assert (E : a' = [0; 77; 1; 121; 20; 1; 120]) by (vm_compute in A; congruence).
  rewrite E in *.
  assert (P : p = 3) by (vm_compute in G; congruence).
  rewrite P in *. split; [reflexivity | exact G].
Defined.

(** ** The walk on any buffer *)











(** ** The dump and the walk *)














(** The dump of [if (x) return;] in a script, with the end of the true
    branch marked on the end of the node *)
Example dump_if :
  ast_dump_tree 3 [1; 0; 13; 0; 0; 5; 0; 8; 0; 8; 20; 1; 120; 35] 0 0
  = Ok ([Lnode 0 "SCRIPT" None; Ldots 1;
         Lnode 1 "IF" None; Lnode 2 "IDENT" (Some [120]); Ldots 2;
         Lnode 2 "RETURN" None], 14).
Proof. reflexivity. Qed.

(** A name that the buffer does not hold to its end: the walk moves past
    it, and the dump reads past the buffer. *)
Example dump_reads_past_the_buffer :
  ast_skip_tree 1 [20; 5; 120] 0 = Ok 7
  /\ ast_dump_tree 1 [20; 5; 120] 0 0 = Fault.
Proof. split; reflexivity. Qed.

(** * Further properties of the date module *)

(** ** Years and week days *)

Lemma rem_zero_mod (y n : Z) : n <> 0 -> (Z.rem y n =? 0) = (y mod n =? 0).
Proof.
  intros N. destruct (Z.eqb_spec (Z.rem y n) 0) as [R | R],
      (Z.eqb_spec (y mod n) 0) as [M | M]; try reflexivity; exfalso.
  - apply Z.rem_divide in R; [| assumption]. apply M.
    now apply Z.mod_divide.
  - apply Z.mod_divide in M; [| assumption]. apply R.
    now apply Z.rem_divide.
Qed.

(** X8.  [ecma_DaysInYear] is the Gregorian rule for every year, negative
    years too: 366 when the year is a multiple of 4 and not of 100, or a
    multiple of 400, and 365 otherwise. *)
Theorem DaysInYear_leap_rule (y : Z) :
  ecma_DaysInYear y
  = if ((y mod 4 =? 0) && negb (y mod 100 =? 0)) || (y mod 400 =? 0)
    then 366 else 365.
Proof.
  unfold ecma_DaysInYear. rewrite !rem_zero_mod by lia.
  destruct (Z.eqb_spec (y mod 4) 0), (Z.eqb_spec (y mod 100) 0),
    (Z.eqb_spec (y mod 400) 0); cbn [negb andb orb]; try reflexivity;
    exfalso; Z.div_mod_to_equations; lia.
Qed.

(** X9.  From 1969 on, the day numbers of two consecutive first days of
    January differ by the length of the year between them. *)
Theorem DayFromYear_year_length (y : Z) :
  1969 <= y ->
  ecma_DayFromYear (y + 1) - ecma_DayFromYear y = ecma_DaysInYear y.
Proof. apply DayFromYear_step. Qed.

Lemma DayFromYear_year_length_witness :
  1969 <= 2016 /\ ecma_DayFromYear 2017 - ecma_DayFromYear 2016 = 366.
Proof. split; [lia |]. apply (DayFromYear_year_length 2016). lia. Defined.

(** X10.  The bisection of [ecma_YearFromTime_s] ends on every instant
    of the range of ECMAScript, before 1970 as well: it returns a year. *)
Theorem YearFromTime_terminates (t : Z) :
  - 8640000000000000 <= t <= 8640000000000000 ->
  exists y, ecma_YearFromTime_s t = Ok y.
Proof. intros _. apply YearFromTime_total. Qed.

Lemma YearFromTime_terminates_witness :
  exists y, ecma_YearFromTime_s (- 8640000000000000) = Ok y.
Proof. apply (YearFromTime_terminates (- 8640000000000000)). lia. Defined.

(** X11.  For an instant from 1970 on, [ecma_YearFromTime_s] returns the
    year the instant falls in: the one whose first instant is not after
    it and whose successor's first instant is. *)
Theorem YearFromTime_is_the_year (t : Z) :
  0 <= t <= 8640000000000000 ->
  exists y,
    ecma_YearFromTime_s t = Ok y
    /\ 1970 <= y
    /\ ecma_TimeFromYear y <= t < ecma_TimeFromYear (y + 1).
Proof.
  intros [H _]. destruct (YearFromTime_correct t H) as (y & E & R & I).
  exists y. repeat split; try assumption; lia.
Qed.

Lemma YearFromTime_is_the_year_witness :
  exists y, ecma_YearFromTime_s 1425550830400 = Ok y
            /\ 1970 <= y
            /\ ecma_TimeFromYear y <= 1425550830400 < ecma_TimeFromYear (y + 1).
Proof. apply (YearFromTime_is_the_year 1425550830400). lia. Defined.

(** X12.  From 1970 on the day of the week is between 0 and 6, and a day
    later it is the next one. *)
Theorem WeekDay_cycle (t : Z) :
  0 <= t <= 8640000000000000 ->
  0 <= ecma_WeekDay t <= 6
  /\ ecma_WeekDay (t + msPerDay) = (ecma_WeekDay t + 1) mod 7.
Proof.
  intros [H _]. unfold ecma_WeekDay, ecma_Day, msPerDay.
  assert (0 <= t / 86400000) by (apply Z.div_pos; lia).
  assert (0 <= (t + 86400000) / 86400000) by (apply Z.div_pos; lia).
  rewrite !Z.rem_mod_nonneg by lia. Z.div_mod_to_equations. lia.
Qed.

Lemma WeekDay_cycle_witness :
  ecma_WeekDay 0 = 4 /\ ecma_WeekDay msPerDay = 5.
Proof.
  destruct (WeekDay_cycle 0) as [_ C]; [lia |].
  split; [reflexivity | exact C].
Defined.

(** ** Local time *)

Lemma UTC_LocalTime_stable (h : host) (t : Z) :
  ecma_DaylightSavingTA h (t + ecma_DaylightSavingTA h t)
  = ecma_DaylightSavingTA h t ->
  ecma_UTC h (ecma_LocalTime h t) = t.
Proof.
  intros S. unfold ecma_UTC, ecma_LocalTime.
  replace (t + ecma_LocalTZA h + ecma_DaylightSavingTA h t - ecma_LocalTZA h)
    with (t + ecma_DaylightSavingTA h t) by lia.
  rewrite S. lia.
Qed.



(** X14.  On an instant of whole milliseconds, under the same condition
    and when the local time is from 1970 to the last instant of
    ECMAScript, [d_lmktime] makes the instant again from the fields
    [d_localtime] gives. *)
Theorem localtime_then_lmktime (h : host) (t : Z) :
  0 <= ecma_LocalTime h t <= 8640000000000000 ->
  ecma_DaylightSavingTA h (t + ecma_DaylightSavingTA h t)
  = ecma_DaylightSavingTA h t ->
  exists tp, d_localtime h t = Ok tp /\ d_lmktime h tp = Ok t.
Proof.
  intros [P _] S. destruct (gmtime_gmktime _ P)
    as (tp & G & _ & _ & _ & _ & _ & _ & _ & K).
  exists tp. split; [exact G |].
  unfold d_lmktime. unfold d_gmktime in K. rewrite K. rstep.
  now rewrite UTC_LocalTime_stable.
Qed.

Lemma localtime_then_lmktime_witness :
  d_localtime cet_host 1433000000000
  = Ok (mk_timeparts 2015 4 30 17 33 20 0 6)
  /\ d_lmktime cet_host (mk_timeparts 2015 4 30 17 33 20 0 6)
     = Ok 1433000000000.
Proof.
  destruct (localtime_then_lmktime cet_host 1433000000000)
    as (tp & G & K);
    [split; vm_compute; discriminate | reflexivity |].
  assert (E : tp = mk_timeparts 2015 4 30 17 33 20 0 6)
    by (vm_compute in G; congruence).
  rewrite E in *. split; [reflexivity | exact K].
Defined.

(** ** From fields to the instant and back *)

(** The scan finds the month whose days hold the day of the year. *)
Lemma month_scan_unique (leap : bool) (dwy m : Z) :
  0 <= m <= 11 ->
  nth (Z.to_nat m) (ecma_getfirstdays leap) 0 <= dwy
  < nth (Z.to_nat (m + 1)) (ecma_getfirstdays leap) 0 ->
  month_scan 12 0 (ecma_getfirstdays leap) dwy = m
  /\ days_at (ecma_getfirstdays leap) m
     = Ok (nth (Z.to_nat m) (ecma_getfirstdays leap) 0)
  /\ 0 <= nth (Z.to_nat m) (ecma_getfirstdays leap) 0
  /\ nth (Z.to_nat (m + 1)) (ecma_getfirstdays leap) 0
     <= (if leap then 366 else 365).
Proof.
  intros M.
  assert (C : m = 0 \/ m = 1 \/ m = 2 \/ m = 3 \/ m = 4 \/ m = 5 \/ m = 6
              \/ m = 7 \/ m = 8 \/ m = 9 \/ m = 10 \/ m = 11) by lia.
  clear M.
  destruct leap; unfold ecma_getfirstdays, sdays;
    cbn [firstn skipn map app];
    repeat (destruct C as [-> | C]); try subst m;
    repeat match goal with
           | |- context [Z.to_nat ?n] =>
               let r := eval vm_compute in (Z.to_nat n) in
               change (Z.to_nat n) with r
           | |- context [?a + ?b] =>
               let r := eval vm_compute in (a + b) in
               change (a + b) with r
           end;
    cbn [nth]; intros [R1 R2];
    (split; [| split; [reflexivity | lia]]);
    unfold month_scan;
    repeat match goal with
           | |- context [Z.to_nat ?n] =>
               let r := eval vm_compute in (Z.to_nat n) in
               change (Z.to_nat n) with r
           | |- context [?a + ?b] =>
               let r := eval vm_compute in (a + b) in
               change (a + b) with r
           end;
    cbn [nth];
    repeat match goal with
           | |- context [dwy >=? ?c] =>
               destruct (Z.geb_spec dwy c); cbn [andb]; try (exfalso; lia)
           | |- context [dwy <? ?c] =>
               destruct (Z.ltb_spec dwy c); cbn [andb]; try (exfalso; lia)
           end; reflexivity.
Qed.

(** The year found is the only year that holds the instant. *)
Lemma year_of_instant_unique (t y y' : Z) :
  1970 <= y -> 1970 <= y' ->
  ecma_TimeFromYear y <= t < ecma_TimeFromYear (y + 1) ->
  ecma_TimeFromYear y' <= t < ecma_TimeFromYear (y' + 1) ->
  y' = y.
Proof.
  intros Y Y' I I'.
  destruct (Z.lt_trichotomy y' y) as [L | [E | L]]; [| exact E |]; exfalso.
  - destruct (Z.eq_dec (y' + 1) y) as [E | N].
    + rewrite E in I'. lia.
    + pose proof (TimeFromYear_mono (y' + 1) y ltac:(lia) ltac:(lia)). lia.
  - destruct (Z.eq_dec (y + 1) y') as [E | N].
    + rewrite E in I. lia.
    + pose proof (TimeFromYear_mono (y + 1) y' ltac:(lia) ltac:(lia)). lia.
Qed.

(** Fields in their ranges, with a day that the month has, make an
    instant that breaks down into the same fields. *)
Lemma gmktime_gmtime_fields (tp : timeparts) :
  1970 <= year tp ->
  0 <= month tp <= 11 ->
  1 <= day tp <= days_in_month (ecma_DaysInYear (year tp) =? 366) (month tp) ->
  0 <= hour tp <= 23 ->
  0 <= min tp <= 59 ->
  0 <= sec tp <= 59 ->
  0 <= msec tp <= 999 ->
  exists t,
    d_gmktime tp = Ok t
    /\ ecma_TimeFromYear (year tp) <= t < ecma_TimeFromYear (year tp + 1)
    /\ d_gmtime t
       = Ok (mk_timeparts (year tp) (month tp) (day tp) (hour tp) (min tp)
               (sec tp) (msec tp) (ecma_WeekDay t)).
Proof.
  destruct tp as [y m d h mi s ms w].
  cbn [year month day hour min sec msec].
  intros Y M D H Mi S Ms.
  set (leap := ecma_DaysInYear y =? 366) in *.
  unfold days_in_month in D.
  set (first := nth (Z.to_nat m) (ecma_getfirstdays leap) 0) in *.
  set (next := nth (Z.to_nat (m + 1)) (ecma_getfirstdays leap) 0) in *.
  set (dwy := first + d - 1).
  destruct (month_scan_unique leap dwy m M) as (SC & DA & F0 & NL);
    [fold first; fold next; unfold dwy; lia |].
  fold first in DA, F0. fold next in NL.
  assert (LY : (if leap then 366 else 365) = ecma_DaysInYear y).
  { unfold leap. destruct (DaysInYear_cases y) as [E | E]; rewrite E;
      reflexivity. }
  rewrite LY in NL.
  pose proof (DayFromYear_step y ltac:(lia)) as ST.
  set (tod := ecma_MakeTime h mi s ms).
  assert (TD : 0 <= tod < msPerDay).
  { unfold tod, ecma_MakeTime, MinutesPerHour, SecondsPerMinute, msPerSecond,
      msPerDay. lia. }
  set (t := ecma_MakeDate (ecma_DayFromYear y + dwy) tod).
  assert (K : d_gmktime (mk_timeparts y m d h mi s ms w) = Ok t).
  { unfold d_gmktime, d_mktime_impl, ecma_MakeDay.
    cbn [year month day hour min sec msec].
    rewrite Z.quot_small, Z.rem_small by lia. rewrite Z.add_0_r.
    fold leap. rewrite DA. rstep.
    unfold ecma_TimeFromYear. rewrite Z.mul_comm, Z.quot_mul
      by (unfold msPerDay; lia).
    unfold t, dwy, tod. f_equal. f_equal. lia. }
  assert (DT : ecma_Day t = ecma_DayFromYear y + dwy).
  { unfold ecma_Day, t, ecma_MakeDate. unfold msPerDay in *.
    symmetry. apply (Z.div_unique _ _ _ tod); lia. }
  assert (IT : ecma_TimeFromYear y <= t < ecma_TimeFromYear (y + 1)).
  { unfold ecma_TimeFromYear, t, ecma_MakeDate. unfold msPerDay in *.
    unfold dwy. lia. }
  exists t. split; [exact K |]. split; [exact IT |].
  assert (T0 : 0 <= t).
  { pose proof (DayFromYear_bounds y Y). unfold ecma_TimeFromYear in IT.
    unfold msPerDay in *. lia. }
  destruct (YearFromTime_correct t T0) as (y' & EY & RY & IY).
  assert (y' = y) by (apply (year_of_instant_unique t); lia || assumption).
  subst y'.
  unfold d_gmtime. rewrite EY. rstep.
  unfold ecma_DateFromTime, ecma_MonthFromTime, ecma_InLeapYear,
    ecma_DayWithinYear.
  rewrite DT. fold leap.
  replace (ecma_DayFromYear y + dwy - ecma_DayFromYear y) with dwy by lia.
  rewrite SC. destruct (Z.gtb_spec m 11); [lia |]. rewrite DA. rstep.
  f_equal.
  assert (HF : ecma_HourFromTime t = h /\ ecma_MinFromTime t = mi
               /\ ecma_SecFromTime t = s /\ ecma_msFromTime t = ms).
  { unfold ecma_HourFromTime, ecma_MinFromTime, ecma_SecFromTime,
      ecma_msFromTime, HoursPerDay, MinutesPerHour, SecondsPerMinute.
    assert (DD : 0 <= ecma_DayFromYear y + dwy)
      by (pose proof (DayFromYear_bounds y Y); unfold dwy; lia).
    clear - H Mi S Ms DD. unfold t, tod, ecma_MakeDate, ecma_MakeTime.
    revert DD. generalize (ecma_DayFromYear y + dwy). intros dd DD.
    unfold MinutesPerHour, SecondsPerMinute, msPerSecond, msPerDay,
      msPerHour, msPerMinute.
    set (u := dd * 86400000 + (((h * 60 + mi) * 60 + s) * 1000 + ms)).
    assert (Q1 : u / 3600000 = dd * 24 + h).
    { symmetry. apply (Z.div_unique _ _ _ ((mi * 60 + s) * 1000 + ms));
        unfold u; lia. }
    assert (Q2 : u / 60000 = (dd * 24 + h) * 60 + mi).
    { symmetry. apply (Z.div_unique _ _ _ (s * 1000 + ms)); unfold u; lia. }
    assert (Q3 : u / 1000 = ((dd * 24 + h) * 60 + mi) * 60 + s).
    { symmetry. apply (Z.div_unique _ _ _ ms); unfold u; lia. }
    rewrite Q1, Q2, Q3.
    rewrite !Z.rem_mod_nonneg by (unfold u; lia).
    repeat split; symmetry.
    - apply (Z.mod_unique _ _ dd); lia.
    - apply (Z.mod_unique _ _ (dd * 24 + h)); lia.
    - apply (Z.mod_unique _ _ ((dd * 24 + h) * 60 + mi)); lia.
    - apply (Z.mod_unique _ _ (((dd * 24 + h) * 60 + mi) * 60 + s));
        unfold u; lia. }
  destruct HF as (-> & -> & -> & ->).
  f_equal. unfold dwy. lia.
Qed.

(** The month found holds the day of the year. *)
Lemma month_scan_bounds (leap : bool) (dwy : Z) :
  0 <= dwy < (if leap then 366 else 365) ->
  let days := ecma_getfirstdays leap in
  let m := month_scan 12 0 days dwy in
  0 <= m <= 11
  /\ nth (Z.to_nat m) days 0 <= dwy < nth (Z.to_nat (m + 1)) days 0.
Proof.
  intros R. cbv zeta.
  remember (month_scan 12 0 (ecma_getfirstdays leap) dwy) as m eqn:E.
  revert E.
  destruct leap; unfold ecma_getfirstdays, sdays;
    cbn [firstn skipn map app]; unfold month_scan;
    repeat match goal with
           | |- context [Z.to_nat ?n] =>
               let r := eval vm_compute in (Z.to_nat n) in
               change (Z.to_nat n) with r
           | |- context [?a + ?b] =>
               let r := eval vm_compute in (a + b) in
               change (a + b) with r
           end;
    cbn [nth];
    repeat match goal with
           | |- context [dwy >=? ?c] =>
               destruct (Z.geb_spec dwy c); [| lia]
           | |- context [dwy <? ?c] =>
               destruct (Z.ltb_spec dwy c);
               [cbn [andb]; intros ->; split; [lia |];
                repeat match goal with
                       | |- context [Z.to_nat ?n] =>
                           let r := eval vm_compute in (Z.to_nat n) in
                           change (Z.to_nat n) with r
                       end; cbn [nth]; lia |]
           end; try lia.
Qed.

Lemma tp_in_range_spec (tp : timeparts) :
  tp_in_range tp = true
  <-> (1970 <= year tp <= 275760
       /\ 0 <= month tp <= 11
       /\ 1 <= day tp
          <= days_in_month (ecma_DaysInYear (year tp) =? 366) (month tp)
       /\ 0 <= hour tp <= 23
       /\ 0 <= min tp <= 59
       /\ 0 <= sec tp <= 59
       /\ 0 <= msec tp <= 999).
Proof.
  unfold tp_in_range. rewrite !andb_true_iff, !Z.leb_le. tauto.
Qed.

(** The fields of an instant from 1970 to the last instant of ECMAScript
    are in range. *)
Lemma gmtime_in_range (t : Z) :
  0 <= t <= 8640000000000000 ->
  exists tp,
    d_gmtime t = Ok tp
    /\ tp_in_range tp = true
    /\ dayofweek tp = ecma_WeekDay t
    /\ d_gmktime tp = Ok t.
Proof.
  intros [T0 T1].
  destruct (gmtime_gmktime t T0)
    as (tp & G & Ry & Rm & Rd & Rh & Rmi & Rs & Rms & K).
  exists tp. split; [exact G |].
  destruct (YearFromTime_correct t T0) as (y & EY & RY & IY).
  pose proof (DayWithinYear_range t y ltac:(lia) IY) as RD.
  assert (RL : 0 <= ecma_DayWithinYear t y
               < (if ecma_InLeapYear t y then 366 else 365)).
  { unfold ecma_InLeapYear.
    destruct (DaysInYear_cases y) as [E | E]; rewrite E in *; cbn; lia. }
  destruct (month_scan_bounds _ _ RL) as (RM & RF).
  destruct (month_scan_correct _ _ RL) as (_ & first & EF & _).
  assert (Y1 : y <= 275760).
  { destruct (Z.le_gt_cases y 275760) as [L | L]; [exact L | exfalso].
    assert (ecma_TimeFromYear 275761 <= ecma_TimeFromYear y).
    { destruct (Z.eq_dec y 275761) as [-> | N]; [lia |].
      pose proof (TimeFromYear_mono 275761 y ltac:(lia) ltac:(lia)). lia. }
    assert (8640000000000000 < ecma_TimeFromYear 275761) by reflexivity.
    lia. }
  unfold d_gmtime in G. rewrite EY in G. rstep_in G.
  unfold ecma_DateFromTime, ecma_MonthFromTime in G.
  set (m := month_scan 12 0 _ _) in *.
  destruct (Z.gtb_spec m 11); [lia |]. rewrite EF in G. rstep_in G.
  inversion G; subst tp; clear G.
  cbn [year month day hour min sec msec dayofweek] in *.
  split; [| split; [reflexivity | exact K]].
  apply tp_in_range_spec. cbn [year month day hour min sec msec].
  repeat (split; try lia).
  unfold days_in_month. unfold ecma_InLeapYear in *.
  unfold days_at in EF. destruct (Z.ltb_spec m 0); [lia |].
  rewrite nth_error_nth' with (d := 0) in EF.
  - inversion EF; subst first. lia.
  - clearbody m. destruct (ecma_DaysInYear y =? 366); cbn; lia.
Qed.

(** X15.  For an instant of whole milliseconds from 1970 to the last
    instant of ECMAScript, [d_gmtime] gives fields in range, with a day
    that the month has and the day of the week from 0 to 6, and
    [d_gmktime] makes the instant again from them. *)
Theorem gmtime_then_gmktime (t : Z) :
  0 <= t <= 8640000000000000 ->
  exists tp,
    d_gmtime t = Ok tp
    /\ tp_in_range tp = true
    /\ 0 <= dayofweek tp <= 6
    /\ d_gmktime tp = Ok t.
Proof.
  intros T. destruct (gmtime_in_range t T) as (tp & G & R & W & K).
  exists tp. repeat (split; try assumption); rewrite W;
    unfold ecma_WeekDay, ecma_Day, msPerDay;
    assert (0 <= t / 86400000) by (apply Z.div_pos; lia);
    rewrite Z.rem_mod_nonneg by lia; Z.div_mod_to_equations; lia.
Qed.

Lemma gmtime_then_gmktime_witness :
  d_gmtime 1425550830400 = Ok (mk_timeparts 2015 2 5 10 20 30 400 4)
  /\ d_gmktime (mk_timeparts 2015 2 5 10 20 30 400 4) = Ok 1425550830400.
Proof.
  destruct (gmtime_then_gmktime 1425550830400)
    as (tp & G & _ & _ & K); [lia |].
  assert (E : tp = mk_timeparts 2015 2 5 10 20 30 400 4)
    by (vm_compute in G; congruence).
  rewrite E in *. split; [reflexivity | exact K].
Defined.

(** X16.  Fields in range make an instant that breaks down into the same
    fields: [d_gmtime] undoes [d_gmktime] on the calendar from 1970 to
    275760, and adds the day of the week. *)
Theorem gmktime_then_gmtime (tp : timeparts) :
  tp_in_range tp = true ->
  exists t,
    d_gmktime tp = Ok t /\ d_gmtime t = Ok (with_dayofweek tp t).
Proof.
  intros R. apply tp_in_range_spec in R
    as (Ry & Rm & Rd & Rh & Rmi & Rs & Rms).
  destruct (gmktime_gmtime_fields tp) as (t & K & _ & G);
    try assumption; try lia.
  exists t. split; assumption.
Qed.

Lemma gmktime_then_gmtime_witness :
  exists t,
    d_gmktime (mk_timeparts 2016 1 29 23 59 59 999 0) = Ok t
    /\ d_gmtime t
       = Ok (with_dayofweek (mk_timeparts 2016 1 29 23 59 59 999 0) t).
Proof.
  apply (gmktime_then_gmtime (mk_timeparts 2016 1 29 23 59 59 999 0)).
  reflexivity.
Defined.

(** ** Setters *)

Lemma set_get_part (tp : timeparts) (i : nat) :
  set_part tp i (get_part tp i) = tp.
Proof.
  destruct tp. do 7 (destruct i as [| i]; [reflexivity |]). reflexivity.
Qed.

(** One valid argument of a setter changes the field the setter is for. *)
Lemma setter_one_part (i : nat) (this v : Z)
    (breaktimefunc : option (Z -> result timeparts))
    (maketimefunc : timeparts -> result Z) :
  (i < 7)%nat ->
  d_time_number_from_tp (Some this) [Some v] (Z.of_nat i) breaktimefunc
    maketimefunc
  = (tp <- match breaktimefunc with
           | Some f => f this
           | None => Ok tp_zero
           end ;;
     t <- maketimefunc (set_part tp i v) ;; Ok (Some t)).
Proof.
  intros I. unfold d_time_number_from_tp, d_changepartoftime.
  do 7 (destruct i as [| i];
        [cbn; destruct breaktimefunc as [f |];
         [destruct (f this) |]; reflexivity |]).
  lia.
Qed.

Lemma get_set_part (tp : timeparts) (i : nat) (v t : Z) :
  (i < 7)%nat -> get_part (with_dayofweek (set_part tp i v) t) i = v.
Proof.
  intros I. do 7 (destruct i as [| i]; [reflexivity |]). lia.
Qed.

(** X17.  Setting a field in universal time to a value in range gives an
    instant whose fields are the old ones with that field changed, and
    the getter of the field then returns the value. *)
Theorem setUTC_sets_field (i : nat) (t v : Z) (tp : timeparts) :
  0 <= t <= 8640000000000000 ->
  d_gmtime t = Ok tp ->
  (i < 7)%nat ->
  tp_in_range (set_part tp i v) = true ->
  exists t',
    Date_setUTC (Z.of_nat i) (Some t) [Some v] = Ok (Some t')
    /\ d_gmtime t' = Ok (with_dayofweek (set_part tp i v) t')
    /\ Date_getUTC i (Some t') = Ok (Some v).
Proof.
  intros T G I R. apply tp_in_range_spec in R
    as (Ry & Rm & Rd & Rh & Rmi & Rs & Rms).
  destruct (gmktime_gmtime_fields (set_part tp i v)) as (t' & K & _ & G');
    try assumption; try lia.
  exists t'. split; [| split; [exact G' |]].
  - unfold Date_setUTC. rewrite setter_one_part by exact I.
    rewrite G. rstep. rewrite K. reflexivity.
  - unfold Date_getUTC. rewrite G'. rstep. do 2 f_equal.
    exact (get_set_part tp i v t' I).
Qed.

Lemma setUTC_sets_field_witness :
  exists t',
    Date_setUTC 3 (Some 1425550830400) [Some 23] = Ok (Some t')
    /\ d_gmtime t'
       = Ok (with_dayofweek (mk_timeparts 2015 2 5 23 20 30 400 4) t')
    /\ Date_getUTC 3 (Some t') = Ok (Some 23).
Proof.
  apply (setUTC_sets_field 3 1425550830400 23
           (mk_timeparts 2015 2 5 10 20 30 400 4));
    [lia | reflexivity | lia | reflexivity].
Defined.

(** X18.  On an instant of whole milliseconds, setting a field to the
    value it has leaves the instant as it is, for each of the seven
    setters in universal time. *)
Theorem setUTC_same_value (i : nat) (t : Z) (tp : timeparts) :
  0 <= t <= 8640000000000000 ->
  d_gmtime t = Ok tp ->
  (i < 7)%nat ->
  Date_setUTC (Z.of_nat i) (Some t) [Some (get_part tp i)] = Ok (Some t).
Proof.
  intros T G I.
  destruct (gmtime_in_range t T) as (tp' & G' & _ & _ & K).
  assert (tp' = tp) by congruence. subst tp'.
  unfold Date_setUTC. rewrite setter_one_part by exact I.
  rewrite G. rstep. rewrite set_get_part, K. reflexivity.
Qed.

Lemma setUTC_same_value_witness :
  Date_setUTC 1 (Some 1425550830400) [Some 2] = Ok (Some 1425550830400).
Proof.
  apply (setUTC_same_value 1 1425550830400
           (mk_timeparts 2015 2 5 10 20 30 400 4));
    [lia | reflexivity | lia].
Defined.

Lemma double_ne_invalid (v : etime) : double_ne v INVALID_TIME = true.
Proof. destruct v; reflexivity. Qed.

Lemma tp_args_shift (vals : list etime) :
  forall i start_pos a new_part,
    tp_args vals (i + 1) start_pos a new_part
    = tp_args vals i (start_pos + 1) a new_part.
Proof.
  induction vals as [| v vals IH]; intros i s a np; [reflexivity |].
  cbn [tp_args]. replace (i + 1 + s) with (i + (s + 1)) by lia.
  destruct (i + (s + 1) <? tpmax); [| reflexivity].
  destruct (negb (double_ne v INVALID_TIME)); [reflexivity |].
  destruct (arg_store a (i + (s + 1)) v); try reflexivity.
  rstep. apply IH.
Qed.

(** X19.  A NaN argument of a setter that is not its last is passed over:
    the call is the call of the setter of the next field on the other
    arguments. *)
Theorem setter_skips_NaN (this : etime) (vals : list etime) (start_pos : Z)
    (breaktimefunc : option (Z -> result timeparts))
    (maketimefunc : timeparts -> result Z) :
  0 <= start_pos < 6 ->
  vals <> [] ->
  d_time_number_from_tp this (INVALID_TIME :: vals) start_pos breaktimefunc
    maketimefunc
  = d_time_number_from_tp this vals (start_pos + 1) breaktimefunc
      maketimefunc.
Proof.
  intros S N. unfold d_time_number_from_tp.
  destruct this as [current |]; [| reflexivity].
  destruct vals as [| v vals]; [congruence |].
  replace (1 <=? Z.of_nat (List.length (INVALID_TIME :: v :: vals)))
    with true by (symmetry; apply Z.leb_le; cbn [List.length]; lia).
  replace (1 <=? Z.of_nat (List.length (v :: vals)))
    with true by (symmetry; apply Z.leb_le; cbn [List.length]; lia).
  assert (E : tp_args (INVALID_TIME :: v :: vals) 0 start_pos
                (repeat INVALID_TIME 7) INVALID_TIME
              = tp_args (v :: vals) 0 (start_pos + 1)
                  (repeat INVALID_TIME 7) INVALID_TIME).
  { rewrite <- tp_args_shift.
    assert (C : start_pos = 0 \/ start_pos = 1 \/ start_pos = 2
                \/ start_pos = 3 \/ start_pos = 4 \/ start_pos = 5) by lia.
    repeat (destruct C as [-> | C]); try subst start_pos; reflexivity. }
  rewrite E. reflexivity.
Qed.

Lemma setter_skips_NaN_witness :
  Date_setUTC 3 (Some 0) [INVALID_TIME; Some 5]
  = Date_setUTC 4 (Some 0) [Some 5].
Proof.
  apply (setter_skips_NaN (Some 0) [Some 5] 3 (Some d_gmtime) d_gmktime);
    [lia | discriminate].
Defined.

Lemma arg_store_ok (a : list etime) (i : Z) (v : etime) :
  0 <= i < 7 -> exists a', arg_store a i v = Ok a'.
Proof.
  intros I. unfold arg_store.
  destruct (Z.leb_spec 0 i); [| lia]. destruct (Z.ltb_spec i 7); [| lia].
  eexists. reflexivity.
Qed.

Lemma last_any_default (l : list etime) (e x y : etime) :
  last (e :: l) x = last (e :: l) y.
Proof.
  revert e. induction l as [| e' l IH]; intros e; [reflexivity |].
  change (last (e' :: l) x = last (e' :: l) y). apply IH.
Qed.

Lemma tp_args_last (vals : list etime) :
  forall i start_pos a new_part,
    0 <= i + start_pos ->
    i + start_pos + Z.of_nat (List.length vals) <= 7 ->
    exists a',
      tp_args vals i start_pos a new_part = Ok (a', last vals new_part).
Proof.
  induction vals as [| v vals IH]; intros i s a np L U.
  - eexists. reflexivity.
  - cbn [List.length] in U. cbn [tp_args]. unfold tpmax.
    destruct (Z.ltb_spec (i + s) 7); [| lia].
    rewrite double_ne_invalid. cbn [negb].
    destruct (arg_store_ok a (i + s) v ltac:(lia)) as (a1 & ->). rstep.
    destruct (IH (i + 1) s a1 v ltac:(lia) ltac:(lia)) as (a' & ->).
    exists a'. f_equal. f_equal.
    destruct vals as [| e vals]; [reflexivity |].
    change (last (e :: vals) v = last (e :: vals) np).
    apply last_any_default.
Qed.

(** X20.  A setter whose last argument is NaN gives NaN, whatever the
    arguments before it are, when the arguments do not go past the
    milliseconds. *)
Theorem setter_NaN_last (this : etime) (vals : list etime) (start_pos : Z)
    (breaktimefunc : option (Z -> result timeparts))
    (maketimefunc : timeparts -> result Z) :
  0 <= start_pos ->
  start_pos + Z.of_nat (List.length vals) < 7 ->
  d_time_number_from_tp this (vals ++ [INVALID_TIME]) start_pos breaktimefunc
    maketimefunc
  = Ok INVALID_TIME.
Proof.
  intros S U. unfold d_time_number_from_tp.
  destruct this as [current |]; [| reflexivity].
  destruct (1 <=? _); [| reflexivity].
  destruct (tp_args_last (vals ++ [INVALID_TIME]) 0 start_pos
              (repeat INVALID_TIME 7) INVALID_TIME) as (a' & ->).
  - lia.
  - rewrite length_app. cbn [List.length]. lia.
  - rstep. rewrite last_last. reflexivity.
Qed.

Lemma setter_NaN_last_witness :
  Date_setUTC 3 (Some 0) [Some 5; INVALID_TIME] = Ok INVALID_TIME.
Proof.
  apply (setter_NaN_last (Some 0) [Some 5] 3 (Some d_gmtime) d_gmktime);
    cbn [List.length]; lia.
Defined.

(** ** Parsing *)

Lemma mktime_in_range_ok (tp : timeparts) :
  0 <= month tp <= 11 -> exists t, d_mktime_impl tp = Ok t.
Proof.
  intros M. unfold d_mktime_impl, ecma_MakeDay.
  rewrite Z.rem_small by lia.
  assert (C : month tp = 0 \/ month tp = 1 \/ month tp = 2 \/ month tp = 3
              \/ month tp = 4 \/ month tp = 5 \/ month tp = 6
              \/ month tp = 7 \/ month tp = 8 \/ month tp = 9
              \/ month tp = 10 \/ month tp = 11) by lia.
  destruct (ecma_DaysInYear _ =? 366);
    repeat (destruct C as [-> | C]); try rewrite C;
    eexists; reflexivity.
Qed.

(** X21.  [d_timeFromString] on a string of at most 100 characters always
    returns true, whether the string was a date or not: it compares the
    instant, which may be NaN, with NaN by [!=]. *)
Theorem timeFromString_always_true (h : host) (str : list ascii)
    (buf_size : Z) :
  buf_size <= 100 ->
  exists time, d_timeFromString h str buf_size = Ok (time, true).
Proof.
  intros B. unfold d_timeFromString.
  destruct (Z.gtb_spec buf_size 100); [lia |].
  destruct (d_parsedatestr h str) as [[ok tp] tz].
  destruct ok; [| eexists; reflexivity].
  cbv zeta.
  match goal with
  | |- context [if ?c then _ else Ok INVALID_TIME] => destruct c eqn:V
  end; [| eexists; reflexivity].
  repeat (apply andb_true_iff in V as [V ?]).
  match goal with
  | H : (month _ >=? 0) && _ = true |- _ =>
      apply andb_true_iff in H as [M0 M1]
  end.
  destruct (mktime_in_range_ok (set_part tp 1 (month tp - 1))) as (t & E).
  { split; [apply Z.geb_le | apply Z.leb_le]; assumption. }
  unfold d_gmktime. rewrite E. rstep.
  eexists. rewrite double_ne_invalid. reflexivity.
Qed.

Lemma timeFromString_always_true_witness :
  exists time,
    d_timeFromString utc_host (list_ascii_of_string "yesterday") 9
    = Ok (time, true).
Proof.
  apply (timeFromString_always_true utc_host
           (list_ascii_of_string "yesterday") 9).
  lia.
Defined.

(** X22.  A string from which the ISO format assigns all seven fields is
    read the same on every host: neither the time zone of the host nor the
    later formats are consulted. *)
Theorem timeFromString_iso_any_host (h1 h2 : host) (str : list ascii)
    (buf_size : Z) :
  List.length (sscanf frmISOString str) = 7%nat ->
  d_timeFromString h1 str buf_size = d_timeFromString h2 str buf_size.
Proof.
  intros L. unfold d_timeFromString, d_parsedatestr. rewrite L.
  cbn [Nat.eqb]. cbv zeta.
  change (0 =? NO_TZ) with false. cbn [negb andb orb].
  reflexivity.
Qed.

Lemma timeFromString_iso_any_host_witness :
  d_timeFromString
    {| timezone := -3600; tm_isdst := fun _ => true;
       env_locale := "C"; locale_known := fun _ => true;
       strftime := fun _ _ _ => ""%string;
       later_strategies := fun _ tp => (true, tp, 100) |}
    (list_ascii_of_string "2015-03-05T10:20:30.400Z") 24
  = Ok (Some 1425550830400, true).
Proof.
  rewrite (timeFromString_iso_any_host _ utc_host); reflexivity.
Defined.

(** ** The constructor *)

Lemma ctor_args_overflow (vals : list etime) :
  forall i a,
    0 <= i <= 7 ->
    7 < i + Z.of_nat (List.length vals) ->
    ctor_args vals i a = Fault.
Proof.
  induction vals as [| v vals IH]; intros i a I U.
  - cbn [List.length] in U. lia.
  - cbn [List.length] in U. cbn [ctor_args]. unfold arg_store.
    destruct (Z.leb_spec 0 i); [| lia].
    destruct (Z.ltb_spec i 7); cbn [andb]; [| reflexivity]. rstep.
    rewrite double_ne_invalid. cbn [negb]. apply IH; lia.
Qed.

(** X23.  The constructor called with eight or more arguments writes past
    the seven elements of its array of fields. *)
Theorem Date_ctor_overflow (h : host) (vals : list etime) :
  (7 < List.length vals)%nat ->
  Date_ctor_parts h vals = Fault.
Proof.
  intros L. unfold Date_ctor_parts.
  rewrite ctor_args_overflow by lia. reflexivity.
Qed.

Lemma Date_ctor_overflow_witness :
  Date_ctor_parts utc_host
    [Some 2015; Some 2; Some 5; Some 10; Some 20; Some 30; Some 400; Some 0]
  = Fault.
Proof. apply (Date_ctor_overflow utc_host). cbn [List.length]. lia. Defined.

(** X24.  A NaN argument of the constructor does not make the date
    invalid: in the place of the month, hours, minutes, seconds or
    milliseconds it counts as 0. *)
Theorem Date_ctor_NaN_as_zero (h : host) (vals : list etime) (k : nat) :
  (List.length vals <= 7)%nat ->
  nth_error vals k = Some INVALID_TIME ->
  k <> 0%nat -> k <> 2%nat ->
  Date_ctor_parts h vals
  = Date_ctor_parts h (firstn k vals ++ Some 0 :: skipn (S k) vals).
Proof.
  intros L E K0 K2.
  destruct vals as [| a0 [| a1 [| a2 [| a3 [| a4 [| a5 [| a6 [| a7 vals]]]]]]]];
    cbn [List.length] in L; try lia;
    do 7 (destruct k as [| k];
          [try congruence; cbn [nth_error] in E; inversion E; subst;
           cbn [firstn skipn app]; unfold Date_ctor_parts, INVALID_TIME;
           repeat match goal with
                  | x : etime |- _ => destruct x
                  end;
           cbn [repeat];
           repeat (progress (eval_args; rstep; unfold double_eq, double_ne;
                             cbn [negb]));
           repeat (match goal with
                   | |- context [if ?c then _ else _] => destruct c
                   end;
                   repeat (progress (eval_args; rstep)));
           unfold d_changepartoftime; rstep;
           cbn [change_parts set_part tp_zero year month day hour min sec
                  msec dayofweek];
           reflexivity
          | try (cbn [nth_error] in E; destruct k; discriminate)]).
Qed.

Lemma Date_ctor_NaN_as_zero_witness :
  Date_ctor_parts utc_host [Some 2015; INVALID_TIME; Some 5]
  = Date_ctor_parts utc_host [Some 2015; Some 0; Some 5].
Proof.
  apply (Date_ctor_NaN_as_zero utc_host [Some 2015; INVALID_TIME; Some 5] 1);
    [cbn [List.length]; lia | reflexivity | discriminate | discriminate].
Defined.

(** ** Names of months *)

Lemma getnum_loop_spec (arr : list (list ascii)) (str : list ascii) :
  forall (n : nat) (i : nat),
    (i + n = List.length arr)%nat ->
    (forall j nm, (j < i)%nat -> nth_error arr j = Some nm ->
                  strncmp_eq 3 nm str = false) ->
    exists k,
      getnum_loop n arr (Z.of_nat i) str = Ok k
      /\ ((k = -1
           /\ forall nm, In nm arr -> strncmp_eq 3 nm str = false)
          \/ (1 <= k <= Z.of_nat (List.length arr)
              /\ (exists nm, nth_error arr (Z.to_nat (k - 1)) = Some nm
                             /\ strncmp_eq 3 nm str = true)
              /\ forall j nm, (Z.of_nat j < k - 1) ->
                              nth_error arr j = Some nm ->
                              strncmp_eq 3 nm str = false)).
Proof.
  induction n as [| n IH]; intros i L B.
  - exists (-1). split; [reflexivity |]. left. split; [reflexivity |].
    intros nm I. apply In_nth_error in I as (j & J).
    apply (B j); [| exact J].
    assert ((j < List.length arr)%nat) by (apply nth_error_Some; congruence).
    lia.
  - cbn [getnum_loop]. rewrite Nat2Z.id.
    destruct (nth_error arr i) as [nm |] eqn:E.
    + destruct (strncmp_eq 3 nm str) eqn:C.
      * exists (Z.of_nat i + 1). split; [reflexivity |]. right.
        split; [lia |]. split.
        -- exists nm. replace (Z.to_nat (Z.of_nat i + 1 - 1)) with i by lia.
           split; assumption.
        -- intros j nm' J. apply B. lia.
      * replace (Z.of_nat i + 1) with (Z.of_nat (S i)) by lia.
        apply IH; [lia |].
        intros j nm' J EJ. destruct (Nat.eq_dec j i) as [-> | N].
        -- congruence.
        -- apply (B j); [lia | exact EJ].
    + apply nth_error_None in E. lia.
Qed.

(** X25.  [d_getnumbyname] on a table and its size returns the number,
    counted from 1, of the first name of the table whose first three
    characters are those of the string, and -1 when no name has them. *)
Theorem getnumbyname_first_match (arr : list (list ascii))
    (str : list ascii) :
  exists k,
    d_getnumbyname arr (Z.of_nat (List.length arr)) str = Ok k
    /\ ((k = -1
         /\ forall nm, In nm arr -> strncmp_eq 3 nm str = false)
        \/ (1 <= k <= Z.of_nat (List.length arr)
            /\ (exists nm, nth_error arr (Z.to_nat (k - 1)) = Some nm
                           /\ strncmp_eq 3 nm str = true)
            /\ forall j nm, (Z.of_nat j < k - 1) ->
                            nth_error arr j = Some nm ->
                            strncmp_eq 3 nm str = false)).
Proof.
  unfold d_getnumbyname. rewrite Nat2Z.id.
  apply (getnum_loop_spec arr str (List.length arr) 0%nat); [reflexivity |].
  intros j nm J. lia.
Qed.

(** December, with what follows the name in a date *)
Example getnumbyname_december :
  d_getnumbyname mon_name 12 (list_ascii_of_string "December 17, 1995")
  = Ok 12.
Proof. reflexivity. Qed.

(** ** The ISO string and the constructor on calendar instants *)

(** X26.  From 1970 to the last instant of ECMAScript, [Date_toISOString]
    fits its buffer of 30 bytes: it returns 24 characters up to the year
    9999 and 27, with a plus sign and six digits of year, after it. *)
Theorem toISOString_length (t : Z) :
  0 <= t <= 8640000000000000 ->
  exists tp s,
    d_gmtime t = Ok tp
    /\ Date_toISOString t = Ok s
    /\ List.length s = if year tp <=? 9999 then 24%nat else 27%nat.
Proof.
  intros T. destruct (iso_year_field t T) as (tp & Y & G & S & _ & _ & LY).
  destruct (gmtime_gmktime t ltac:(lia))
    as (tp' & G' & _ & Rm & Rd & Rh & Rmi & Rs & Rms & _).
  assert (tp' = tp) by congruence. subst tp'.
  exists tp. eexists. split; [exact G |]. split; [exact S |].
  rewrite !length_app, LY, iso_tail_length by assumption.
  destruct (year tp <=? 9999); reflexivity.
Qed.

Lemma toISOString_length_witness :
  exists tp s,
    d_gmtime 8640000000000000 = Ok tp
    /\ Date_toISOString 8640000000000000 = Ok s
    /\ List.length s = if year tp <=? 9999 then 24%nat else 27%nat.
Proof. apply (toISOString_length 8640000000000000). lia. Defined.

(** X27.  The constructor called with the seven fields of a calendar
    instant, from 1970 on, stores the conversion to universal time of the
    instant that breaks down into those fields. *)
Theorem Date_ctor_fields (h : host) (tp : timeparts) :
  tp_in_range tp = true ->
  exists t,
    Date_ctor_parts h
      [Some (year tp); Some (month tp); Some (day tp); Some (hour tp);
       Some (min tp); Some (sec tp); Some (msec tp)]
    = Ok (Some (ecma_UTC h t))
    /\ d_gmtime t = Ok (with_dayofweek tp t).
Proof.
  intros R. destruct (gmktime_gmtime_fields tp) as (t & K & _ & G);
    try (apply tp_in_range_spec in R; tauto || lia).
  apply tp_in_range_spec in R as (Ry & Rm & Rd & Rh & Rmi & Rs & Rms).
  exists t. split; [| exact G].
  destruct tp as [y m d hh mi s ms w].
  cbn [year month day hour min sec msec] in *.
  unfold Date_ctor_parts. cbn [repeat].
  repeat (progress (eval_args; rstep)). unfold double_eq, double_ne.
  destruct (Z.eqb_spec d 0); [lia |]. cbn [negb].
  repeat (progress (eval_args; rstep)).
  destruct (Z.leb_spec y 99); [lia |]. rewrite andb_false_r.
  unfold d_changepartoftime. rstep.
  cbn [change_parts set_part tp_zero year month day hour min sec msec
         dayofweek].
  unfold d_gmktime in *. unfold d_mktime_impl in *.
  cbn [year month day hour min sec msec] in *. rewrite K. reflexivity.
Qed.

Lemma Date_ctor_fields_witness :
  exists t,
    Date_ctor_parts utc_host
      [Some 2016; Some 1; Some 29; Some 23; Some 59; Some 59; Some 999]
    = Ok (Some (ecma_UTC utc_host t))
    /\ d_gmtime t
       = Ok (with_dayofweek (mk_timeparts 2016 1 29 23 59 59 999 0) t).
Proof.
  apply (Date_ctor_fields utc_host (mk_timeparts 2016 1 29 23 59 59 999 0)).
  reflexivity.
Defined.

Lemma iso_roundtrip_nonneg_witness :
  exists s,
    Date_toISOString 1425550830400 = Ok s
    /\ d_timeFromString utc_host s (Z.of_nat (List.length s))
       = Ok (Some 1425550830400, true).
Proof. apply (iso_roundtrip_nonneg utc_host 1425550830400). lia. Defined.
